(** * pdf-image-extractor: the extract / preview / select / save flow

    The repository holds three independent desktop programs with the same
    flow on three GUI toolkits:

    - [extract_images_gui.py] (PySimpleGUI), module [Gui] below;
    - [main.py] (Kivy), module [Kivy] below;
    - [extractor_pro.py] (PyQt5), module [Pro] below.

    Each program is embedded shallowly: Python exceptions are a [result],
    mutable objects and the file system are threaded through a state and
    exception monad, loops are recursion over the list they walk.  The
    third-party libraries (PyMuPDF, Pillow) and the operating system are
    modelled in module [Lib]: what the programs call is given a small
    executable model, what the libraries decide on their own (parsing a
    PDF, decoding an image) is an interface the development is generic in. *)

From Stdlib Require Import Ascii DecimalString DecimalNat Decimal.
From Stdlib.Strings Require Byte.
From stdpp Require Import gmap strings list sorting.

Local Open Scope string_scope.
Local Open Scope list_scope.
Local Open Scope nat_scope.

(** ** Python values, exceptions and the state/exception monad *)

Module Py.

Abbreviation bytes := (list Byte.byte).

(** The exceptions the three programs can meet. *)
Inductive exn :=
| FileNotFoundError
| FileExistsError
| NotADirectoryError
| IsADirectoryError
| PermissionError
| FileDataError            (* PyMuPDF: the file is not a document *)
| UnidentifiedImageError   (* Pillow: the bytes are not an image *)
| KeyError (k : string)
| AttributeError (attr : string)
| IndexError
| ValueError
| Unmodelled (what : string).
    (* marks a library feature this development gives no model of *)

Inductive result (A : Type) :=
| Ok (a : A)
| Raise (e : exn).
Arguments Ok {A} a.
Arguments Raise {A} e.


(** A computation over a mutable state [S] that may raise: the state
    reached when the exception is raised is kept, as in Python. *)
Definition M (S A : Type) : Type := S -> result A * S.

Definition ret {S A} (a : A) : M S A := fun s => (Ok a, s).
Definition raise {S A} (e : exn) : M S A := fun s => (Raise e, s).
Definition bind {S A B} (c : M S A) (k : A -> M S B) : M S B :=
  fun s => match c s with
           | (Ok a, s') => k a s'
           | (Raise e, s') => (Raise e, s')
           end.
Definition get {S} : M S S := fun s => (Ok s, s).
Definition gets {S A} (f : S -> A) : M S A := fun s => (Ok (f s), s).
Definition modify {S} (f : S -> S) : M S unit := fun s => (Ok tt, f s).
Definition lift {S A} (r : result A) : M S A := fun s => (r, s).

(** [try: c except Exception as e: h e] *)
Definition try_except {S A} (c : M S A) (h : exn -> M S A) : M S A :=
  fun s => match c s with
           | (Ok a, s') => (Ok a, s')
           | (Raise e, s') => h e s'
           end.

(** The computation keeps [P]: from a state where [P] holds it ends,
    returning or raising, in a state where [P] holds. *)
Definition preserves {S A} (P : S -> Prop) (c : M S A) : Prop :=
  forall s, P s -> P (snd (c s)).

(** [for x in l: body x] *)
Fixpoint for_each {S A} (l : list A) (body : A -> M S unit) : M S unit :=
  match l with
  | [] => ret tt
  | x :: l' => bind (body x) (fun _ => for_each l' body)
  end.

(** [enumerate(l)], counting from [i]. *)
Fixpoint enumerate_from {A} (i : nat) (l : list A) : list (nat * A) :=
  match l with
  | [] => []
  | x :: l' => (i, x) :: enumerate_from (S i) l'
  end.
Definition enumerate {A} (l : list A) : list (nat * A) := enumerate_from 0 l.

(** [str(n)] for a non-negative integer. *)
Definition str_of_nat (n : nat) : string :=
  NilZero.string_of_uint (Nat.to_uint n).

(** [s.split(c)] for a one-character separator. *)
Fixpoint split_on (c : ascii) (s : string) : list string :=
  match s with
  | EmptyString => [EmptyString]
  | String a s' =>
      if Ascii.eqb a c then EmptyString :: split_on c s'
      else match split_on c s' with
           | x :: xs => String a x :: xs
           | [] => [String a EmptyString]
           end
  end.

(** [l[i]] *)
Definition index {A} (l : list A) (i : nat) : result A :=
  match l !! i with Some x => Ok x | None => Raise IndexError end.

(** [s[1:]] *)
Definition slice_from_1 (s : string) : string :=
  match s with EmptyString => EmptyString | String _ s' => s' end.

(** [s.startswith(c)] and [s.endswith(c)] for a one-character [c]. *)
Definition startswith (c : ascii) (s : string) : bool :=
  match s with String a _ => Ascii.eqb a c | EmptyString => false end.
Fixpoint endswith (c : ascii) (s : string) : bool :=
  match s with
  | EmptyString => false
  | String a EmptyString => Ascii.eqb a c
  | String _ s' => endswith c s'
  end.

(** [not s] for a string. *)
Definition str_empty (s : string) : bool :=
  match s with EmptyString => true | _ => false end.

(** [all(P(c) for c in s)] *)
Fixpoint str_forall (P : ascii -> bool) (s : string) : bool :=
  match s with
  | EmptyString => true
  | String a s' => P a && str_forall P s'
  end.

Definition is_digit (a : ascii) : bool :=
  match a with
  | "0" | "1" | "2" | "3" | "4" | "5" | "6" | "7" | "8" | "9" => true
  | _ => false
  end%char.

(** The string is empty or starts with a character that is no digit. *)
Definition nondigit_head (r : string) : Prop :=
  match r with
  | EmptyString => True
  | String c _ => is_digit c = false
  end.

(** [c not in s] *)
Definition lacks (c : ascii) (s : string) : bool :=
  str_forall (fun x => negb (Ascii.eqb x c)) s.

(** The values of a list of results up to the first exception, and that
    exception: what a loop that builds one value per element has built
    when it ends, and how it ends. *)
Fixpoint until_raise {X} (rs : list (result X)) : list X * option exn :=
  match rs with
  | [] => ([], None)
  | Ok x :: rs' => let '(xs, e) := until_raise rs' in (x :: xs, e)
  | Raise e :: _ => ([], Some e)
  end.

Definition outcome (e : option exn) : result unit :=
  match e with None => Ok tt | Some e => Raise e end.

(** [pattern.format(k1=v1, ...)] with string-valued keyword arguments: literal
    text, the escapes [{{] and [}}], and replacement fields [{name}].
    A field with a conversion, a format specification, an attribute or an
    index is not modelled.  [field] is [Some] of the field name read so far
    while inside braces. *)
Definition field_value (kw : gmap string string) (name : string)
  : result string :=
  if str_forall is_digit name then Raise IndexError
  else if negb (str_forall
                  (fun c => negb (bool_decide (c ∈ ["!"; ":"; "."; "["; "{"]%char)))
                  name) then Raise (Unmodelled "replacement field")
  else match kw !! name with
       | Some v => Ok v
       | None => Raise (KeyError name)
       end.

Fixpoint format_go (s : string) (field : option string)
    (kw : gmap string string) : result string :=
  match s, field with
  | EmptyString, None => Ok EmptyString
  | EmptyString, Some _ => Raise ValueError
  | String c s', None =>
      if Ascii.eqb c "{" then
        match s' with
        | String "{" s'' =>
            match format_go s'' None kw with
            | Ok r => Ok (String "{" r)
            | Raise e => Raise e
            end
        | _ => format_go s' (Some EmptyString) kw
        end
      else if Ascii.eqb c "}" then
        match s' with
        | String "}" s'' =>
            match format_go s'' None kw with
            | Ok r => Ok (String "}" r)
            | Raise e => Raise e
            end
        | _ => Raise ValueError
        end
      else
        match format_go s' None kw with
        | Ok r => Ok (String c r)
        | Raise e => Raise e
        end
  | String c s', Some name =>
      if Ascii.eqb c "}" then
        match field_value kw name with
        | Raise e => Raise e
        | Ok v =>
            match format_go s' None kw with
            | Ok r => Ok (v +:+ r)
            | Raise e => Raise e
            end
        end
      else format_go s' (Some (name +:+ String c EmptyString)) kw
  end.

Definition str_format (pattern : string) (kw : gmap string string)
  : result string :=
  format_go pattern None kw.

End Py.

Import Py.

Global Instance M_ret {S} : MRet (M S) := fun _ a => ret a.
Global Instance M_bind {S} : MBind (M S) := fun _ _ k c => bind c k.

(** [for x in l: acc = body acc x], for a loop that builds a local value. *)
Fixpoint for_fold {S A B} (l : list A) (acc : B) (body : B -> A -> M S B)
  : M S B :=
  match l with
  | [] => mret acc
  | x :: l' => acc' ← body acc x; for_fold l' acc' body
  end.

(** [range(n)] *)
Definition range (n : nat) : list nat := seq 0 n.

(** ** The operating system: a tree of directories and files

    A path is resolved lexically from the process's working directory,
    which is the root of the model: the segments between slashes, empty
    segments and [.] dropped.  Symbolic links and [..] are outside the
    model.  [denied] holds the paths at which the process may neither
    create nor write (permission denied). *)

Module Os.

Definition path := list string.

Inductive node :=
| Dir
| File (content : bytes).

Global Instance byte_eq_dec : EqDecision Byte.byte := Byte.byte_eq_dec.

Global Instance node_eq_dec : EqDecision node.
Proof. solve_decision. Defined.

Record FS := mkFS { nodes : gmap (list string) node; denied : gset (list string) }.

Definition resolve (s : string) : path :=
  filter (fun seg => seg ≠ "" ∧ seg ≠ ".") (split_on "/" s).

Definition lookup_node (fs : FS) (p : path) : option node :=
  match p with
  | [] => Some Dir
  | _ => nodes fs !! p
  end.

Definition parent (p : path) : path := removelast p.

Definition path_exists (fs : FS) (p : path) : bool :=
  match lookup_node fs p with Some _ => true | None => false end.

Definition path_isdir (fs : FS) (p : path) : bool :=
  match lookup_node fs p with Some Dir => true | _ => false end.

(** Every node hangs in a directory. *)
Definition fs_wf (fs : FS) : Prop :=
  map_Forall (fun p _ => p ≠ [] ∧ lookup_node fs (parent p) = Some Dir)
             (nodes fs).

Global Instance fs_wf_dec fs : Decision (fs_wf fs).
Proof. unfold fs_wf. apply _. Defined.

(** [os.path.exists(s)], [os.path.isfile(s)] *)
Definition os_path_exists (fs : FS) (s : string) : bool :=
  if str_empty s then false else path_exists fs (resolve s).

Definition os_path_isfile (fs : FS) (s : string) : bool :=
  if str_empty s then false
  else match lookup_node fs (resolve s) with
       | Some (File _) => true
       | _ => false
       end.

(** [posixpath.join(a, b)] *)
Definition os_path_join (a b : string) : string :=
  if startswith "/" b then b
  else if str_empty a || endswith "/" a then a +:+ b
  else a +:+ "/" +:+ b.

(** [os.mkdir] on a resolved path. *)
Definition mkdir (fs : FS) (p : path) : result FS :=
  match lookup_node fs p with
  | Some _ => Raise FileExistsError
  | None =>
      match lookup_node fs (parent p) with
      | None => Raise FileNotFoundError
      | Some (File _) => Raise NotADirectoryError
      | Some Dir =>
          if decide (p ∈ denied fs) then Raise PermissionError
          else Ok (mkFS (<[p := Dir]> (nodes fs)) (denied fs))
      end
  end.

(** The last step of [os.makedirs]:
    [try: mkdir(name) except OSError: if not exist_ok or not isdir(name): raise] *)
Definition mkdir_leaf (fs : FS) (p : path) (exist_ok : bool) : result FS :=
  match mkdir fs p with
  | Ok fs' => Ok fs'
  | Raise e => if negb exist_ok || negb (path_isdir fs p) then Raise e else Ok fs
  end.

(** [os.makedirs], on the reversed path: the head is made first when it does
    not exist (a [FileExistsError] from that is ignored), then the leaf. *)
Fixpoint makedirs_rev (fs : FS) (rp : list string) (exist_ok : bool)
  : result FS :=
  match rp with
  | [] => mkdir_leaf fs [] exist_ok
  | _ :: rhead =>
      let r :=
        if negb (path_exists fs (rev rhead)) then
          match makedirs_rev fs rhead exist_ok with
          | Raise FileExistsError => Ok fs
          | r => r
          end
        else Ok fs in
      match r with
      | Ok fs1 => mkdir_leaf fs1 (rev rp) exist_ok
      | Raise e => Raise e
      end
  end.

Definition os_makedirs (fs : FS) (name : string) (exist_ok : bool)
  : result FS :=
  if str_empty name then Raise FileNotFoundError
  else makedirs_rev fs (rev (resolve name)) exist_ok.

(** [with open(name, 'wb') as f: f.write(data)] *)
Definition write_path (fs : FS) (p : path) (data : bytes) : result FS :=
  match p with
  | [] => Raise IsADirectoryError
  | _ =>
      match lookup_node fs (parent p) with
      | None => Raise FileNotFoundError
      | Some (File _) => Raise NotADirectoryError
      | Some Dir =>
          match lookup_node fs p with
          | Some Dir => Raise IsADirectoryError
          | _ =>
              if decide (p ∈ denied fs) then Raise PermissionError
              else Ok (mkFS (<[p := File data]> (nodes fs)) (denied fs))
          end
      end
  end.

Definition open_wb_write (fs : FS) (name : string) (data : bytes)
  : result FS :=
  if str_empty name then Raise FileNotFoundError
  else write_path fs (resolve name) data.

(** [open(name, 'rb').read()] *)
Definition read_file (fs : FS) (name : string) : result bytes :=
  if str_empty name then Raise FileNotFoundError
  else match lookup_node fs (resolve name) with
       | None => Raise FileNotFoundError
       | Some Dir => Raise IsADirectoryError
       | Some (File b) => Ok b
       end.

(** A file name of one segment: no slash, not empty, not [.]. *)
Definition plain_name (n : string) : Prop :=
  lacks "/" n = true ∧ n ≠ EmptyString ∧ n ≠ ".".

(** The bytes of the file at a path, when there is one. *)
Definition file_at (fs : FS) (p : path) : option bytes :=
  match lookup_node fs p with
  | Some (File b) => Some b
  | _ => None
  end.

(** Writing a list of files one after the other, stopping at the first
    write that fails: what the export loops of the three programs do to
    the file system. *)
Fixpoint write_all (fs : FS) (ws : list (path * bytes)) : result FS :=
  match ws with
  | [] => Ok fs
  | (p, d) :: ws' =>
      match write_path fs p d with
      | Raise e => Raise e
      | Ok fs1 => write_all fs1 ws'
      end
  end.

(** The process may write a file at [p]: a name in a directory, not itself
    a directory, not refused. *)
Definition writable (fs : FS) (p : path) : Prop :=
  p ≠ [] ∧ path_isdir fs (parent p) = true ∧ path_isdir fs p = false ∧
  p ∉ denied fs.

(** What an export of the named files [sel] into directory [out] leaves
    on disk: pairwise distinct names, each file holding its bytes, no other
    file touched. *)
Definition exported (fs fs' : FS) (out : string)
    (sel : list (string * bytes)) : Prop :=
  NoDup sel.*1 ∧
  (∀ n d, (n, d) ∈ sel → file_at fs' (resolve out ++ [n]) = Some d) ∧
  (∀ q, (∀ n, n ∈ sel.*1 → q ≠ resolve out ++ [n]) →
        file_at fs' q = file_at fs q).

End Os.

(** ** PyMuPDF ([fitz]) *)

Module Fitz.

(** One item of [page.get_images(full=True)] / [doc.get_page_images(n)]:
    the tuple [(xref, smask, width, height, bpc, colorspace, alt, name,
    filter, referencer)], of which the programs read item 0 only. *)
Record image_entry := mkEntry {
  xref : nat;
  smask : nat;
  width : nat;
  height : nat;
  name : string
}.

(** An open document: the image lists of its pages in file order, and the
    image streams of its cross-reference table. *)
Record Document := mkDoc {
  pages : list (list image_entry);
  streams : gmap nat bytes
}.

(** What PyMuPDF makes of a file's bytes: a document, or nothing when the
    file is not a valid PDF. *)
Class Parser := pdf_parse : bytes -> option Document.

(** [fitz.open(path)] *)
Definition open `{Parser} (fs : Os.FS) (path : string) : result Document :=
  match Os.read_file fs path with
  | Raise e => Raise e
  | Ok b => match pdf_parse b with
            | Some d => Ok d
            | None => Raise FileDataError
            end
  end.

(** [len(doc)], [doc.page_count] *)
Definition page_count (doc : Document) : nat := length (pages doc).

(** [doc[n].get_images(full=True)], [doc.get_page_images(n)] *)
Definition get_page_images (doc : Document) (n : nat)
  : result (list image_entry) :=
  index (pages doc) n.

(** [doc.extract_image(xref)]: a dict with the key ['image'] (the other
    keys are never read), empty when [xref] is not an image. *)
Definition extract_image (doc : Document) (x : nat) : gmap string bytes :=
  match streams doc !! x with
  | Some b => {[ "image" := b ]}
  | None => ∅
  end.

(** [d[k]] on a dict. *)
Definition getitem {V} (d : gmap string V) (k : string) : result V :=
  match d !! k with Some v => Ok v | None => Raise (KeyError k) end.

(** A valid PDF: every image a page lists resolves to a stream. *)
Definition resolves (doc : Document) (e : image_entry) : Prop :=
  is_Some (streams doc !! xref e).

Definition valid (doc : Document) : Prop :=
  Forall (Forall (resolves doc)) (pages doc).

Global Instance resolves_dec doc e : Decision (resolves doc e).
Proof. unfold resolves. apply _. Defined.

Global Instance valid_dec doc : Decision (valid doc).
Proof. unfold valid. apply _. Defined.

(** The number of embedded images across the pages. *)
Definition image_count (doc : Document) : nat :=
  sum_list (length <$> pages doc).

End Fitz.

(** ** The session of a document

    The records the spec's Harvester yields for an open document, as a
    list computed from the page lists: the images by page and by position
    on the page, both counted from 0 as the loops count them, and the
    records [(page_number, image_index, raw_bytes)] counted from 1. *)

Module Session.
Import Fitz.

Definition page_entries (p k : nat) (es : list image_entry)
  : list (nat * nat * image_entry) :=
  (fun '(i, e) => (p, i, e)) <$> enumerate_from k es.

Fixpoint pages_entries (p : nat) (pgs : list (list image_entry))
  : list (nat * nat * image_entry) :=
  match pgs with
  | [] => []
  | pg :: pgs' => page_entries p 0 pg ++ pages_entries (S p) pgs'
  end.

Definition entries (doc : Document) : list (nat * nat * image_entry) :=
  pages_entries 0 (pages doc).

Definition stream_of (doc : Document) (e : image_entry) : bytes :=
  default [] (streams doc !! xref e).

Definition record_of (doc : Document) (x : nat * nat * image_entry)
  : nat * nat * bytes :=
  let '(p, i, e) := x in (p + 1, i + 1, stream_of doc e).

Definition records (doc : Document) : list (nat * nat * bytes) :=
  record_of doc <$> entries doc.

Definition page_number (r : nat * nat * bytes) : nat := r.1.1.
Definition image_index (r : nat * nat * bytes) : nat := r.1.2.
Definition raw_bytes (r : nat * nat * bytes) : bytes := r.2.


End Session.

(** ** Pillow ([PIL.Image]) *)

Module Pil.

Record image := mkImage { size : nat * nat; pixels : bytes }.

(** The codecs and the resampler are the library's own. *)
Class Imaging := mkImaging {
  decode : bytes -> option image;
  resample : image -> nat * nat -> image;
  encode_png : image -> bytes
}.

(** [Image.open(io.BytesIO(b))] *)
Definition Image_open `{Imaging} (b : bytes) : result image :=
  match decode b with
  | Some im => Ok im
  | None => Raise UnidentifiedImageError
  end.

(** [img.thumbnail(max_size)]; the resizing itself is Pillow's. *)
Definition thumbnail `{Imaging} (im : image) (max_size : nat * nat) : image :=
  resample im max_size.

(** [img.save(buf, format='PNG'); buf.getvalue()] *)
Definition save_png `{Imaging} (im : image) : bytes := encode_png im.

Definition decodable `{Imaging} (b : bytes) : Prop := is_Some (decode b).

Global Instance decodable_dec `{Imaging} b : Decision (decodable b).
Proof. unfold decodable. apply _. Defined.

End Pil.

(** ** [extract_images_gui.py] (PySimpleGUI) *)

Module Gui.

(** What the program shows. *)
Inductive ui_out :=
| MainWindow
| SelectionWindow (rows : list (string * string * bytes))
    (* one row per image: checkbox label, checkbox key, thumbnail *)
| WindowClosed (selection : bool)
| Popup (lines : list string)
| PopupError (msg : string).

(** What [window.read()] returns: the event, and the values of the
    window's input fields and checkboxes by key. *)
Record event := mkEvent {
  evt : option string;
  texts : gmap string string;
  checks : gmap string bool
}.

Record state := mkState {
  fs : Os.FS;
  log : list string;
  ui : list ui_out
}.

Definition logging_info (msg : string) : M state unit :=
  modify (fun s => mkState (fs s) (log s ++ [msg]) (ui s)).

Definition show (o : ui_out) : M state unit :=
  modify (fun s => mkState (fs s) (log s) (ui s ++ [o])).

Definition with_fs (op : Os.FS -> result Os.FS) : M state unit :=
  fun s => match op (fs s) with
           | Ok fs' => (Ok tt, mkState fs' (log s) (ui s))
           | Raise e => (Raise e, s)
           end.

Abbreviation record := (nat * nat * bytes)%type.

Section WithLibraries.
Context `{Fitz.Parser} `{Pil.Imaging}.

Definition extract_images_from_pdf (pdf_path : string)
  : M state (list record) :=
  logging_info ("Opening PDF: " +:+ pdf_path);;
  doc ← (fun s => (Fitz.open (fs s) pdf_path, s));
  images ← for_fold (range (Fitz.page_count doc)) [] (fun images page_idx =>
    page ← lift (Fitz.get_page_images doc page_idx);
    for_fold (enumerate page) images (fun images '(img_idx, img) =>
      let xref := Fitz.xref img in
      let base_img := Fitz.extract_image doc xref in
      data ← lift (Fitz.getitem base_img "image");
      mret (images ++ [(page_idx + 1, img_idx + 1, data)])));
  logging_info ("Found " +:+ str_of_nat (length images) +:+ " images in PDF");;
  mret images.

Definition create_thumbnail (image_bytes : bytes) (max_size : nat * nat)
  : result bytes :=
  match Pil.Image_open image_bytes with
  | Raise e => Raise e
  | Ok img => Ok (Pil.save_png (Pil.thumbnail img max_size))
  end.

Definition default_max_size : nat * nat := (150, 150).

Definition build_main_window : M state unit := show MainWindow.

Definition checkbox_key (idx : nat) : string :=
  "-CHK" +:+ str_of_nat idx +:+ "-".

Definition checkbox_label (pnum inum : nat) : string :=
  "Page " +:+ str_of_nat pnum +:+ ", Image " +:+ str_of_nat inum.

Definition build_selection_window (images : list record)
  : M state (list (string * nat)) :=
  '(checkbox_keys, img_rows) ←
    for_fold (enumerate images) ([], [])
      (fun '(checkbox_keys, img_rows) '(idx, (pnum, inum, img_bytes)) =>
         let key := checkbox_key idx in
         thumb ← lift (create_thumbnail img_bytes default_max_size);
         mret (checkbox_keys ++ [(key, idx)],
               img_rows ++ [(checkbox_label pnum inum, key, thumb)]));
  show (SelectionWindow img_rows);;
  mret checkbox_keys.

Definition file_name (p i : nat) : string :=
  "img_p" +:+ str_of_nat p +:+ "_i" +:+ str_of_nat i +:+ ".png".

(** The checkbox keys [build_selection_window] returns for [n] images,
    from position [k] on. *)
Definition keys_from (k n : nat) : list (string * nat) :=
  (fun idx => (checkbox_key idx, idx)) <$> seq k n.

(** The records whose checkbox is ticked in the values [v2] of the
    selection window, with the position each has in [images]. *)
Definition selection_from (k : nat) (images : list record)
    (v2 : gmap string bool) : list (nat * record) :=
  filter (fun x => v2 !! checkbox_key x.1 = Some true)
         (enumerate_from k images).

Definition selection (images : list record) (v2 : gmap string bool)
  : list record :=
  (selection_from 0 images v2).*2.

(** The body of [if e2 == 'Download':], up to the popup. *)
Definition download (out : string) (images : list record)
    (checkbox_keys : list (string * nat)) (v2 : gmap string bool)
  : M state unit :=
  count ← for_fold checkbox_keys 0 (fun count '(key, idx) =>
    if default false (v2 !! key) then
      '(p, i, data) ← lift (index images idx);
      let fname := file_name p i in
      let fpath := Os.os_path_join out fname in
      with_fs (fun fs => Os.open_wb_write fs fpath data);;
      logging_info ("Saved: " +:+ fpath);;
      mret (count + 1)
    else mret count);
  show (Popup ["Done"; str_of_nat count +:+ " images saved to " +:+ out]).

(** The inner [while True:] over the selection window; both of its exits
    close the window and return from [main]. *)
Fixpoint selection_loop (events : list event) (out : string)
    (images : list record) (checkbox_keys : list (string * nat))
  : M state unit :=
  match events with
  | [] => show (WindowClosed true)
  | e :: events' =>
      if decide (evt e = None ∨ evt e = Some "Cancel") then
        show (WindowClosed true)
      else if decide (evt e = Some "Download") then
        download out images checkbox_keys (checks e);;
        show (WindowClosed true)
      else selection_loop events' out images checkbox_keys
  end.

(** The outer [while True:] over the main window.  A stream of events that
    ends reads as the window being closed. *)
Fixpoint main_loop (events : list event) : M state unit :=
  match events with
  | [] => show (WindowClosed false)
  | e :: events' =>
      if decide (evt e = None ∨ evt e = Some "Exit") then
        show (WindowClosed false)
      else if decide (evt e = Some "Load") then
        pdf ← lift (Fitz.getitem (texts e) "-PDF-");
        out ← lift (Fitz.getitem (texts e) "-OUT-");
        if str_empty pdf || str_empty out then
          show (PopupError "Both PDF and output folder are required!");;
          main_loop events'
        else
          isfile ← gets (fun s => Os.os_path_isfile (fs s) pdf);
          if negb isfile then
            show (PopupError "PDF not found!");;
            main_loop events'
          else
            with_fs (fun fs => Os.os_makedirs fs out true);;
            images ← extract_images_from_pdf pdf;
            match images with
            | [] =>
                show (Popup ["No images found."]);;
                main_loop events'
            | _ =>
                show (WindowClosed false);;
                checkbox_keys ← build_selection_window images;
                selection_loop events' out images checkbox_keys
            end
      else main_loop events'
  end.

(** [str(e)] is not modelled beyond the exception's name. *)
Definition exn_name (e : exn) : string :=
  match e with
  | FileNotFoundError => "FileNotFoundError"
  | FileExistsError => "FileExistsError"
  | NotADirectoryError => "NotADirectoryError"
  | IsADirectoryError => "IsADirectoryError"
  | PermissionError => "PermissionError"
  | FileDataError => "FileDataError"
  | UnidentifiedImageError => "UnidentifiedImageError"
  | KeyError _ => "KeyError"
  | AttributeError _ => "AttributeError"
  | IndexError => "IndexError"
  | ValueError => "ValueError"
  | Unmodelled _ => "Unmodelled"
  end.

Definition main (events : list event) : M state unit :=
  try_except
    (build_main_window;; main_loop events)
    (fun e =>
       logging_info "Application error";;
       show (PopupError ("Unexpected error: " +:+ exn_name e))).

End WithLibraries.

End Gui.

(** ** [main.py] (Kivy) *)

Module Kivy.

Record CheckBox := mkCheckBox { active : bool }.

(** The widget of one image: its bytes, its file name, its checkbox and the
    texture of its thumbnail. *)
Record ImageItem := mkItem {
  img_data : bytes;
  name : string;
  checkbox : CheckBox;
  texture : bytes
}.

Inductive ui_out :=
| PopupOpen (title text : string)
| PopupDismiss (title : string).

(** The [PDFExtractor] widget, and the file system it works on.
    [container] shows the very items [extracted] lists. *)
Record state := mkState {
  fs : Os.FS;
  container : list ImageItem;
  extracted : list ImageItem;
  _save_popup : option string;
  ui : list ui_out
}.

Definition set_container (c : list ImageItem) : M state unit :=
  modify (fun s => mkState (fs s) c (extracted s) (_save_popup s) (ui s)).

Definition set_extracted (x : list ImageItem) : M state unit :=
  modify (fun s => mkState (fs s) (container s) x (_save_popup s) (ui s)).

Definition set_save_popup (p : option string) : M state unit :=
  modify (fun s => mkState (fs s) (container s) (extracted s) p (ui s)).

Definition show (o : ui_out) : M state unit :=
  modify (fun s => mkState (fs s) (container s) (extracted s) (_save_popup s)
                           (ui s ++ [o])).

Definition with_fs (op : Os.FS -> result Os.FS) : M state unit :=
  fun s => match op (fs s) with
           | Ok fs' => (Ok tt, mkState fs' (container s) (extracted s)
                                       (_save_popup s) (ui s))
           | Raise e => (Raise e, s)
           end.

(** [container.add_widget(item); extracted.append(item)] for a run of items. *)
Definition add_items (items : list ImageItem) (s : state) : state :=
  mkState (fs s) (container s ++ items) (extracted s ++ items)
          (_save_popup s) (ui s).

Section WithLibraries.
Context `{Fitz.Parser} `{Pil.Imaging}.

(** [ImageItem._get_texture] *)
Definition _get_texture (data : bytes) : result bytes :=
  match Pil.Image_open data with
  | Raise e => Raise e
  | Ok pil_image => Ok (Pil.save_png (Pil.thumbnail pil_image (300, 300)))
  end.

(** [ImageItem.__init__]: the checkbox of a new item is not active. *)
Definition new_ImageItem (img_data : bytes) (name : string)
  : result ImageItem :=
  match _get_texture img_data with
  | Raise e => Raise e
  | Ok t => Ok (mkItem img_data name (mkCheckBox false) t)
  end.

Definition item_name (page_num idx : nat) : string :=
  "p" +:+ str_of_nat (page_num + 1) +:+ "_i" +:+ str_of_nat (idx + 1)
      +:+ ".png".

(** [PDFExtractor.extract_images] *)
Definition extract_images (pdf_path : string) : M state unit :=
  set_container [];;
  doc ← (fun s => (Fitz.open (fs s) pdf_path, s));
  set_extracted [];;
  for_each (range (Fitz.page_count doc)) (fun page_num =>
    images ← lift (Fitz.get_page_images doc page_num);
    for_each (enumerate images) (fun '(idx, img) =>
      let xref := Fitz.xref img in
      let base := Fitz.extract_image doc xref in
      data ← lift (Fitz.getitem base "image");
      let name := item_name page_num idx in
      item ← lift (new_ImageItem data name);
      modify (fun s => mkState (fs s) (container s ++ [item])
                               (extracted s ++ [item])
                               (_save_popup s) (ui s)))).

(** The tile [extract_images] builds for the image at one position of the
    document, or the exception that building it raises. *)
Definition item_result (doc : Fitz.Document)
    (x : nat * nat * Fitz.image_entry) : result ImageItem :=
  let '(page_num, idx, img) := x in
  match Fitz.getitem (Fitz.extract_image doc (Fitz.xref img)) "image" with
  | Raise e => Raise e
  | Ok data => new_ImageItem data (item_name page_num idx)
  end.


(** [PDFExtractor.save_images] *)
Definition save_images : M state unit :=
  show (PopupOpen "Save Location" "");;
  set_save_popup (Some "Save Location").

(** [PDFExtractor._do_save] *)
Definition _do_save (folder : string) : M state unit :=
  exists_ ← gets (fun s => Os.os_path_exists (fs s) folder);
  (if negb exists_ then with_fs (fun fs => Os.os_makedirs fs folder false)
   else mret tt);;
  extracted_ ← gets extracted;
  count ← for_fold extracted_ 0 (fun count item =>
    if active (checkbox item) then
      with_fs (fun fs =>
        Os.open_wb_write fs (Os.os_path_join folder (name item))
                         (img_data item));;
      mret (count + 1)
    else mret count);
  popup ← gets _save_popup;
  match popup with
  | None => raise (AttributeError "_save_popup")
  | Some title =>
      show (PopupDismiss title);;
      show (PopupOpen "Done" ("Saved " +:+ str_of_nat count +:+ " image(s)."))
  end.

(** The tiles whose checkbox is active. *)
Definition selection (s : state) : list ImageItem :=
  filter (fun it => active (checkbox it) = true) (extracted s).

(** What the export reads of a tile: its file name and its bytes. *)
Definition named (it : ImageItem) : string * bytes := (name it, img_data it).

(** The user ticking or clearing the checkbox of the [i]-th tile. *)
Definition toggle (i : nat) (s : state) : state :=
  match extracted s !! i with
  | None => s
  | Some it =>
      let it' := mkItem (img_data it) (name it)
                        (mkCheckBox (negb (active (checkbox it))))
                        (texture it) in
      mkState (fs s) (<[i := it']> (container s)) (<[i := it']> (extracted s))
              (_save_popup s) (ui s)
  end.

End WithLibraries.

End Kivy.

(** ** [extractor_pro.py] (PyQt5) *)

Module Pro.

Record QCheckBox := mkCheckBox { text : string; isChecked : bool }.

Record Settings := mkSettings {
  pattern : string;
  outdir : string;
  quality : nat
}.

(** The tile of one image in the grid: position, pixmap, checkbox label. *)
Record Frame := mkFrame {
  row : nat;
  col : nat;
  pixmap : bytes;
  label : string
}.

(** The [MainApp] window, and the file system it works on. *)
Record state := mkState {
  fs : Os.FS;
  thumbs : list (QCheckBox * bytes);
  grid : list Frame;
  btnExport_enabled : bool;
  progress_maximum : nat;
  progress_value : nat;
  logView : list string;
  settings : Settings
}.

(** [MainApp._init_ui]: the settings a new window starts with. *)
Definition default_pattern : string := "img_P{page}_I{idx}.png".

(** The file name the default pattern renders for a page and an index. *)
Definition default_file_name (page idx : nat) : string :=
  "img_P" +:+ str_of_nat page +:+ "_I" +:+ str_of_nat idx +:+ ".png".

Definition init_settings (home : string) : Settings :=
  mkSettings default_pattern home 90.

Definition init_state (fs0 : Os.FS) (home : string) : state :=
  mkState fs0 [] [] false 100 0 [] (init_settings home).

Definition _log (msg : string) : M state unit :=
  modify (fun s => mkState (fs s) (thumbs s) (grid s) (btnExport_enabled s)
                           (progress_maximum s) (progress_value s)
                           (logView s ++ [msg]) (settings s)).

Definition set_progress (maximum value : nat) : M state unit :=
  modify (fun s => mkState (fs s) (thumbs s) (grid s) (btnExport_enabled s)
                           maximum value (logView s) (settings s)).

Definition with_fs (op : Os.FS -> result Os.FS) : M state unit :=
  fun s => match op (fs s) with
           | Ok fs' => (Ok tt, mkState fs' (thumbs s) (grid s)
                                       (btnExport_enabled s)
                                       (progress_maximum s) (progress_value s)
                                       (logView s) (settings s))
           | Raise e => (Raise e, s)
           end.

Abbreviation record := (nat * nat * bytes)%type.

(** The signals of [ExtractThread]. *)
Inductive signal :=
| progressChanged (cur tot : nat)
| finished (images : list record).

Section WithLibraries.
Context `{Fitz.Parser} `{Pil.Imaging}.

(** [ExtractThread.run]: the state of the thread is the signals it has
    emitted so far; it reads the file system [fs0]. *)
Definition emit (sg : signal) : M (list signal) unit :=
  modify (fun sigs => sigs ++ [sg]).

Definition run (fs0 : Os.FS) (pdf_path : string) : M (list signal) unit :=
  doc ← lift (Fitz.open fs0 pdf_path);
  let total_pages := Fitz.page_count doc in
  images ← for_fold (range total_pages) [] (fun images page_number =>
    pixlist ← lift (Fitz.get_page_images doc page_number);
    images ← for_fold (enumerate pixlist) images (fun images '(idx, img) =>
      let xref := Fitz.xref img in
      let base := Fitz.extract_image doc xref in
      data ← lift (Fitz.getitem base "image");
      mret (images ++ [(page_number + 1, idx + 1, data)]));
    emit (progressChanged (page_number + 1) total_pages);;
    mret images);
  emit (finished images).

(** [MainApp._bytes_to_pixmap] *)
Definition _bytes_to_pixmap (data_bytes : bytes) : result bytes :=
  match Pil.Image_open data_bytes with
  | Raise e => Raise e
  | Ok img => Ok (Pil.save_png img)
  end.

Definition checkbox_text (page idx : nat) : string :=
  "P" +:+ str_of_nat page +:+ "-I" +:+ str_of_nat idx.

(** [MainApp.display_thumbs]; scaling the pixmap for display is Qt's. *)
Definition display_thumbs (images : list record) : M state unit :=
  modify (fun s => mkState (fs s) [] [] (btnExport_enabled s)
                           (progress_maximum s) (progress_value s)
                           (logView s) (settings s));;
  for_fold images (0, 0) (fun '(row, col) '(page, idx, data) =>
    pix ← lift (_bytes_to_pixmap data);
    let chk := mkCheckBox (checkbox_text page idx) false in
    modify (fun s =>
      mkState (fs s) (thumbs s ++ [(chk, data)])
              (grid s ++ [mkFrame row col pix (text chk)])
              (btnExport_enabled s) (progress_maximum s) (progress_value s)
              (logView s) (settings s));;
    let col := col + 1 in
    if 3 <? col then mret (row + 1, 0) else mret (row, col));;
  modify (fun s => mkState (fs s) (thumbs s) (grid s) true
                           (progress_maximum s) (progress_value s)
                           (logView s) (settings s));;
  n ← gets (fun s => length (thumbs s));
  _log ("Displayed " +:+ str_of_nat n +:+ " thumbnails").

(** The slots [load_pdf] connects to the thread's signals. *)
Definition deliver (sg : signal) : M state unit :=
  match sg with
  | progressChanged cur tot =>
      modify (fun s => mkState (fs s) (thumbs s) (grid s)
                               (btnExport_enabled s) (progress_maximum s)
                               (cur * 100 / tot) (logView s) (settings s))
  | finished images => display_thumbs images
  end.

(** [chk.text().split('-')[k][1:]] *)
Definition label_part (chk : QCheckBox) (k : nat) : result string :=
  match index (split_on "-" (text chk)) k with
  | Raise e => Raise e
  | Ok part => Ok (slice_from_1 part)
  end.

(** The file name [export_selected] renders for a checkbox:
    [pattern.format(page=chk.text().split('-')[0][1:],
                    idx=chk.text().split('-')[1][1:])] *)
Definition rendered (pat : string) (chk : QCheckBox) : result string :=
  match label_part chk 0 with
  | Raise e => Raise e
  | Ok page =>
      match label_part chk 1 with
      | Raise e => Raise e
      | Ok idx => str_format pat {[ "page" := page; "idx" := idx ]}
      end
  end.

(** What the export reads of a tile: the file name it renders, empty when
    rendering raises, and the bytes. *)
Definition named (pat : string) (t : QCheckBox * bytes) : string * bytes :=
  (match rendered pat t.1 with Ok n => n | Raise _ => EmptyString end, t.2).

(** The tile [display_thumbs] makes of a record. *)
Definition thumb_of (r : record) : QCheckBox * bytes :=
  (mkCheckBox (checkbox_text r.1.1 r.1.2) false, r.2).

(** [self.grid.addWidget(frame, row, col); self.thumbs.append((chk, data))]
    for a run of tiles. *)
Definition with_tiles (ts : list (QCheckBox * bytes)) (g : list Frame)
    (s : state) : state :=
  mkState (fs s) (thumbs s ++ ts) (grid s ++ g) (btnExport_enabled s)
          (progress_maximum s) (progress_value s) (logView s) (settings s).

(** The tiles whose checkbox is ticked. *)
Definition selection (s : state) : list (QCheckBox * bytes) :=
  filter (fun t => isChecked t.1 = true) (thumbs s).

(** [MainApp.export_selected], with the directory the dialog returned. *)
Definition export_selected (out : string) : M state unit :=
  if str_empty out then mret tt
  else
    _log ("Exporting to " +:+ out);;
    thumbs_ ← gets thumbs;
    let total := length (filter (fun '(chk, _) => isChecked chk = true)
                                thumbs_) in
    cur ← gets progress_value;
    set_progress total cur;;
    count ← for_fold thumbs_ 0 (fun count '(chk, data) =>
      if negb (isChecked chk) then mret count
      else
        page ← lift (label_part chk 0);
        idx ← lift (label_part chk 1);
        pat ← gets (fun s => pattern (settings s));
        fname ← lift (str_format pat {[ "page" := page; "idx" := idx ]});
        let path := Os.os_path_join out fname in
        with_fs (fun fs => Os.open_wb_write fs path data);;
        let count := count + 1 in
        set_progress total count;;
        mret count);
    _log ("Exported " +:+ str_of_nat count +:+ "/" +:+ str_of_nat total
          +:+ " images").

(** The user ticking or clearing the checkbox of the [i]-th tile. *)
Definition toggle (i : nat) (s : state) : state :=
  match thumbs s !! i with
  | None => s
  | Some (chk, data) =>
      mkState (fs s)
              (<[i := (mkCheckBox (text chk) (negb (isChecked chk)), data)]>
                 (thumbs s))
              (grid s) (btnExport_enabled s) (progress_maximum s)
              (progress_value s) (logView s) (settings s)
  end.

(** [MainApp.open_settings], with the values the accepted dialog holds. *)
Definition open_settings (accepted : option Settings) : M state unit :=
  match accepted with
  | None => mret tt
  | Some new =>
      modify (fun s => mkState (fs s) (thumbs s) (grid s)
                               (btnExport_enabled s) (progress_maximum s)
                               (progress_value s) (logView s) new);;
      _log "Settings updated"
  end.

End WithLibraries.

End Pro.

(** ** Sample documents, codecs and disks

    Small instances of the library interfaces and of the file system, for
    the examples: a codec that decodes what starts with the PNG signature,
    a parser that knows five files. *)

Module Sample.
Import Byte.

Definition png (body : bytes) : bytes := [x89; x50; x4e; x47] ++ body.

(** The start of a JBIG2 stream, which Pillow does not decode. *)
Definition jbig2 : bytes := [x97; x4a; x42; x32; x0d; x0a; x1a; x0a].

Definition imaging : Pil.Imaging :=
  Pil.mkImaging
    (fun b => match b with
              | x89 :: x50 :: x4e :: x47 :: body =>
                  Some (Pil.mkImage (length body, 1) body)
              | _ => None
              end)
    (fun im max_size =>
       Pil.mkImage (Nat.min (Pil.size im).1 max_size.1,
                    Nat.min (Pil.size im).2 max_size.2)
                   (take max_size.1 (Pil.pixels im)))
    (fun im => png (Pil.pixels im)).

Definition entry (x : nat) : Fitz.image_entry := Fitz.mkEntry x 0 1 1 "Im".

(** Three pages with 2, 0 and 1 images. *)
Definition doc_three_pages : Fitz.Document :=
  Fitz.mkDoc [[entry 10; entry 11]; []; [entry 12]]
             {[ 10 := png [x01]; 11 := png [x02]; 12 := png [x03] ]}.

(** One page, one image in a codec Pillow does not decode. *)
Definition doc_jbig2 : Fitz.Document :=
  Fitz.mkDoc [[entry 10]] {[ 10 := jbig2 ]}.

(** Two pages, the first without images. *)
Definition doc_blank_first : Fitz.Document :=
  Fitz.mkDoc [[]; [entry 10]] {[ 10 := png [x01] ]}.

(** Two pages, no image. *)
Definition doc_no_images : Fitz.Document := Fitz.mkDoc [[]; []] ∅.

(** One page with three images, the second in a codec Pillow does not
    decode. *)
Definition doc_mixed : Fitz.Document :=
  Fitz.mkDoc [[entry 10; entry 11; entry 12]]
             {[ 10 := png [x01]; 11 := jbig2; 12 := png [x03] ]}.

Definition pdf (tag : Byte.byte) : bytes := [x25; x50; x44; x46; tag].

Definition parser : Fitz.Parser :=
  fun b => match b with
           | [x25; x50; x44; x46; x01] => Some doc_three_pages
           | [x25; x50; x44; x46; x02] => Some doc_jbig2
           | [x25; x50; x44; x46; x03] => Some doc_blank_first
           | [x25; x50; x44; x46; x04] => Some doc_no_images
           | [x25; x50; x44; x46; x05] => Some doc_mixed
           | _ => None
           end.

(** A disk with the five files and a directory [out]. *)
Definition files : gmap (list string) Os.node :=
  {[ ["three.pdf"] := Os.File (pdf x01);
     ["jbig2.pdf"] := Os.File (pdf x02);
     ["blank.pdf"] := Os.File (pdf x03);
     ["empty.pdf"] := Os.File (pdf x04);
     ["mixed.pdf"] := Os.File (pdf x05);
     ["out"] := Os.Dir ]}.

Definition disk : Os.FS := Os.mkFS files ∅.

(** The same disk, on which [out/img_p1_i2.png], [out/p1_i2.png] and
    [out/img_P1_I2.png] may not be written. *)
Definition disk_denied : Os.FS :=
  Os.mkFS files {[ ["out"; "img_p1_i2.png"]; ["out"; "p1_i2.png"];
                   ["out"; "img_P1_I2.png"] ]}.

(** The events of one run of [extract_images_gui.py]: load [three.pdf]
    with output folder [out], tick every checkbox, press Download. *)
Definition all_ticked : gmap string bool :=
  {[ "-CHK0-" := true; "-CHK1-" := true; "-CHK2-" := true ]}.


Definition load_then_download : list Gui.event :=
  [Gui.mkEvent (Some "Load") {[ "-PDF-" := "three.pdf"; "-OUT-" := "out" ]} ∅;
   Gui.mkEvent (Some "Download") ∅ all_ticked].

(** [extractor_pro.py] showing the session of the three-page document,
    with the pattern set to [image.png] in the settings dialog and the
    first two tiles ticked. *)
Definition pro_one_name : Pro.state :=
  Pro.toggle 0 (Pro.toggle 1
    ((Pro.display_thumbs (H0 := imaging) (Session.records doc_three_pages)
      ≫= fun _ => Pro.open_settings
                    (Some (Pro.mkSettings "image.png" "/home/user" 90)))
       (Pro.init_state disk "/home/user")).2).

(** [main.py] showing the session of the three-page document, the second
    tile ticked and the Save Location popup open. *)
Definition kivy_second_ticked : Kivy.state :=
  (Kivy.save_images
     (Kivy.toggle 1
        (Kivy.extract_images (H := parser) (H0 := imaging) "three.pdf"
           (Kivy.mkState disk [] [] None [])).2)).2.

(** [extractor_pro.py] showing the same session with its settings as they
    start, the second tile ticked. *)
Definition pro_second_ticked : Pro.state :=
  Pro.toggle 1
    (Pro.display_thumbs (H0 := imaging) (Session.records doc_three_pages)
       (Pro.init_state disk "/home/user")).2.

End Sample.

(** * Properties *)

(** ** Strings *)

#[local] Arguments String.append !_ _ / : simpl nomatch.

Section Strings.

Lemma to_uint_not_nil n : Nat.to_uint n ≠ Nil.
Proof.
  intros E. pose proof (Unsigned.of_to n) as Hn. rewrite E in Hn.
  cbn in Hn. subst n. discriminate E.
Qed.

Lemma str_of_nat_alt n : str_of_nat n = NilEmpty.string_of_uint (Nat.to_uint n).
Proof.
  unfold str_of_nat, NilZero.string_of_uint.
  pose proof (to_uint_not_nil n). by destruct (Nat.to_uint n).
Qed.

Lemma str_of_nat_inj n m : str_of_nat n = str_of_nat m → n = m.
Proof.
  rewrite !str_of_nat_alt. intros E. apply Unsigned.to_uint_inj.
  apply (f_equal NilEmpty.uint_of_string) in E.
  rewrite !NilEmpty.usu in E. congruence.
Qed.

Lemma str_forall_app P a b :
  str_forall P (a +:+ b) = str_forall P a && str_forall P b.
Proof. induction a as [|c a IH]; simpl; [done|]. rewrite IH. by destruct (P c). Qed.

Lemma str_forall_impl (P Q : ascii → bool) s :
  (∀ c, P c = true → Q c = true) →
  str_forall P s = true → str_forall Q s = true.
Proof.
  intros HPQ. induction s as [|c s IH]; simpl; [done|].
  intros [Hc Hs]%andb_true_iff. rewrite (HPQ _ Hc). simpl. auto.
Qed.

Lemma string_of_uint_digits d :
  str_forall is_digit (NilEmpty.string_of_uint d) = true.
Proof. induction d; simpl; auto. Qed.

Lemma str_of_nat_digits n : str_forall is_digit (str_of_nat n) = true.
Proof. rewrite str_of_nat_alt. apply string_of_uint_digits. Qed.

Lemma str_of_nat_nonempty n : str_of_nat n ≠ EmptyString.
Proof.
  rewrite str_of_nat_alt. pose proof (to_uint_not_nil n).
  by destruct (Nat.to_uint n).
Qed.

Lemma digits_app_inj d1 d2 r1 r2 :
  str_forall is_digit d1 = true → str_forall is_digit d2 = true →
  nondigit_head r1 → nondigit_head r2 →
  d1 +:+ r1 = d2 +:+ r2 → d1 = d2 ∧ r1 = r2.
Proof.
  revert d2. induction d1 as [|c d1 IH]; intros [|c' d2];
    cbn [str_forall String.append].
  - done.
  - intros _ [Hc _]%andb_true_iff Hr1 _ ->. cbn [nondigit_head] in Hr1.
    congruence.
  - intros [Hc _]%andb_true_iff _ _ Hr2 <-. cbn [nondigit_head] in Hr2.
    congruence.
  - intros [_ H1]%andb_true_iff [_ H2]%andb_true_iff Hr1 Hr2 [= -> E].
    destruct (IH d2 H1 H2 Hr1 Hr2 E) as [-> ->]. done.
Qed.

Lemma split_on_nonempty c s : split_on c s ≠ [].
Proof.
  destruct s as [|a s]; simpl; [done|].
  destruct (Ascii.eqb a c); [done|]. by destruct (split_on c s).
Qed.

Lemma split_on_app c a b :
  split_on c (a +:+ String c b) = split_on c a ++ split_on c b.
Proof.
  induction a as [|x a IH]; simpl.
  - by rewrite Ascii.eqb_refl.
  - destruct (Ascii.eqb x c); [by rewrite IH|].
    rewrite IH. pose proof (split_on_nonempty c a).
    by destruct (split_on c a).
Qed.

Lemma split_on_lacks c s : lacks c s = true → split_on c s = [s].
Proof.
  unfold lacks. induction s as [|a s IH]; simpl; [done|].
  intros [Ha Hs]%andb_true_iff. apply negb_true_iff in Ha. rewrite Ha.
  by rewrite (IH Hs).
Qed.

Lemma digits_lack c s :
  is_digit c = false → str_forall is_digit s = true → lacks c s = true.
Proof.
  intros Hc. apply str_forall_impl. intros x Hx.
  apply negb_true_iff, Ascii.eqb_neq. intros ->. congruence.
Qed.

Lemma endswith_inv c s :
  endswith c s = true → ∃ s0, s = s0 +:+ String c EmptyString.
Proof.
  induction s as [|a s IH]; simpl; [done|].
  destruct s as [|b s].
  - intros ->%Ascii.eqb_eq. by exists EmptyString.
  - intros [s0 ->]%IH. by exists (String a s0).
Qed.

Lemma app_assoc_str a b c : (a +:+ b) +:+ c = a +:+ (b +:+ c).
Proof. induction a as [|x a IH]; simpl; [done|]. by rewrite IH. Qed.

Lemma app_empty_r_str a : a +:+ EmptyString = a.
Proof. induction a as [|x a IH]; simpl; [done|]. by rewrite IH. Qed.

Lemma resolve_plain n : Os.plain_name n → Os.resolve n = [n].
Proof.
  intros (Hl & H1 & H2). unfold Os.resolve. rewrite (split_on_lacks _ _ Hl).
  rewrite filter_cons_True; done.
Qed.

Lemma resolve_sep a b :
  Os.resolve (a +:+ String "/" b) = Os.resolve a ++ Os.resolve b.
Proof. unfold Os.resolve. by rewrite split_on_app, filter_app. Qed.

Lemma resolve_join out n :
  Os.plain_name n →
  Os.resolve (Os.os_path_join out n) = Os.resolve out ++ [n].
Proof.
  intros Hn. pose proof (resolve_plain n Hn) as Hr.
  destruct Hn as (Hl & H1 & H2). unfold Os.os_path_join.
  assert (startswith "/" n = false) as ->.
  { destruct n as [|x n]; [done|]. simpl in *. unfold lacks in Hl. simpl in Hl.
    apply andb_true_iff in Hl as [Hx _]. by apply negb_true_iff in Hx. }
  destruct out as [|o out].
  { change (Os.resolve n = [] ++ [n]). by rewrite Hr. }
  change (str_empty (String o out)) with false. cbn [orb].
  destruct (endswith "/" (String o out)) eqn:He.
  - apply endswith_inv in He as [s0 ->].
    rewrite app_assoc_str.
    change (String "/" EmptyString +:+ n) with (String "/" n).
    rewrite !resolve_sep, Hr.
    change (Os.resolve EmptyString) with (@nil string).
    by rewrite app_nil_r.
  - change (String o out +:+ "/" +:+ n) with (String o out +:+ String "/" n).
    by rewrite resolve_sep, Hr.
Qed.

End Strings.

(** ** The state/exception monad and its loops *)

Section Loops.
Context {S A B : Type}.
Implicit Types (body : B → A → M S B) (s : S).

Lemma bind_run {X Y} (c : M S X) (k : X → M S Y) s :
  (c ≫= k) s = match c s with
               | (Ok a, s') => k a s'
               | (Raise e, s') => (Raise e, s')
               end.
Proof. reflexivity. Qed.

Lemma for_fold_nil acc body s : for_fold [] acc body s = (Ok acc, s).
Proof. reflexivity. Qed.

Lemma for_fold_cons x l acc body s :
  for_fold (x :: l) acc body s =
  match body acc x s with
  | (Ok acc', s') => for_fold l acc' body s'
  | (Raise e, s') => (Raise e, s')
  end.
Proof. reflexivity. Qed.

Lemma for_fold_app l1 l2 acc body s :
  for_fold (l1 ++ l2) acc body s =
  match for_fold l1 acc body s with
  | (Ok acc', s') => for_fold l2 acc' body s'
  | (Raise e, s') => (Raise e, s')
  end.
Proof.
  revert acc s. induction l1 as [|x l1 IH]; intros acc s; [done|].
  rewrite <- app_comm_cons, !for_fold_cons.
  destruct (body acc x s) as [[acc'|e] s']; [apply IH|done].
Qed.

(** A loop stops at the first iteration that raises, in the state that
    iteration left. *)
Lemma for_fold_raise l1 x l2 acc body s acc1 s1 e s' :
  for_fold l1 acc body s = (Ok acc1, s1) →
  body acc1 x s1 = (Raise e, s') →
  for_fold (l1 ++ x :: l2) acc body s = (Raise e, s').
Proof.
  intros H1 Hx. rewrite for_fold_app, H1, for_fold_cons, Hx. done.
Qed.

(** What every iteration preserves, however it ends, the loop preserves. *)
Lemma for_fold_preserves (P : S → Prop) l acc body s :
  (∀ a x s0, P s0 → P (body a x s0).2) →
  P s → P (for_fold l acc body s).2.
Proof.
  intros Hbody. revert acc s. induction l as [|x l IH]; intros acc s Hs; [done|].
  rewrite for_fold_cons. specialize (Hbody acc x s Hs).
  destruct (body acc x s) as [[acc'|e] s']; simpl in *; auto.
Qed.

End Loops.

Lemma for_each_preserves {S A} (P : S → Prop) (l : list A)
    (body : A → M S unit) s :
  (∀ x s0, P s0 → P (body x s0).2) →
  P s → P (for_each l body s).2.
Proof.
  intros Hbody. revert s. induction l as [|x l IH]; intros s Hs; [done|].
  simpl. unfold bind. specialize (Hbody x s Hs).
  destruct (body x s) as [[[]|e] s']; simpl in *; auto.
Qed.

(** ** The file system *)

Module OsFacts.
Import Os.

Lemma parent_snoc p x : parent (p ++ [x]) = p.
Proof. apply removelast_last. Qed.


Lemma lookup_node_insert fs p n q :
  p ≠ [] →
  lookup_node (mkFS (<[p := n]> (nodes fs)) (denied fs)) q =
  if decide (p = q) then Some n else lookup_node fs q.
Proof.
  intros Hp. unfold lookup_node; simpl. destruct q as [|x q].
  - by rewrite decide_False.
  - by rewrite lookup_insert.
Qed.

Lemma write_path_ok fs p d fs' :
  write_path fs p d = Ok fs' →
  p ≠ [] ∧ lookup_node fs (parent p) = Some Dir ∧
  lookup_node fs p ≠ Some Dir ∧ (p ∉ denied fs) ∧
  fs' = mkFS (<[p := File d]> (nodes fs)) (denied fs).
Proof.
  unfold write_path. destruct p as [|x p]; [done|].
  destruct (lookup_node fs (parent (x :: p))) as [[|?]|]; try done.
  destruct (lookup_node fs (x :: p)) as [[|?]|] eqn:E; try done;
    case_decide; try done; intros [= <-]; done.
Qed.

Lemma write_path_file fs p d fs' :
  write_path fs p d = Ok fs' → file_at fs' p = Some d.
Proof.
  intros (Hp & _ & _ & _ & ->)%write_path_ok. unfold file_at.
  rewrite lookup_node_insert by done. by rewrite decide_True.
Qed.

Lemma write_path_other fs p d fs' q :
  write_path fs p d = Ok fs' → q ≠ p → lookup_node fs' q = lookup_node fs q.
Proof.
  intros (Hp & _ & _ & _ & ->)%write_path_ok Hq.
  rewrite lookup_node_insert by done. by rewrite decide_False.
Qed.

Lemma write_path_isdir fs p d fs' q :
  write_path fs p d = Ok fs' → path_isdir fs' q = path_isdir fs q.
Proof.
  intros Hw. unfold path_isdir. destruct (decide (q = p)) as [->|Hq].
  - pose proof (write_path_file _ _ _ _ Hw) as Hf. unfold file_at in Hf.
    apply write_path_ok in Hw as (_ & _ & Hnd & _).
    destruct (lookup_node fs' p) as [[|?]|]; try done.
    by destruct (lookup_node fs p) as [[|?]|].
  - by rewrite (write_path_other _ _ _ _ _ Hw Hq).
Qed.

Lemma write_all_isdir fs ws fs' q :
  write_all fs ws = Ok fs' → path_isdir fs' q = path_isdir fs q.
Proof.
  revert fs. induction ws as [|[p d] ws IH]; intros fs; simpl.
  - by intros [= ->].
  - destruct (write_path fs p d) as [fs1|e] eqn:E; [|done].
    intros Hw. rewrite (IH _ Hw). by eapply write_path_isdir.
Qed.

Lemma write_all_other fs ws fs' q :
  write_all fs ws = Ok fs' → q ∉ ws.*1 →
  lookup_node fs' q = lookup_node fs q.
Proof.
  revert fs. induction ws as [|[p d] ws IH]; intros fs; simpl.
  - by intros [= ->].
  - destruct (write_path fs p d) as [fs1|e] eqn:E; [|done].
    intros Hw Hq. apply not_elem_of_cons in Hq as [Hqp Hq].
    rewrite (IH _ Hw Hq). by eapply write_path_other.
Qed.

(** With pairwise distinct targets every file holds exactly the bytes
    written to it. *)
Lemma write_all_file fs ws fs' p d :
  write_all fs ws = Ok fs' → NoDup ws.*1 → (p, d) ∈ ws →
  file_at fs' p = Some d.
Proof.
  revert fs. induction ws as [|[p0 d0] ws IH]; intros fs; simpl.
  - intros _ _ Hin. by apply elem_of_nil in Hin.
  - destruct (write_path fs p0 d0) as [fs1|e] eqn:E; [|done].
    intros Hw [Hnotin Hnd]%NoDup_cons [[= -> ->]|Hin]%elem_of_cons.
    + unfold file_at. rewrite (write_all_other _ _ _ _ Hw Hnotin).
      by apply write_path_file in E.
    + by eapply IH.
Qed.

Lemma write_all_app fs ws1 ws2 :
  write_all fs (ws1 ++ ws2) =
  match write_all fs ws1 with
  | Ok fs1 => write_all fs1 ws2
  | Raise e => Raise e
  end.
Proof.
  revert fs. induction ws1 as [|[p d] ws1 IH]; intros fs; simpl; [done|].
  destruct (write_path fs p d); [apply IH|done].
Qed.

(** *** Directories *)

Lemma mkdir_ok fs p fs' :
  mkdir fs p = Ok fs' →
  p ≠ [] ∧ lookup_node fs p = None ∧ lookup_node fs (parent p) = Some Dir ∧
  fs' = mkFS (<[p := Dir]> (nodes fs)) (denied fs).
Proof.
  unfold mkdir. destruct (lookup_node fs p) eqn:Ep; [done|].
  destruct p as [|x p]; [done|].
  destruct (lookup_node fs (parent (x :: p))) as [[|?]|]; try done.
  case_decide; [done|]. by intros [= <-].
Qed.


Lemma mkdir_file_at fs p fs' q :
  mkdir fs p = Ok fs' → file_at fs' q = file_at fs q.
Proof.
  intros (Hp & Hnone & _ & ->)%mkdir_ok. unfold file_at.
  rewrite lookup_node_insert by done. case_decide; [subst q|done].
  by rewrite Hnone.
Qed.

Lemma mkdir_isdir_mono fs p fs' q :
  mkdir fs p = Ok fs' → path_isdir fs q = true → path_isdir fs' q = true.
Proof.
  intros (Hp & Hnone & _ & ->)%mkdir_ok. unfold path_isdir.
  rewrite lookup_node_insert by done. case_decide; [done|]. done.
Qed.


Lemma mkdir_leaf_ok fs p ok fs' :
  mkdir_leaf fs p ok = Ok fs' →
  mkdir fs p = Ok fs' ∨ (fs' = fs ∧ path_isdir fs p = true).
Proof.
  unfold mkdir_leaf. destruct (mkdir fs p) as [fs1|e].
  - intros [= <-]. by left.
  - destruct ok; simpl; [|done].
    destruct (path_isdir fs p); simpl; [|done]. intros [= <-]. by right.
Qed.






Lemma write_path_wf fs p d fs' : fs_wf fs → write_path fs p d = Ok fs' → fs_wf fs'.
Proof.
  intros Hwf (Hp & Hpar & Hnd & _ & ->)%write_path_ok.
  intros q n Hq. simpl in Hq. rewrite lookup_node_insert by done.
  apply lookup_insert_Some in Hq as [[<- <-]|[Hne Hq]].
  - split; [done|]. case_decide; [|done].
    exfalso. destruct p as [|x p] using rev_ind; [done|].
    rewrite parent_snoc in *. apply (f_equal length) in H.
    rewrite length_app in H. simpl in H. lia.
  - destruct (Hwf q n Hq) as [Hq0 Hqp]. split; [done|].
    case_decide; [|done]. subst p. congruence.
Qed.

End OsFacts.

(** ** Sessions *)

Module SessionFacts.
Import Fitz Session.

Lemma filter_fmap_list {X Y} (f : X → Y) (P : Y → Prop)
    `{∀ y, Decision (P y)} (l : list X) :
  filter P (f <$> l) = f <$> filter (fun x => P (f x)) l.
Proof.
  induction l as [|x l IH]; [done|]. rewrite fmap_cons.
  destruct (decide (P (f x))) as [HP|HP].
  - rewrite !filter_cons_True by done. by rewrite fmap_cons, IH.
  - rewrite !filter_cons_False by done. done.
Qed.

Lemma filter_all {X} (P : X → Prop) `{∀ x, Decision (P x)} (l : list X) :
  Forall P l → filter P l = l.
Proof.
  induction 1 as [|x l Hx _ IH]; [done|].
  rewrite filter_cons_True by done. by rewrite IH.
Qed.

Lemma filter_none {X} (P : X → Prop) `{∀ x, Decision (P x)} (l : list X) :
  Forall (fun x => ¬ P x) l → filter P l = [].
Proof.
  induction 1 as [|x l Hx _ IH]; [done|]. by rewrite filter_cons_False.
Qed.

Lemma enumerate_from_length {X} k (l : list X) :
  length (enumerate_from k l) = length l.
Proof. revert k. induction l as [|x l IH]; intros k; simpl; auto. Qed.

Lemma enumerate_from_fst {X} k (l : list X) :
  (enumerate_from k l).*1 = seq k (length l).
Proof. revert k. induction l as [|x l IH]; intros k; simpl; [done|]. by rewrite IH. Qed.


Lemma enumerate_from_app {X} k (l1 l2 : list X) :
  enumerate_from k (l1 ++ l2) =
  enumerate_from k l1 ++ enumerate_from (k + length l1) l2.
Proof.
  revert k. induction l1 as [|x l1 IH]; intros k; simpl.
  - by rewrite Nat.add_0_r.
  - rewrite IH. by replace (S k + length l1) with (k + S (length l1)) by lia.
Qed.

Lemma page_entries_length p k es : length (page_entries p k es) = length es.
Proof. unfold page_entries. by rewrite length_fmap, enumerate_from_length. Qed.

Lemma page_entries_pos p k es :
  (page_entries p k es).*1 = (fun i => (p, i)) <$> seq k (length es).
Proof.
  unfold page_entries. rewrite <- enumerate_from_fst, <- !list_fmap_compose.
  apply list_fmap_ext. by intros _ [i e] _.
Qed.

Lemma page_entries_page p k es x : x ∈ page_entries p k es → x.1.1 = p.
Proof.
  unfold page_entries. intros ([i e] & -> & _)%list_elem_of_fmap. done.
Qed.

Lemma pages_entries_length p pgs :
  length (pages_entries p pgs) = sum_list (length <$> pgs).
Proof.
  revert p. induction pgs as [|pg pgs IH]; intros p; simpl; [done|].
  by rewrite length_app, page_entries_length, IH.
Qed.

Lemma pages_entries_page p pgs x :
  x ∈ pages_entries p pgs → p ≤ x.1.1 < p + length pgs.
Proof.
  revert p. induction pgs as [|pg pgs IH]; intros p; simpl.
  - by intros ?%elem_of_nil.
  - intros [Hx|Hx]%elem_of_app.
    + apply page_entries_page in Hx. lia.
    + apply IH in Hx. lia.
Qed.

(** The positions (page, index) are pairwise distinct. *)
Lemma pages_entries_NoDup p pgs : NoDup (pages_entries p pgs).*1.
Proof.
  revert p. induction pgs as [|pg pgs IH]; intros p; simpl.
  - constructor.
  - rewrite fmap_app. apply NoDup_app. split; [|split; [|apply IH]].
    + rewrite page_entries_pos. apply NoDup_fmap_2; [|apply NoDup_seq].
      by intros i j [= ->].
    + intros [q i] ([[q1 i1] e1] & [= <- <-] & H1)%list_elem_of_fmap
                   ([[q2 i2] e2] & [= -> ->] & H2)%list_elem_of_fmap.
      apply page_entries_page in H1. apply pages_entries_page in H2.
      simpl in *. lia.
Qed.

(** The pages never decrease along the session. *)
Lemma pages_entries_sorted p pgs :
  StronglySorted le ((fun x => x.1.1) <$> pages_entries p pgs).
Proof.
  revert p. induction pgs as [|pg pgs IH]; intros p; simpl.
  - constructor.
  - rewrite fmap_app. apply StronglySorted_app_2; [| | apply IH].
    + intros q1 q2 (x1 & -> & H1)%list_elem_of_fmap
                   (x2 & -> & H2)%list_elem_of_fmap.
      apply page_entries_page in H1. apply pages_entries_page in H2. lia.
    + unfold page_entries. generalize 0.
      induction pg as [|e pg IHpg]; intros k; simpl; constructor; [apply IHpg|].
      apply Forall_forall. intros q (x & -> & Hx)%list_elem_of_fmap.
      apply (page_entries_page p (S k) pg) in Hx. lia.
Qed.

(** The indices of the images of one page, in session order, are
    [0, 1, ..., n-1] for the [n] images the page lists. *)
Lemma pages_entries_indices p pgs q :
  (fun x => x.1.2) <$> filter (fun x => x.1.1 = q) (pages_entries p pgs) =
  if decide (p ≤ q) then seq 0 (length (default [] (pgs !! (q - p)))) else [].
Proof.
  revert p. induction pgs as [|pg pgs IH]; intros p; simpl.
  - by case_decide.
  - rewrite filter_app, fmap_app, IH.
    destruct (decide (q = p)) as [->|Hne].
    + rewrite Nat.sub_diag. simpl.
      rewrite (decide_True (P := p ≤ p)) by lia.
      rewrite (decide_False (P := S p ≤ p)) by lia. rewrite app_nil_r.
      rewrite filter_all.
      * change (fun x : nat * nat * image_entry => x.1.2) with
          (snd ∘ (fst : nat * nat * image_entry → nat * nat)).
        rewrite list_fmap_compose, page_entries_pos, <- list_fmap_compose.
        by rewrite list_fmap_id.
      * apply Forall_forall. intros x Hx. by apply page_entries_page in Hx.
    + rewrite filter_none.
      2:{ apply Forall_forall. intros x Hx. apply page_entries_page in Hx.
          congruence. }
      simpl. destruct (decide (p ≤ q)) as [Hle|Hle].
      * rewrite (decide_True (P := S p ≤ q)) by lia.
        replace (q - p) with (S (q - S p)) by lia. done.
      * by rewrite (decide_False (P := S p ≤ q)) by lia.
Qed.

Lemma records_length doc : length (records doc) = image_count doc.
Proof. unfold records, entries. by rewrite length_fmap, pages_entries_length. Qed.

Lemma records_NoDup doc : NoDup (records doc).*1.
Proof.
  unfold records. rewrite <- list_fmap_compose.
  rewrite (list_fmap_ext _
    ((fun pi : nat * nat => (pi.1 + 1, pi.2 + 1)) ∘
     (fst : nat * nat * image_entry → nat * nat))).
  2:{ by intros _ [[p i] e] _. }
  rewrite list_fmap_compose. apply NoDup_fmap_2; [|apply pages_entries_NoDup].
  intros [p i] [p' i'] [= ? ?]. f_equal; lia.
Qed.

Lemma records_sorted doc : StronglySorted le (page_number <$> records doc).
Proof.
  unfold records. rewrite <- list_fmap_compose.
  rewrite (list_fmap_ext _
    ((fun p => p + 1) ∘ (fun x : nat * nat * image_entry => x.1.1))).
  2:{ by intros _ [[p i] e] _. }
  rewrite list_fmap_compose.
  eapply StronglySorted_fmap; [|apply pages_entries_sorted].
  intros; simpl; lia.
Qed.

Lemma records_page_bounds doc r :
  r ∈ records doc → 1 ≤ page_number r ≤ page_count doc.
Proof.
  unfold records. intros ([[p i] e] & -> & Hx)%list_elem_of_fmap.
  apply pages_entries_page in Hx. unfold page_number, page_count. simpl in *. lia.
Qed.

Lemma records_page_indices doc q :
  image_index <$> filter (fun r => page_number r = q) (records doc) =
  if decide (1 ≤ q) then seq 1 (length (default [] (pages doc !! (q - 1))))
  else [].
Proof.
  unfold records. rewrite filter_fmap_list, <- list_fmap_compose.
  destruct (decide (1 ≤ q)) as [Hq|Hq].
  - rewrite (list_fmap_ext _
      (S ∘ (fun x : nat * nat * image_entry => x.1.2))).
    2:{ intros _ [[p i] e] _. unfold image_index. simpl. lia. }
    rewrite list_fmap_compose.
    rewrite (list_filter_iff _ (fun x => x.1.1 = q - 1)).
    2:{ intros [[p i] e]. unfold page_number. simpl. lia. }
    unfold entries. rewrite pages_entries_indices, decide_True by lia.
    by rewrite Nat.sub_0_r, fmap_S_seq.
  - rewrite filter_none; [done|].
    apply Forall_forall. intros [[p i] e] _. unfold page_number. simpl. lia.
Qed.

End SessionFacts.

(** Unfolding the monad down to functions on states. *)
Ltac run_m :=
  unfold mbind, M_bind, mret, M_ret, bind, ret, lift, gets, modify, raise;
  cbn beta iota.

(** Settling a decidable proposition by evaluating its decision. *)
Ltac by_compute :=
  match goal with
  | |- ?P => apply (bool_decide_unpack P); vm_compute; exact I
  end.

(** ** The harvest loops *)

Module HarvestFacts.
Import Fitz Session SessionFacts.

Section Generic.
Context {St : Type} (doc : Document).

Local Abbreviation resolves := (Fitz.resolves doc).

Lemma getitem_image x :
  getitem (extract_image doc x) "image" =
  match streams doc !! x with
  | Some b => Ok b
  | None => Raise (KeyError "image")
  end.
Proof.
  unfold getitem, extract_image. destruct (streams doc !! x).
  - by rewrite lookup_singleton_eq.
  - by rewrite lookup_empty.
Qed.

(** The loop over the images of one page, for any state the program
    threads through it. *)
Lemma inner_loop (body : list (nat * nat * bytes) → nat * image_entry →
                         M St (list (nat * nat * bytes))) p :
  (∀ images i e s,
     body images (i, e) s =
     (match streams doc !! xref e with
      | Some data => Ok (images ++ [(p + 1, i + 1, data)])
      | None => Raise (KeyError "image")
      end, s)) →
  ∀ es k images s,
    for_fold (enumerate_from k es) images body s =
    (if decide (Forall resolves es)
     then Ok (images ++ (record_of doc <$> page_entries p k es))
     else Raise (KeyError "image"), s).
Proof.
  intros Hbody. induction es as [|e es IH]; intros k images s.
  - cbn [enumerate_from]. rewrite for_fold_nil, decide_True by constructor.
    unfold page_entries. simpl. by rewrite app_nil_r.
  - cbn [enumerate_from]. rewrite for_fold_cons, Hbody.
    destruct (streams doc !! xref e) as [data|] eqn:Ee.
    + rewrite IH. destruct (decide (Forall resolves es)) as [Hes|Hes].
      * rewrite decide_True by (constructor; [by eexists|done]).
        unfold page_entries. cbn [enumerate_from fmap list_fmap record_of].
        replace (stream_of doc e) with data
          by (unfold stream_of; by rewrite Ee).
        by rewrite <- app_assoc.
      * rewrite decide_False; [done|]. by intros [_ ?]%Forall_cons.
    + rewrite decide_False; [done|]. intros [[? He] _]%Forall_cons.
      unfold resolves in *. congruence.
Qed.

(** The loop over the pages; [post p] is what the loop does to the state
    once page [p] is harvested. *)
Lemma outer_loop (outer : list (nat * nat * bytes) → nat →
                         M St (list (nat * nat * bytes)))
    (post : nat → St → St) :
  (∀ images p pg s, pages doc !! p = Some pg →
     outer images p s =
     if decide (Forall resolves pg)
     then (Ok (images ++ (record_of doc <$> page_entries p 0 pg)), post p s)
     else (Raise (KeyError "image"), s)) →
  ∀ rest pre images s, pages doc = pre ++ rest →
    (Forall (Forall resolves) rest →
     for_fold (seq (length pre) (length rest)) images outer s =
     (Ok (images ++ (record_of doc <$> pages_entries (length pre) rest)),
      foldl (fun s p => post p s) s (seq (length pre) (length rest)))) ∧
    (¬ Forall (Forall resolves) rest →
     ∃ s', for_fold (seq (length pre) (length rest)) images outer s =
           (Raise (KeyError "image"), s')).
Proof.
  intros Houter. induction rest as [|pg rest IH]; intros pre images s Hpages.
  - split; [|by intros []].
    intros _. simpl. by rewrite app_nil_r.
  - cbn [length seq]. rewrite for_fold_cons.
    rewrite (Houter images (length pre) pg s)
      by (rewrite Hpages; by apply list_lookup_middle).
    specialize (IH (pre ++ [pg])).
    rewrite length_app in IH. simpl in IH. rewrite Nat.add_1_r in IH.
    destruct (decide (Forall resolves pg)) as [Hpg|Hpg].
    + edestruct IH as [IHok IHbad]; [by rewrite <- app_assoc|].
      split.
      * intros [_ Hrest]%Forall_cons. rewrite (IHok Hrest).
        cbn [pages_entries foldl]. by rewrite fmap_app, <- app_assoc.
      * intros Hbad. apply IHbad. intros Hrest. apply Hbad. by constructor.
    + split; [by intros [? _]%Forall_cons|]. intros _. by eexists.
Qed.

End Generic.

Lemma foldl_id {S} (s : S) (l : list nat) : foldl (fun s _ => s) s l = s.
Proof. by induction l. Qed.

Lemma foldl_snoc {X Y} (f : X → Y) (l : list X) (acc : list Y) :
  foldl (fun acc x => acc ++ [f x]) acc l = acc ++ (f <$> l).
Proof.
  revert acc. induction l as [|x l IH]; intros acc; simpl.
  - by rewrite app_nil_r.
  - by rewrite IH, <- app_assoc.
Qed.

End HarvestFacts.

(** ** [extract_images_gui.py]: the harvester *)

Module GuiFacts.
Import Fitz Session SessionFacts HarvestFacts Gui.

Section WithLibraries.
Context `{Fitz.Parser} `{Pil.Imaging}.

Lemma extract_images_from_pdf_spec pdf s doc :
  Fitz.open (fs s) pdf = Ok doc →
  (valid doc →
   extract_images_from_pdf pdf s =
   (Ok (records doc),
    mkState (fs s)
            (log s ++ ["Opening PDF: " +:+ pdf] ++
                      ["Found " +:+ str_of_nat (length (records doc))
                                +:+ " images in PDF"])
            (ui s))) ∧
  (¬ valid doc →
   ∃ s', extract_images_from_pdf pdf s = (Raise (KeyError "image"), s')).
Proof.
  intros Hopen. unfold extract_images_from_pdf, logging_info.
  run_m. cbn [fs]. rewrite Hopen. cbn beta iota.
  match goal with
  | |- context [for_fold (range _) [] ?f ?s0] =>
      destruct (outer_loop (St := state) doc f (fun _ s => s)) with
        (rest := pages doc) (pre := @nil (list image_entry))
        (images := @nil (nat * nat * bytes)) (s := s0) as [Hok Hbad]
  end.
  { intros images p pg s0 Hpg. run_m.
    unfold get_page_images, index. rewrite Hpg.
    unfold enumerate.
    rewrite (inner_loop doc _ p); [by destruct (decide _)|].
    intros images' i e s'. run_m. rewrite getitem_image.
    by destruct (streams doc !! xref e). }
  { done. }
  unfold range, page_count. cbn [length app] in Hok, Hbad. split.
  - intros Hv. rewrite (Hok Hv). rewrite foldl_id. cbn [fs log ui].
    unfold records, entries. by rewrite <- app_assoc.
  - intros Hv. destruct (Hbad Hv) as [s' ->]. by eexists.
Qed.

End WithLibraries.

End GuiFacts.

(** ** [extractor_pro.py]: the harvester *)

Module ProFacts.
Import Fitz Session SessionFacts HarvestFacts Pro.

Section WithLibraries.
Context `{Fitz.Parser} `{Pil.Imaging}.

Lemma run_spec fs0 pdf sigs doc :
  Fitz.open fs0 pdf = Ok doc →
  (valid doc →
   run fs0 pdf sigs =
   (Ok tt,
    sigs ++ ((fun p => progressChanged (p + 1) (page_count doc))
               <$> seq 0 (page_count doc))
         ++ [finished (records doc)])) ∧
  (¬ valid doc → ∃ s', run fs0 pdf sigs = (Raise (KeyError "image"), s')).
Proof.
  intros Hopen. unfold run, emit. run_m. rewrite Hopen. cbn beta iota.
  unfold range, page_count.
  match goal with
  | |- context [for_fold (seq 0 _) [] ?f ?s0] =>
      destruct (outer_loop (St := list signal) doc f
                  (fun p sg => sg ++ [progressChanged (p + 1)
                                        (length (pages doc))]))
        with (rest := pages doc) (pre := @nil (list image_entry))
             (images := @nil (nat * nat * bytes)) (s := s0) as [Hok Hbad]
  end.
  { intros images p pg s0 Hpg. run_m.
    unfold get_page_images, index. rewrite Hpg.
    unfold enumerate.
    rewrite (inner_loop doc _ p); [by destruct (decide _)|].
    intros images' i e s'. run_m. rewrite getitem_image.
    by destruct (streams doc !! xref e). }
  { done. }
  cbn [length app] in Hok, Hbad. split.
  - intros Hv. rewrite (Hok Hv). rewrite foldl_snoc.
    unfold records, entries. by rewrite <- app_assoc.
  - intros Hv. destruct (Hbad Hv) as [s' ->]. by eexists.
Qed.

End WithLibraries.

End ProFacts.

(** ** Loops that build one value per element *)

Section UntilRaise.
Context {X Y : Type}.

Lemma until_raise_app (l1 l2 : list (result X)) :
  until_raise (l1 ++ l2) =
  match until_raise l1 with
  | (x1, Some e) => (x1, Some e)
  | (x1, None) => let '(x2, e2) := until_raise l2 in (x1 ++ x2, e2)
  end.
Proof.
  induction l1 as [|[x|e] l1 IH]; simpl.
  - by destruct (until_raise l2).
  - rewrite IH. destruct (until_raise l1) as [x1 [e1|]]; [done|].
    by destruct (until_raise l2).
  - done.
Qed.

Lemma until_raise_ok (rs : list (result X)) xs :
  until_raise rs = (xs, None) ↔ rs = Ok <$> xs.
Proof.
  revert xs. induction rs as [|[x|e] rs IH]; intros xs; simpl.
  - split; [by intros [= <-]|]. by destruct xs.
  - destruct (until_raise rs) as [xs' e'] eqn:E. split.
    + intros [= <- ->]. rewrite fmap_cons. f_equal. by apply IH.
    + destruct xs as [|x' xs]; [done|]. rewrite fmap_cons. intros [= -> Hrs].
      apply IH in Hrs. by injection Hrs as -> ->.
  - split; [done|]. by destruct xs.
Qed.


Lemma until_raise_length (rs : list (result X)) :
  length (until_raise rs).1 ≤ length rs.
Proof.
  induction rs as [|[x|e] rs IH]; simpl; [lia| |lia].
  destruct (until_raise rs). simpl in *. lia.
Qed.

End UntilRaise.

(** ** [main.py]: the harvester *)

Module KivyFacts.
Import Fitz Session SessionFacts HarvestFacts Kivy.

Section WithLibraries.
Context `{Fitz.Parser} `{Pil.Imaging}.

Lemma add_items_nil s : add_items [] s = s.
Proof. destruct s. unfold add_items. simpl. by rewrite !app_nil_r. Qed.

Lemma add_items_app l1 l2 s :
  add_items l2 (add_items l1 s) = add_items (l1 ++ l2) s.
Proof. unfold add_items. simpl. by rewrite !app_assoc. Qed.

Lemma extract_inner doc p (body : nat * image_entry → M state unit) :
  (∀ i e s,
     body (i, e) s =
     match item_result doc (p, i, e) with
     | Ok it => (Ok tt, add_items [it] s)
     | Raise ex => (Raise ex, s)
     end) →
  ∀ es k s,
    for_each (enumerate_from k es) body s =
    let '(items, ex) := until_raise (item_result doc <$> page_entries p k es) in
    (outcome ex, add_items items s).
Proof.
  intros Hbody. induction es as [|e es IH]; intros k s.
  - simpl. by rewrite add_items_nil.
  - cbn [enumerate_from for_each]. unfold bind at 1. rewrite Hbody.
    unfold page_entries. cbn [enumerate_from fmap list_fmap until_raise].
    destruct (item_result doc (p, k, e)) as [it|ex]; [|by rewrite add_items_nil].
    rewrite IH. unfold page_entries.
    destruct (until_raise _) as [items ex]. by rewrite add_items_app.
Qed.

Lemma extract_outer doc (outer : nat → M state unit) :
  (∀ p pg s, pages doc !! p = Some pg →
     outer p s =
     let '(items, ex) := until_raise (item_result doc <$> page_entries p 0 pg) in
     (outcome ex, add_items items s)) →
  ∀ rest pre s, pages doc = pre ++ rest →
    for_each (seq (length pre) (length rest)) outer s =
    let '(items, ex) :=
      until_raise (item_result doc <$> pages_entries (length pre) rest) in
    (outcome ex, add_items items s).
Proof.
  intros Houter. induction rest as [|pg rest IH]; intros pre s Hpages.
  - simpl. by rewrite add_items_nil.
  - cbn [length seq for_each pages_entries]. unfold bind at 1.
    rewrite (Houter (length pre) pg s)
      by (rewrite Hpages; by apply list_lookup_middle).
    rewrite fmap_app, until_raise_app.
    destruct (until_raise (item_result doc <$> page_entries _ 0 pg))
      as [items [ex|]]; [done|]. simpl.
    specialize (IH (pre ++ [pg])). rewrite length_app in IH. simpl in IH.
    rewrite Nat.add_1_r in IH. rewrite IH by (by rewrite <- app_assoc).
    destruct (until_raise _) as [items2 ex2]. by rewrite add_items_app.
Qed.

(** [extract_images] on a file that opens: the tiles of the images in
    document order up to the first one that cannot be built. *)
Lemma extract_images_spec pdf s doc :
  Fitz.open (fs s) pdf = Ok doc →
  extract_images pdf s =
  let '(items, ex) := until_raise (item_result doc <$> entries doc) in
  (outcome ex, mkState (fs s) items items (_save_popup s) (ui s)).
Proof.
  intros Hopen. unfold extract_images, set_container, set_extracted.
  run_m. cbn [fs]. rewrite Hopen. cbn beta iota.
  unfold range, page_count.
  match goal with
  | |- context [for_each (seq 0 _) ?f ?s0] =>
      rewrite (extract_outer doc f) with (rest := pages doc) (pre := [])
  end.
  - unfold entries. cbn [length]. by destruct (until_raise _).
  - intros p pg s0 Hpg. unfold bind, lift, get_page_images, index.
    rewrite Hpg. unfold enumerate. apply extract_inner.
    intros i e s1. unfold item_result, bind, lift.
    destruct (getitem _ _) as [data|ex]; [|done].
    by destruct (new_ImageItem data _).
  - done.
Qed.

Lemma item_result_ok doc x it :
  item_result doc x = Ok it →
  name it = item_name x.1.1 x.1.2 ∧ img_data it = stream_of doc x.2 ∧
  active (checkbox it) = false ∧ resolves doc x.2 ∧
  Pil.decodable (img_data it).
Proof.
  destruct x as [[p i] e]. unfold item_result. rewrite getitem_image.
  unfold stream_of, resolves, Pil.decodable. simpl.
  destruct (streams doc !! xref e) as [data|]; [|done].
  unfold new_ImageItem, _get_texture, Pil.Image_open.
  destruct (Pil.decode data) eqn:Ed; [|done].
  intros [= <-]. simpl. rewrite Ed. eauto.
Qed.



(** What [extract_images] leaves in [extracted] when it returns. *)
Lemma extract_images_ok pdf s doc s' :
  Fitz.open (fs s) pdf = Ok doc →
  extract_images pdf s = (Ok tt, s') →
  item_result doc <$> entries doc = Ok <$> extracted s' ∧
  fs s' = fs s.
Proof.
  intros Hopen. rewrite (extract_images_spec _ _ _ Hopen).
  destruct (until_raise _) as [items [ex|]] eqn:E; [done|].
  intros [= <-]. simpl. split; [|done]. by apply until_raise_ok.
Qed.

End WithLibraries.

End KivyFacts.



Lemma no_images doc :
  Fitz.image_count doc = 0 → Fitz.valid doc ∧ Session.records doc = [].
Proof.
  intros H0. split.
  - unfold Fitz.valid, Fitz.image_count in *.
    induction (Fitz.pages doc) as [|pg pgs IH]; [constructor|].
    rewrite fmap_cons in H0. simpl in H0. constructor; [|apply IH; lia].
    destruct pg; [constructor|simpl in H0; lia].
  - apply nil_length_inv. by rewrite SessionFacts.records_length.
Qed.

Lemma gui_extract_inv `{Fitz.Parser} pdf s doc images s' :
  Fitz.open (Gui.fs s) pdf = Ok doc →
  Gui.extract_images_from_pdf pdf s = (Ok images, s') →
  Fitz.valid doc ∧ images = Session.records doc ∧ Gui.fs s' = Gui.fs s ∧
  Gui.ui s' = Gui.ui s.
Proof.
  intros Hopen Hrun.
  destruct (GuiFacts.extract_images_from_pdf_spec pdf s doc Hopen) as [Hok Hbad].
  destruct (decide (Fitz.valid doc)) as [Hv|Hv].
  - rewrite (Hok Hv) in Hrun. by injection Hrun as <- <-.
  - destruct (Hbad Hv) as [s1 Hs1]. congruence.
Qed.

Lemma pro_run_inv `{Fitz.Parser} fs0 pdf sigs doc sigs' images :
  Fitz.open fs0 pdf = Ok doc →
  Pro.run fs0 pdf sigs = (Ok tt, sigs') →
  last sigs' = Some (Pro.finished images) →
  Fitz.valid doc ∧ images = Session.records doc.
Proof.
  intros Hopen Hrun Hlast.
  destruct (ProFacts.run_spec fs0 pdf sigs doc Hopen) as [Hok Hbad].
  destruct (decide (Fitz.valid doc)) as [Hv|Hv].
  - rewrite (Hok Hv) in Hrun. injection Hrun as <-.
    rewrite !app_assoc, last_snoc in Hlast. by injection Hlast as <-.
  - destruct (Hbad Hv) as [s1 Hs1]. congruence.
Qed.

(** ** File names *)

Section Names.

Lemma names_inj pre c mid d suf p i p' i' :
  is_digit c = false → is_digit d = false →
  pre +:+ str_of_nat p +:+ String c mid +:+ str_of_nat i +:+ String d suf =
  pre +:+ str_of_nat p' +:+ String c mid +:+ str_of_nat i' +:+ String d suf →
  p = p' ∧ i = i'.
Proof.
  intros Hc Hd E. apply String.app_inj in E.
  apply digits_app_inj in E as [Ep E];
    [|apply str_of_nat_digits..|exact Hc|exact Hc].
  apply String.app_inj in E.
  apply digits_app_inj in E as [Ei _];
    [|apply str_of_nat_digits..|exact Hd|exact Hd].
  split; by apply str_of_nat_inj.
Qed.

Lemma lacks_app c a b : lacks c (a +:+ b) = lacks c a && lacks c b.
Proof. apply str_forall_app. Qed.

Lemma lacks_cons c a s :
  lacks c (String a s) = negb (Ascii.eqb a c) && lacks c s.
Proof. reflexivity. Qed.

Lemma lacks_str_of_nat c n : is_digit c = false → lacks c (str_of_nat n) = true.
Proof. intros Hc. apply digits_lack; [done|apply str_of_nat_digits]. Qed.

Lemma plain_names pre mid suf p i a :
  lacks "/" pre = true → lacks "/" mid = true → lacks "/" suf = true →
  Os.plain_name
    (String a pre +:+ str_of_nat p +:+ mid +:+ str_of_nat i +:+ suf) ∨
  a = "/"%char ∨ a = "."%char.
Proof.
  intros Hpre Hmid Hsuf.
  destruct (Ascii.eqb_spec a "/") as [->|Hs]; [by right; left|].
  destruct (Ascii.eqb_spec a ".") as [->|Hd]; [by right; right|].
  left. split; [|split].
  - change (String a pre +:+ ?r) with (String a (pre +:+ r)).
    rewrite lacks_cons. apply andb_true_iff. split.
    + by apply negb_true_iff, Ascii.eqb_neq.
    + rewrite !lacks_app, Hpre, Hmid, Hsuf, !lacks_str_of_nat by done. done.
  - done.
  - intros [= ? _]. done.
Qed.

Lemma gui_file_name_inj p i p' i' :
  Gui.file_name p i = Gui.file_name p' i' → p = p' ∧ i = i'.
Proof. unfold Gui.file_name. by apply (names_inj "img_p" "_" "i" "." "png"). Qed.

Lemma gui_file_name_plain p i : Os.plain_name (Gui.file_name p i).
Proof.
  unfold Gui.file_name.
  by destruct (plain_names "mg_p" "_i" ".png" p i "i") as [?|[?|?]].
Qed.

Lemma kivy_item_name_inj p i p' i' :
  Kivy.item_name p i = Kivy.item_name p' i' → p = p' ∧ i = i'.
Proof.
  unfold Kivy.item_name. intros E.
  apply (names_inj "p" "_" "i" "." "png") in E; [lia|done..].
Qed.

Lemma kivy_item_name_plain p i : Os.plain_name (Kivy.item_name p i).
Proof.
  unfold Kivy.item_name.
  by destruct (plain_names "" "_i" ".png" (p + 1) (i + 1) "p") as [?|[?|?]].
Qed.

Lemma pro_file_name_inj p i p' i' :
  Pro.default_file_name p i = Pro.default_file_name p' i' → p = p' ∧ i = i'.
Proof. unfold Pro.default_file_name. by apply (names_inj "img_P" "_" "I" "." "png"). Qed.

Lemma pro_file_name_plain p i : Os.plain_name (Pro.default_file_name p i).
Proof.
  unfold Pro.default_file_name.
  by destruct (plain_names "mg_P" "_I" ".png" p i "i") as [?|[?|?]].
Qed.

(** The label [P{page}-I{idx}] of a checkbox reads back as its page and
    its index, and the default pattern makes [img_P{page}_I{idx}.png] of
    them. *)
Lemma pro_label_parts p i b :
  Pro.label_part (Pro.mkCheckBox (Pro.checkbox_text p i) b) 0
    = Ok (str_of_nat p) ∧
  Pro.label_part (Pro.mkCheckBox (Pro.checkbox_text p i) b) 1
    = Ok (str_of_nat i).
Proof.
  unfold Pro.label_part, Pro.checkbox_text. cbn [Pro.text].
  change ("P" +:+ str_of_nat p +:+ "-I" +:+ str_of_nat i) with
    (String "P" (str_of_nat p +:+ String "-" (String "I" (str_of_nat i)))).
  change (String "P" (?a +:+ ?b)) with (String "P" a +:+ b).
  rewrite split_on_app.
  rewrite (split_on_lacks "-" (String "P" _)).
  2:{ by rewrite lacks_cons, lacks_str_of_nat. }
  rewrite (split_on_lacks "-" (String "I" _)).
  2:{ by rewrite lacks_cons, lacks_str_of_nat. }
  done.
Qed.

Lemma pro_default_format a b :
  str_format Pro.default_pattern {[ "page" := a; "idx" := b ]}
  = Ok ("img_P" +:+ a +:+ "_I" +:+ b +:+ ".png").
Proof. vm_compute. reflexivity. Qed.

End Names.

(** ** [extract_images_gui.py]: selection window and download *)

Module GuiExport.
Import Os OsFacts Session SessionFacts Gui.

Lemma open_wb_write_join fs out n d :
  plain_name n →
  open_wb_write fs (os_path_join out n) d
  = write_path fs (resolve out ++ [n]) d.
Proof.
  intros Hn. unfold open_wb_write. rewrite resolve_join by done.
  destruct (os_path_join out n) eqn:E; [|done].
  apply (f_equal resolve) in E. rewrite resolve_join in E by done.
  by destruct (resolve out).
Qed.

Lemma exported_of_write_all fs fs' out (sel : list (string * bytes)) :
  NoDup sel.*1 →
  write_all fs ((fun x => (resolve out ++ [x.1], x.2)) <$> sel) = Ok fs' →
  exported fs fs' out sel.
Proof.
  intros Hnd Hw. split; [done|]. split.
  - intros n d Hin. eapply write_all_file; [exact Hw| |].
    + rewrite <- list_fmap_compose.
      rewrite (list_fmap_ext _ ((fun n => resolve out ++ [n]) ∘ fst) sel)
        by done.
      rewrite list_fmap_compose. apply NoDup_fmap_2; [|done].
      intros a b E. apply app_inv_head in E. congruence.
    + apply list_elem_of_fmap. by exists (n, d).
  - intros q Hq. unfold file_at.
    rewrite (write_all_other _ _ _ q Hw); [done|].
    rewrite <- list_fmap_compose.
    intros ([n d] & -> & Hin)%list_elem_of_fmap. simpl in Hq.
    apply (Hq n); [|done]. apply list_elem_of_fmap. by exists (n, d).
Qed.

Lemma filter_enumerate_sublist {X} (P : nat * X → Prop)
    `{∀ x, Decision (P x)} k (l : list X) :
  (filter P (enumerate_from k l)).*2 `sublist_of` l.
Proof.
  revert k. induction l as [|x l IH]; intros k; simpl; [done|].
  destruct (decide (P (k, x))).
  - rewrite filter_cons_True by done. rewrite fmap_cons.
    by apply sublist_skip.
  - rewrite filter_cons_False by done. by apply sublist_cons.
Qed.

Section WithLibraries.
Context `{Fitz.Parser} `{Pil.Imaging}.

Lemma create_thumbnail_spec b sz :
  (Pil.decodable b → ∃ t, create_thumbnail b sz = Ok t) ∧
  (¬ Pil.decodable b → create_thumbnail b sz = Raise UnidentifiedImageError).
Proof.
  unfold create_thumbnail, Pil.Image_open, Pil.decodable.
  destruct (Pil.decode b) as [im|].
  - split; [eauto|]. intros Hno. destruct Hno. eauto.
  - split; [by intros [? ?]|done].
Qed.

Lemma selection_loop_rows
    (body : list (string * nat) * list (string * string * bytes) →
            nat * record →
            M state (list (string * nat) * list (string * string * bytes))) :
  (∀ ks rows idx pnum inum b s,
     body (ks, rows) (idx, (pnum, inum, b)) s =
     match create_thumbnail b default_max_size with
     | Ok thumb =>
         (Ok (ks ++ [(checkbox_key idx, idx)],
              rows ++ [(checkbox_label pnum inum, checkbox_key idx, thumb)]), s)
     | Raise e => (Raise e, s)
     end) →
  ∀ images k ks rows s,
    if decide (Forall (fun r => Pil.decodable (raw_bytes r)) images) then
      ∃ rows', for_fold (enumerate_from k images) (ks, rows) body s
               = (Ok (ks ++ keys_from k (length images), rows'), s)
    else for_fold (enumerate_from k images) (ks, rows) body s
         = (Raise UnidentifiedImageError, s).
Proof.
  intros Hbody. induction images as [|[[p i] b] images IH]; intros k ks rows s.
  - rewrite decide_True by constructor. exists rows. simpl.
    by rewrite app_nil_r.
  - cbn [enumerate_from]. rewrite for_fold_cons, Hbody.
    destruct (create_thumbnail_spec b default_max_size) as [Hyes Hno].
    destruct (decide (Pil.decodable b)) as [Hb|Hb].
    + destruct (Hyes Hb) as [t ->].
      specialize (IH (S k) (ks ++ [(checkbox_key k, k)])
                     (rows ++ [(checkbox_label p i, checkbox_key k, t)]) s).
      destruct (decide (Forall _ images)) as [Hi|Hi].
      * rewrite decide_True by (by constructor).
        destruct IH as [rows' ->]. exists rows'.
        unfold keys_from. cbn [length seq]. rewrite fmap_cons.
        by rewrite <- app_assoc.
      * rewrite decide_False by (by intros [_ ?]%Forall_cons). exact IH.
    + rewrite (Hno Hb). rewrite decide_False; [done|].
      by intros [? _]%Forall_cons.
Qed.

Lemma build_selection_window_spec images s :
  if decide (Forall (fun r => Pil.decodable (raw_bytes r)) images) then
    ∃ rows, build_selection_window images s
            = (Ok (keys_from 0 (length images)),
               mkState (fs s) (log s) (ui s ++ [SelectionWindow rows]))
  else build_selection_window images s = (Raise UnidentifiedImageError, s).
Proof.
  unfold build_selection_window. run_m.
  match goal with
  | |- context [for_fold (enumerate images) ([], []) ?f] =>
      pose proof (selection_loop_rows f) as Hloop
  end.
  unfold enumerate.
  specialize (Hloop (fun ks rows idx pnum inum b s0 => eq_refl) images 0 [] [] s).
  destruct (decide (Forall _ images)) as [Hi|Hi].
  - destruct Hloop as [rows' Hl]. exists rows'. by rewrite Hl.
  - by rewrite Hloop.
Qed.

(** The download loop, when it returns: it has written the files of the
    ticked records, in order, and counted them. *)
Lemma download_loop out images v2 (body : nat → string * nat → M state nat) :
  (∀ count key idx s,
     body count (key, idx) s =
     if default false (v2 !! key) then
       match images !! idx with
       | None => (Raise IndexError, s)
       | Some (p, i, data) =>
           match open_wb_write (fs s) (os_path_join out (file_name p i)) data
           with
           | Ok fs' =>
               (Ok (count + 1),
                mkState fs'
                  (log s ++ ["Saved: " +:+ os_path_join out (file_name p i)])
                  (ui s))
           | Raise e => (Raise e, s)
           end
       end
     else (Ok count, s)) →
  ∀ rest pre count s c' s', images = pre ++ rest →
    for_fold (keys_from (length pre) (length rest)) count body s = (Ok c', s') →
    write_all (fs s)
      ((fun x : nat * record =>
          (resolve out ++ [file_name x.2.1.1 x.2.1.2], x.2.2))
         <$> selection_from (length pre) rest v2) = Ok (fs s') ∧
    c' = count + length (selection_from (length pre) rest v2) ∧
    ui s' = ui s.
Proof.
  intros Hbody. induction rest as [|[[p i] data] rest IH];
    intros pre count s c' s' Himg.
  - simpl. intros [= <- <-]. split; [done|]. split; [lia|done].
  - unfold keys_from. cbn [length seq]. rewrite fmap_cons, for_fold_cons, Hbody.
    unfold selection_from. cbn [enumerate_from].
    specialize (IH (pre ++ [(p, i, data)])). rewrite length_app in IH.
    simpl in IH. rewrite Nat.add_1_r in IH.
    destruct (v2 !! checkbox_key (length pre)) as [[]|] eqn:Ev; simpl.
    + rewrite Himg, list_lookup_middle by done.
      rewrite open_wb_write_join by apply gui_file_name_plain.
      rewrite filter_cons_True by done. rewrite fmap_cons. cbn [write_all fst snd].
      destruct (write_path (fs s) _ data) as [fs1|e] eqn:Ew; [|done].
      intros Hrest. apply IH in Hrest as (Hw & Hc & Hui);
        [|by rewrite <- app_assoc].
      split; [exact Hw|]. split; [|exact Hui].
      unfold selection_from in Hc. simpl. lia.
    + rewrite filter_cons_False by (simpl; congruence).
      intros Hrest. apply IH in Hrest as (Hw & Hc & Hui);
        [|by rewrite <- app_assoc]. done.
    + rewrite filter_cons_False by (simpl; congruence).
      intros Hrest. apply IH in Hrest as (Hw & Hc & Hui);
        [|by rewrite <- app_assoc]. done.
Qed.

Lemma selection_names_NoDup doc v2 :
  NoDup ((fun r : nat * nat * bytes => file_name r.1.1 r.1.2)
           <$> selection (records doc) v2).
Proof.
  assert (NoDup (selection (records doc) v2).*1) as Hnd.
  { eapply sublist_NoDup; [apply records_NoDup|].
    apply fmap_sublist, filter_enumerate_sublist. }
  rewrite (list_fmap_ext _
    ((fun pi : nat * nat => file_name pi.1 pi.2) ∘ fst)
    (selection (records doc) v2)) by done.
  rewrite list_fmap_compose. apply NoDup_fmap_2_strong; [|done].
  intros [p i] [p' i'] _ _ E. simpl in E.
  apply gui_file_name_inj in E as [-> ->]. done.
Qed.

(** [download] on the session of a document, when it returns. *)
Lemma download_ok doc out v2 s s' :
  download out (records doc) (keys_from 0 (length (records doc))) v2 s
    = (Ok tt, s') →
  exported (fs s) (fs s') out
    ((fun r : nat * nat * bytes => (file_name r.1.1 r.1.2, r.2))
       <$> selection (records doc) v2) ∧
  ui s' = ui s ++ [Popup ["Done";
                          str_of_nat (length (selection (records doc) v2))
                            +:+ " images saved to " +:+ out]].
Proof.
  unfold download. run_m.
  match goal with
  | |- context [for_fold _ 0 ?f s] =>
      pose proof (download_loop out (records doc) v2 f) as Hloop;
      destruct (for_fold _ 0 f s) as [[c|e] s1] eqn:Efold; [|done]
  end.
  destruct (Hloop) with (rest := records doc) (pre := @nil (nat * nat * bytes))
    (count := 0) (s := s) (c' := c) (s' := s1) as (Hw & -> & Hui);
    [|done|exact Efold|].
  { intros count key idx s0. destruct (default false (v2 !! key)); [|done].
    unfold index. destruct (records doc !! idx) as [[[p i] data]|]; [|done].
    unfold with_fs, logging_info. run_m.
    by destruct (open_wb_write _ _ _). }
  clear Hloop.
  unfold show. run_m. intros [= <-]. cbn [fs ui]. split.
  - apply exported_of_write_all.
    + rewrite <- list_fmap_compose. apply selection_names_NoDup.
    + rewrite <- list_fmap_compose. unfold selection.
      rewrite <- list_fmap_compose. exact Hw.
  - rewrite Hui. unfold selection. by rewrite length_fmap.
Qed.

Lemma download_loop_run out images v2
    (body : nat → string * nat → M state nat) :
  (∀ count key idx s,
     body count (key, idx) s =
     if default false (v2 !! key) then
       match images !! idx with
       | None => (Raise IndexError, s)
       | Some (p, i, data) =>
           match open_wb_write (fs s) (os_path_join out (file_name p i)) data
           with
           | Ok fs' =>
               (Ok (count + 1),
                mkState fs'
                  (log s ++ ["Saved: " +:+ os_path_join out (file_name p i)])
                  (ui s))
           | Raise e => (Raise e, s)
           end
       end
     else (Ok count, s)) →
  ∀ rest pre post count s fs1, images = pre ++ rest ++ post →
    write_all (fs s)
      ((fun x : nat * record =>
          (resolve out ++ [file_name x.2.1.1 x.2.1.2], x.2.2))
         <$> selection_from (length pre) rest v2) = Ok fs1 →
    ∃ lg, for_fold (keys_from (length pre) (length rest)) count body s =
          (Ok (count + length (selection_from (length pre) rest v2)),
           mkState fs1 (log s ++ lg) (ui s)).
Proof.
  intros Hbody. induction rest as [|[[p i] data] rest IH];
    intros pre post count s fs1 Himg.
  - simpl. intros [= <-]. exists []. rewrite Nat.add_0_r, app_nil_r.
    by destruct s.
  - unfold keys_from. cbn [length seq]. rewrite fmap_cons, for_fold_cons, Hbody.
    unfold selection_from. cbn [enumerate_from].
    specialize (IH (pre ++ [(p, i, data)]) post). rewrite length_app in IH.
    simpl in IH. rewrite Nat.add_1_r in IH.
    destruct (v2 !! checkbox_key (length pre)) as [[]|] eqn:Ev;
      unfold from_option, id; cbn beta iota.
    + rewrite Himg, <- app_comm_cons, list_lookup_middle by done.
      rewrite open_wb_write_join by apply gui_file_name_plain.
      rewrite filter_cons_True by done. rewrite fmap_cons. cbn [write_all fst snd].
      destruct (write_path (fs s) _ data) as [fs2|e] eqn:Ew; [|done].
      intros Hrest.
      destruct (IH (count + 1)
                  (mkState fs2
                     (log s ++ ["Saved: " +:+ os_path_join out (file_name p i)])
                     (ui s)) fs1) as [lg Hlg];
        [rewrite <- app_assoc; exact Himg|exact Hrest|].
      unfold keys_from in Hlg. rewrite Hlg. eexists. cbn [fs log ui].
      rewrite <- app_assoc. f_equal. f_equal. cbn [length].
      unfold selection_from. lia.
    + rewrite filter_cons_False by (cbn [fst]; congruence).
      intros Hrest.
      destruct (IH count s fs1) as [lg Hlg];
        [rewrite <- app_assoc; exact Himg|exact Hrest|].
      unfold keys_from in Hlg. rewrite Hlg. by eexists.
    + rewrite filter_cons_False by (cbn [fst]; congruence).
      intros Hrest.
      destruct (IH count s fs1) as [lg Hlg];
        [rewrite <- app_assoc; exact Himg|exact Hrest|].
      unfold keys_from in Hlg. rewrite Hlg. by eexists.
Qed.

Lemma keys_from_app k n m :
  keys_from k (n + m) = keys_from k n ++ keys_from (k + n) m.
Proof. unfold keys_from. by rewrite seq_app, fmap_app. Qed.

(** [download] stops at the first write that fails. *)
Lemma download_stop out pre p i data post v2 s fs1 e :
  v2 !! checkbox_key (length pre) = Some true →
  write_all (fs s)
    ((fun x : nat * record =>
        (resolve out ++ [file_name x.2.1.1 x.2.1.2], x.2.2))
       <$> selection_from 0 pre v2) = Ok fs1 →
  open_wb_write fs1 (os_path_join out (file_name p i)) data = Raise e →
  ∃ lg,
    download out (pre ++ (p, i, data) :: post)
             (keys_from 0 (length (pre ++ (p, i, data) :: post))) v2 s
    = (Raise e, mkState fs1 (log s ++ lg) (ui s)).
Proof.
  intros Hv Hw Hx. unfold download. run_m.
  rewrite length_app. cbn [length].
  rewrite keys_from_app. unfold keys_from at 2. cbn [seq Nat.add].
  rewrite fmap_cons.
  match goal with
  | |- context [for_fold _ 0 ?f s] =>
      assert (∀ count key idx s,
        f count (key, idx) s =
        if default false (v2 !! key) then
          match (pre ++ (p, i, data) :: post) !! idx with
          | None => (Raise IndexError, s)
          | Some (p, i, data) =>
              match open_wb_write (fs s) (os_path_join out (file_name p i))
                                  data with
              | Ok fs' =>
                  (Ok (count + 1),
                   mkState fs'
                     (log s ++ ["Saved: " +:+ os_path_join out (file_name p i)])
                     (ui s))
              | Raise e => (Raise e, s)
              end
          end
        else (Ok count, s)) as Hbody;
      [|destruct (download_loop_run out _ v2 f Hbody pre []
                    ((p, i, data) :: post) 0 s fs1 eq_refl Hw) as [lg Hlg];
        exists lg;
        rewrite (for_fold_raise _ _ _ 0 f s _ _ e
                   (mkState fs1 (log s ++ lg) (ui s)) Hlg)]
  end.
  - intros count key idx s0. cbn beta.
    destruct (default false (v2 !! key)); [|reflexivity].
    unfold index.
    destruct ((pre ++ (p, i, data) :: post) !! idx) as [[[p' i'] d']|];
      [|reflexivity].
    unfold with_fs, logging_info. run_m.
    by destruct (open_wb_write (fs s0) _ _).
  - done.
  - rewrite Hbody, Hv. cbn [default]. rewrite list_lookup_middle by done.
    cbn [fs]. by rewrite Hx.
Qed.

End WithLibraries.

End GuiExport.

(** ** [main.py]: saving *)

Module KivyExport.
Import Os OsFacts Session SessionFacts Kivy GuiExport.

Lemma makedirs_rev_files fs rp ok fs' :
  makedirs_rev fs rp ok = Ok fs' →
  (∀ q, file_at fs' q = file_at fs q) ∧
  (∀ q, path_isdir fs q = true → path_isdir fs' q = true).
Proof.
  revert fs fs'. induction rp as [|x rhead IH]; intros fs fs'.
  - simpl. intros [Hm|[-> Hd]]%mkdir_leaf_ok; [|done].
    by apply mkdir_ok in Hm as (? & _).
  - cbn [makedirs_rev].
    destruct (if negb (path_exists fs (rev rhead)) then _ else _)
      as [fs1|e] eqn:E1; [|done].
    assert ((∀ q, file_at fs1 q = file_at fs q) ∧
            (∀ q, path_isdir fs q = true → path_isdir fs1 q = true))
      as [Hf1 Hd1].
    { destruct (negb (path_exists fs (rev rhead))); [|by injection E1 as <-].
      destruct (makedirs_rev fs rhead ok) as [fs2|e] eqn:E2.
      - injection E1 as <-. by apply IH.
      - destruct e; try done. by injection E1 as <-. }
    intros [Hm|[-> Hd]]%mkdir_leaf_ok; [|done]. split.
    + intros q. rewrite (mkdir_file_at _ _ _ q Hm). apply Hf1.
    + intros q Hq. eapply mkdir_isdir_mono; eauto.
Qed.

Lemma os_makedirs_files fs name ok fs' :
  os_makedirs fs name ok = Ok fs' → ∀ q, file_at fs' q = file_at fs q.
Proof.
  unfold os_makedirs. destruct (str_empty name); [done|].
  intros Hm. by apply makedirs_rev_files in Hm as [? _].
Qed.





Section WithLibraries.
Context `{Fitz.Parser} `{Pil.Imaging}.

Lemma do_save_loop folder (body : nat → ImageItem → M state nat) :
  (∀ count item s,
     body count item s =
     if active (checkbox item) then
       match open_wb_write (fs s) (os_path_join folder (name item))
                           (img_data item) with
       | Ok fs' =>
           (Ok (count + 1),
            mkState fs' (container s) (extracted s) (_save_popup s) (ui s))
       | Raise e => (Raise e, s)
       end
     else (Ok count, s)) →
  ∀ items count s c' s',
    Forall (fun it => plain_name (name it)) items →
    for_fold items count body s = (Ok c', s') →
    write_all (fs s)
      ((fun x => (resolve folder ++ [x.1], x.2))
         <$> (named <$> filter (fun it => active (checkbox it) = true) items))
      = Ok (fs s') ∧
    c' = count + length (filter (fun it => active (checkbox it) = true) items) ∧
    container s' = container s ∧ extracted s' = extracted s ∧
    _save_popup s' = _save_popup s ∧ ui s' = ui s.
Proof.
  intros Hbody. induction items as [|it items IH];
    intros count s c' s' Hplain.
  - simpl. intros [= <- <-]. split; [done|]. split; [lia|done].
  - apply Forall_cons in Hplain as [Hit Hplain].
    rewrite for_fold_cons, Hbody.
    destruct (active (checkbox it)) eqn:Ea.
    + rewrite open_wb_write_join by done.
      rewrite filter_cons_True by done. rewrite !fmap_cons.
      cbn [write_all named fst snd].
      destruct (write_path (fs s) _ _) as [fs1|e] eqn:Ew; [|done].
      intros Hrest. apply IH in Hrest as (Hw & Hc & ? & ? & ? & ?); [|done].
      split; [exact Hw|]. split; [simpl; lia|done].
    + rewrite filter_cons_False by congruence.
      intros Hrest. by apply IH in Hrest.
Qed.

(** [_do_save], when it returns. *)
Lemma do_save_ok folder s s' :
  Forall (fun it => plain_name (name it)) (extracted s) →
  NoDup (name <$> extracted s) →
  _do_save folder s = (Ok tt, s') →
  exported (fs s) (fs s') folder (named <$> selection s) ∧
  extracted s' = extracted s ∧ container s' = container s ∧
  ∃ title, _save_popup s = Some title ∧
    ui s' = ui s ++ [PopupDismiss title;
                     PopupOpen "Done"
                       ("Saved " +:+ str_of_nat (length (selection s))
                                 +:+ " image(s).")].
Proof.
  intros Hplain Hnd. unfold _do_save. run_m.
  assert ((∃ fs1, (if negb (os_path_exists (fs s) folder)
                   then with_fs (fun fs => os_makedirs fs folder false)
                   else fun s0 => (Ok tt, s0)) s
                  = (Ok tt, mkState fs1 (container s) (extracted s)
                                    (_save_popup s) (ui s)) ∧
                  ∀ q, file_at fs1 q = file_at (fs s) q) ∨
          (∃ e, (if negb (os_path_exists (fs s) folder)
                 then with_fs (fun fs => os_makedirs fs folder false)
                 else fun s0 => (Ok tt, s0)) s = (Raise e, s))) as Hmk.
  { destruct (negb (os_path_exists (fs s) folder)).
    - unfold with_fs. destruct (os_makedirs (fs s) folder false) eqn:Em.
      + left. eexists. split; [done|]. by eapply os_makedirs_files.
      + right. by eexists.
    - left. exists (fs s). by destruct s. }
  destruct Hmk as [(fs1 & -> & Hfiles)|[e ->]]; [|done].
  cbn [extracted].
  match goal with
  | |- context [for_fold _ 0 ?f ?s0] =>
      pose proof (do_save_loop folder f) as Hloop;
      destruct (for_fold _ 0 f s0) as [[c|e] s1] eqn:Efold; [|done]
  end.
  destruct Hloop with (items := extracted s) (count := 0)
    (s := mkState fs1 (container s) (extracted s) (_save_popup s) (ui s))
    (c' := c) (s' := s1) as (Hw & -> & Hc & He & Hp & Hu);
    [|done|exact Efold|].
  { intros count item s0. destruct (active (checkbox item)); [|done].
    unfold with_fs. run_m. by destruct (open_wb_write _ _ _). }
  clear Hloop. simpl in Hw, Hc, He, Hp, Hu.
  rewrite Hp. destruct (_save_popup s) as [title|]; [|done].
  unfold show. run_m. intros [= <-]. cbn [fs extracted container ui].
  split; [|split; [done|split; [done|]]].
  - assert (exported fs1 (fs s1) folder (named <$> selection s))
      as (Hn & Hin & Hout).
    { apply exported_of_write_all; [|exact Hw].
      rewrite <- list_fmap_compose.
      eapply sublist_NoDup; [exact Hnd|].
      apply fmap_sublist, sublist_filter. }
    split; [done|]. split; [done|]. intros q Hq. rewrite Hout by done.
    apply Hfiles.
  - exists title. split; [done|]. rewrite Hu, <- app_assoc. done.
Qed.

Lemma do_save_loop_run folder (body : nat → ImageItem → M state nat) :
  (∀ count item s,
     body count item s =
     if active (checkbox item) then
       match open_wb_write (fs s) (os_path_join folder (name item))
                           (img_data item) with
       | Ok fs' =>
           (Ok (count + 1),
            mkState fs' (container s) (extracted s) (_save_popup s) (ui s))
       | Raise e => (Raise e, s)
       end
     else (Ok count, s)) →
  ∀ items count s fs1,
    Forall (fun it => plain_name (name it)) items →
    write_all (fs s)
      ((fun x => (resolve folder ++ [x.1], x.2))
         <$> (named <$> filter (fun it => active (checkbox it) = true) items))
      = Ok fs1 →
    for_fold items count body s =
    (Ok (count + length (filter (fun it => active (checkbox it) = true) items)),
     mkState fs1 (container s) (extracted s) (_save_popup s) (ui s)).
Proof.
  intros Hbody. induction items as [|it items IH];
    intros count s fs1 Hplain.
  - simpl. intros [= <-]. rewrite Nat.add_0_r. by destruct s.
  - apply Forall_cons in Hplain as [Hit Hplain].
    rewrite for_fold_cons, Hbody.
    destruct (active (checkbox it)) eqn:Ea.
    + rewrite open_wb_write_join by done.
      rewrite filter_cons_True by done. rewrite !fmap_cons.
      cbn [write_all named fst snd].
      destruct (write_path (fs s) _ _) as [fs2|e] eqn:Ew; [|done].
      intros Hrest. rewrite (IH _ _ fs1 Hplain) by exact Hrest.
      simpl. f_equal. f_equal. lia.
    + rewrite filter_cons_False by congruence.
      intros Hrest. by rewrite (IH _ _ fs1 Hplain).
Qed.

(** [_do_save] stops at the first write that fails. *)
Lemma do_save_stop folder s l1 x l2 fs0 fs1 e :
  extracted s = l1 ++ x :: l2 →
  Forall (fun it => plain_name (name it)) (l1 ++ [x]) →
  active (checkbox x) = true →
  (if os_path_exists (fs s) folder then Ok (fs s)
   else os_makedirs (fs s) folder false) = Ok fs0 →
  write_all fs0
    ((fun x => (resolve folder ++ [x.1], x.2))
       <$> (named <$> filter (fun it => active (checkbox it) = true) l1))
    = Ok fs1 →
  open_wb_write fs1 (os_path_join folder (name x)) (img_data x) = Raise e →
  _do_save folder s =
  (Raise e, mkState fs1 (container s) (extracted s) (_save_popup s) (ui s)).
Proof.
  intros Hl Hplain Ha Hmk Hw Hx. apply Forall_app in Hplain as [Hp1 Hpx].
  unfold _do_save. run_m.
  assert ((if negb (os_path_exists (fs s) folder)
           then with_fs (fun fs => os_makedirs fs folder false)
           else fun s0 => (Ok tt, s0)) s
          = (Ok tt, mkState fs0 (container s) (extracted s)
                            (_save_popup s) (ui s))) as ->.
  { destruct (os_path_exists (fs s) folder); simpl.
    - injection Hmk as <-. by destruct s.
    - unfold with_fs. by rewrite Hmk. }
  cbn [extracted]. rewrite Hl.
  match goal with
  | |- context [for_fold _ 0 ?f ?s0] =>
      assert (∀ count item s,
                f count item s =
                if active (checkbox item) then
                  match open_wb_write (fs s) (os_path_join folder (name item))
                                      (img_data item) with
                  | Ok fs' =>
                      (Ok (count + 1),
                       mkState fs' (container s) (extracted s)
                               (_save_popup s) (ui s))
                  | Raise e => (Raise e, s)
                  end
                else (Ok count, s)) as Hbody;
      [|rewrite (for_fold_raise l1 x l2 0 f s0
                   (0 + length (filter (fun it => active (checkbox it) = true)
                                       l1))
                   (mkState fs1 (container s) (l1 ++ x :: l2)
                            (_save_popup s) (ui s)) e
                   (mkState fs1 (container s) (l1 ++ x :: l2)
                            (_save_popup s) (ui s)))]
  end.
  - intros count item s0. cbn beta.
    destruct (active (checkbox item)); [|reflexivity].
    unfold with_fs. run_m. by destruct (open_wb_write (fs s0) _ _).
  - done.
  - exact (do_save_loop_run folder _ Hbody l1 0
             (mkState fs0 (container s) (l1 ++ x :: l2) (_save_popup s) (ui s))
             fs1 Hp1 Hw).
  - rewrite Hbody, Ha. cbn [fs]. by rewrite Hx.
Qed.

Lemma toggle_named i s : named <$> extracted (toggle i s) = named <$> extracted s.
Proof.
  unfold toggle. destruct (extracted s !! i) as [it|] eqn:E; [|done].
  simpl. rewrite list_fmap_insert. apply list_insert_id.
  by rewrite list_lookup_fmap, E.
Qed.

Lemma toggles_named clicks s :
  named <$> extracted (foldr toggle s clicks) = named <$> extracted s.
Proof.
  induction clicks as [|i clicks IH]; [done|]. simpl. by rewrite toggle_named.
Qed.

(** The names and the bytes of the tiles [extract_images] leaves. *)
Lemma extracted_named pdf s doc s' :
  Fitz.open (fs s) pdf = Ok doc →
  extract_images pdf s = (Ok tt, s') →
  named <$> extracted s' =
  (fun r : nat * nat * bytes =>
     ("p" +:+ str_of_nat r.1.1 +:+ "_i" +:+ str_of_nat r.1.2 +:+ ".png", r.2))
    <$> records doc.
Proof.
  intros Hopen Hrun.
  destruct (KivyFacts.extract_images_ok _ _ _ _ Hopen Hrun) as [Hall _].
  unfold records. rewrite <- list_fmap_compose.
  assert (Forall2 (fun x it => item_result doc x = Ok it)
                  (entries doc) (extracted s')) as HF.
  { apply Forall2_fmap. rewrite Hall.
    apply Forall_Forall2_diag, Forall_forall. done. }
  clear Hall. induction HF as [|[[p i] e] it xs its Hx _ IH]; [done|].
  rewrite !fmap_cons, IH. f_equal.
  apply KivyFacts.item_result_ok in Hx as (Hn & Hd & _). unfold named.
  simpl in *. by rewrite Hn, Hd.
Qed.

Lemma named_plain doc (items : list ImageItem) :
  named <$> items =
  (fun r : nat * nat * bytes =>
     ("p" +:+ str_of_nat r.1.1 +:+ "_i" +:+ str_of_nat r.1.2 +:+ ".png", r.2))
    <$> records doc →
  Forall (fun it => plain_name (name it)) items ∧ NoDup (name <$> items).
Proof.
  intros Hn. split.
  - apply Forall_forall. intros it Hit.
    assert (named it ∈ named <$> items) as Hin
      by (apply list_elem_of_fmap; eauto).
    rewrite Hn in Hin. apply list_elem_of_fmap in Hin as (r & Hr & _).
    injection Hr as -> _.
    by destruct (plain_names "" "_i" ".png" r.1.1 r.1.2 "p") as [?|[?|?]].
  - rewrite (list_fmap_ext name (fst ∘ named) items) by done.
    rewrite list_fmap_compose, Hn, <- list_fmap_compose.
    rewrite (list_fmap_ext _
      ((fun pi : nat * nat =>
          "p" +:+ str_of_nat pi.1 +:+ "_i" +:+ str_of_nat pi.2 +:+ ".png")
       ∘ fst) (records doc)) by done.
    rewrite list_fmap_compose.
    apply NoDup_fmap_2_strong; [|apply records_NoDup].
    intros [p i] [p' i'] _ _ E. simpl in E.
    apply (names_inj "p" "_" "i" "." "png") in E as [-> ->]; done.
Qed.

End WithLibraries.

End KivyExport.

(** ** [extractor_pro.py]: thumbnails and export *)

Module ProExport.
Import Os OsFacts Session SessionFacts Pro GuiExport.

Section WithLibraries.
Context `{Fitz.Parser} `{Pil.Imaging}.

Lemma bytes_to_pixmap_spec b :
  (Pil.decodable b → ∃ t, _bytes_to_pixmap b = Ok t) ∧
  (¬ Pil.decodable b → _bytes_to_pixmap b = Raise UnidentifiedImageError).
Proof.
  unfold _bytes_to_pixmap, Pil.Image_open, Pil.decodable.
  destruct (Pil.decode b) as [im|].
  - split; [eauto|]. intros Hno. destruct Hno. eauto.
  - split; [by intros [? ?]|done].
Qed.

Lemma display_loop (body : nat * nat → record → M state (nat * nat)) :
  (∀ row col page idx data s,
     body (row, col) (page, idx, data) s =
     match _bytes_to_pixmap data with
     | Raise e => (Raise e, s)
     | Ok pix =>
         (Ok (if 3 <? col + 1 then (row + 1, 0) else (row, col + 1)),
          with_tiles [thumb_of (page, idx, data)]
                     [mkFrame row col pix (checkbox_text page idx)] s)
     end) →
  ∀ images rc s,
    Forall (fun r => Pil.decodable (raw_bytes r)) images →
    ∃ rc' g, for_fold images rc body s
             = (Ok rc', with_tiles (thumb_of <$> images) g s).
Proof.
  intros Hbody. induction images as [|[[p i] d] images IH];
    intros [row col] s Hdec.
  - exists (row, col), []. simpl. unfold with_tiles. destruct s; simpl.
    by rewrite !app_nil_r.
  - apply Forall_cons in Hdec as [Hd Hdec].
    rewrite for_fold_cons, Hbody.
    destruct (bytes_to_pixmap_spec d) as [Hyes _].
    destruct (Hyes Hd) as [pix ->].
    edestruct IH as (rc' & g & ->); [exact Hdec|].
    eexists rc', _. f_equal. unfold with_tiles. simpl.
    rewrite <- !app_assoc. reflexivity.
Qed.

Lemma display_loop_stop (body : nat * nat → record → M state (nat * nat)) :
  (∀ row col page idx data s,
     body (row, col) (page, idx, data) s =
     match _bytes_to_pixmap data with
     | Raise e => (Raise e, s)
     | Ok pix =>
         (Ok (if 3 <? col + 1 then (row + 1, 0) else (row, col + 1)),
          with_tiles [thumb_of (page, idx, data)]
                     [mkFrame row col pix (checkbox_text page idx)] s)
     end) →
  ∀ l1 x l2 rc s,
    Forall (fun r => Pil.decodable (raw_bytes r)) l1 →
    ¬ Pil.decodable (raw_bytes x) →
    ∃ g, for_fold (l1 ++ x :: l2) rc body s
         = (Raise UnidentifiedImageError, with_tiles (thumb_of <$> l1) g s).
Proof.
  intros Hbody l1 x l2 rc s Hdec Hx.
  destruct (display_loop body Hbody l1 rc s Hdec) as (rc' & g & Hl1).
  exists g. eapply for_fold_raise; [exact Hl1|].
  destruct rc' as [row col]. destruct x as [[p i] d]. rewrite Hbody.
  destruct (bytes_to_pixmap_spec d) as [_ Hno]. by rewrite (Hno Hx).
Qed.

Lemma not_Forall_split {X} (P : X → Prop) `{∀ x, Decision (P x)} (l : list X) :
  ¬ Forall P l → ∃ l1 x l2, l = l1 ++ x :: l2 ∧ Forall P l1 ∧ ¬ P x.
Proof.
  induction l as [|x l IH]; intros Hno.
  - destruct Hno. constructor.
  - destruct (decide (P x)) as [Hx|Hx].
    + destruct IH as (l1 & y & l2 & -> & Hl1 & Hy).
      { intros Hl. apply Hno. by constructor. }
      exists (x :: l1), y, l2. split; [done|]. split; [by constructor|done].
    + exists [], x, l. split; [done|]. split; [constructor|done].
Qed.

(** [display_thumbs] when every image decodes, and when one does not. *)
Lemma display_thumbs_ok images s :
  Forall (fun r => Pil.decodable (raw_bytes r)) images →
  ∃ g, display_thumbs images s =
       (Ok tt,
        mkState (fs s) (thumb_of <$> images) g true
                (progress_maximum s) (progress_value s)
                (logView s ++ ["Displayed " +:+ str_of_nat (length images)
                                            +:+ " thumbnails"])
                (settings s)).
Proof.
  intros Hdec. unfold display_thumbs, _log. run_m.
  match goal with
  | |- context [for_fold images (0, 0) ?f] =>
      destruct (display_loop f) with (images := images) (rc := (0, 0))
        (s := mkState (fs s) [] [] (btnExport_enabled s) (progress_maximum s)
                      (progress_value s) (logView s) (settings s))
        as (rc' & g & Hloop)
  end.
  { intros row col page idx data s0.
    destruct (_bytes_to_pixmap data); [|done]. by destruct (3 <? col + 1). }
  { exact Hdec. }
  exists g. rewrite Hloop. unfold with_tiles. simpl.
  by rewrite length_fmap.
Qed.

Lemma display_thumbs_stop l1 x l2 s :
  Forall (fun r => Pil.decodable (raw_bytes r)) l1 →
  ¬ Pil.decodable (raw_bytes x) →
  ∃ g, display_thumbs (l1 ++ x :: l2) s =
       (Raise UnidentifiedImageError,
        mkState (fs s) (thumb_of <$> l1) g (btnExport_enabled s)
                (progress_maximum s) (progress_value s) (logView s)
                (settings s)).
Proof.
  intros Hdec Hx. unfold display_thumbs. run_m.
  match goal with
  | |- context [for_fold _ (0, 0) ?f] =>
      destruct (display_loop_stop f) with (l1 := l1) (x := x) (l2 := l2)
        (rc := (0, 0))
        (s := mkState (fs s) [] [] (btnExport_enabled s) (progress_maximum s)
                      (progress_value s) (logView s) (settings s))
        as (g & Hloop)
  end.
  { intros row col page idx data s0.
    destruct (_bytes_to_pixmap data); [|done]. by destruct (3 <? col + 1). }
  { exact Hdec. }
  { exact Hx. }
  exists g. by rewrite Hloop.
Qed.

Lemma display_thumbs_inv images s s' :
  display_thumbs images s = (Ok tt, s') →
  thumbs s' = thumb_of <$> images ∧ fs s' = fs s ∧ settings s' = settings s.
Proof.
  intros Hrun.
  destruct (decide (Forall (fun r => Pil.decodable (raw_bytes r)) images))
    as [Hdec|Hdec].
  - destruct (display_thumbs_ok images s Hdec) as [g Hg].
    rewrite Hg in Hrun. by injection Hrun as <-.
  - destruct (not_Forall_split _ images Hdec) as (l1 & x & l2 & -> & Hl1 & Hx).
    destruct (display_thumbs_stop l1 x l2 s Hl1 Hx) as [g Hg]. congruence.
Qed.

Lemma export_loop out total (body : nat → QCheckBox * bytes → M state nat) :
  (∀ count chk data s,
     body count (chk, data) s =
     if negb (isChecked chk) then (Ok count, s)
     else match rendered (pattern (settings s)) chk with
          | Raise e => (Raise e, s)
          | Ok fname =>
              match open_wb_write (fs s) (os_path_join out fname) data with
              | Ok fs' =>
                  (Ok (count + 1),
                   mkState fs' (thumbs s) (grid s) (btnExport_enabled s)
                           total (count + 1) (logView s) (settings s))
              | Raise e => (Raise e, s)
              end
          end) →
  ∀ items count s c' s',
    Forall (fun t => ∀ n, rendered (pattern (settings s)) t.1 = Ok n →
                          plain_name n) items →
    for_fold items count body s = (Ok c', s') →
    write_all (fs s)
      ((fun x => (resolve out ++ [x.1], x.2))
         <$> (named (pattern (settings s))
                <$> filter (fun t => isChecked t.1 = true) items))
      = Ok (fs s') ∧
    c' = count + length (filter (fun t => isChecked t.1 = true) items) ∧
    thumbs s' = thumbs s ∧ settings s' = settings s ∧
    logView s' = logView s ∧ grid s' = grid s ∧
    btnExport_enabled s' = btnExport_enabled s.
Proof.
  intros Hbody. induction items as [|[chk data] items IH];
    intros count s c' s' Hplain.
  - simpl. intros [= <- <-]. split; [done|]. split; [lia|done].
  - apply Forall_cons in Hplain as [Hit Hplain].
    rewrite for_fold_cons, Hbody.
    destruct (isChecked chk) eqn:Ec; cbn [negb].
    + destruct (rendered (pattern (settings s)) chk) as [fname|e] eqn:Er;
        [|done].
      rewrite open_wb_write_join by (by apply Hit).
      rewrite filter_cons_True by done. rewrite !fmap_cons.
      unfold named at 1. cbn [write_all fst snd]. rewrite Er.
      destruct (write_path (fs s) _ _) as [fs1|e] eqn:Ew; [|done].
      intros Hrest. apply IH in Hrest as (Hw & Hc & ? & ? & ? & ? & ?);
        [|done].
      split; [exact Hw|]. split; [simpl; lia|done].
    + rewrite filter_cons_False by (simpl; congruence).
      intros Hrest. by apply IH in Hrest.
Qed.

(** [export_selected], when it returns. *)
Lemma export_selected_ok out s s' :
  out ≠ EmptyString →
  Forall (fun t => ∀ n, rendered (pattern (settings s)) t.1 = Ok n →
                        plain_name n) (thumbs s) →
  NoDup ((named (pattern (settings s)) <$> thumbs s).*1) →
  export_selected out s = (Ok tt, s') →
  exported (fs s) (fs s') out (named (pattern (settings s)) <$> selection s) ∧
  thumbs s' = thumbs s ∧ settings s' = settings s ∧
  logView s' =
    logView s ++ ["Exporting to " +:+ out;
                  "Exported " +:+ str_of_nat (length (selection s)) +:+ "/"
                    +:+ str_of_nat (length (selection s)) +:+ " images"].
Proof.
  intros Hout Hplain Hnd. unfold export_selected.
  destruct out as [|c out]; [done|]. cbn [str_empty].
  unfold _log, set_progress. run_m. cbn [thumbs progress_value].
  match goal with
  | |- context [for_fold _ 0 ?f ?s0] =>
      destruct (for_fold _ 0 f s0) as [[n|e] s1] eqn:Efold; [|done];
      destruct (export_loop (String c out)
                  (length (filter (fun '(chk, _) => isChecked chk = true)
                                  (thumbs s))) f)
        with (items := thumbs s) (count := 0) (s := s0) (c' := n) (s' := s1)
        as (Hw & -> & Ht & Hs & Hl & _); [| |exact Efold|]
  end.
  { intros count chk data s0. destruct (isChecked chk); [|done]. cbn [negb].
    unfold rendered, with_fs. run_m.
    destruct (label_part chk 0); [|done]. destruct (label_part chk 1); [|done].
    destruct (str_format _ _); [|done].
    by destruct (open_wb_write _ _ _). }
  { exact Hplain. }
  simpl in Hw, Ht, Hs, Hl. intros [= <-].
  cbn [fs thumbs settings logView]. split; [|split; [done|split; [done|]]].
  - apply exported_of_write_all; [|exact Hw].
    eapply sublist_NoDup; [exact Hnd|].
    apply fmap_sublist, fmap_sublist, sublist_filter.
  - rewrite Hl, <- app_assoc. unfold selection.
    rewrite (list_filter_iff (fun '(chk, _) => isChecked chk = true)
                             (fun t => isChecked t.1 = true))
      by (by intros [chk d]).
    done.
Qed.

Lemma export_loop_run out total
    (body : nat → QCheckBox * bytes → M state nat) :
  (∀ count chk data s,
     body count (chk, data) s =
     if negb (isChecked chk) then (Ok count, s)
     else match rendered (pattern (settings s)) chk with
          | Raise e => (Raise e, s)
          | Ok fname =>
              match open_wb_write (fs s) (os_path_join out fname) data with
              | Ok fs' =>
                  (Ok (count + 1),
                   mkState fs' (thumbs s) (grid s) (btnExport_enabled s)
                           total (count + 1) (logView s) (settings s))
              | Raise e => (Raise e, s)
              end
          end) →
  ∀ items count s fs1,
    Forall (fun t => isChecked t.1 = true →
                     ∃ n, rendered (pattern (settings s)) t.1 = Ok n ∧
                          plain_name n) items →
    write_all (fs s)
      ((fun x => (resolve out ++ [x.1], x.2))
         <$> (named (pattern (settings s))
                <$> filter (fun t => isChecked t.1 = true) items))
      = Ok fs1 →
    ∃ pm pv,
      for_fold items count body s =
      (Ok (count + length (filter (fun t => isChecked t.1 = true) items)),
       mkState fs1 (thumbs s) (grid s) (btnExport_enabled s) pm pv
               (logView s) (settings s)).
Proof.
  intros Hbody. induction items as [|[chk data] items IH];
    intros count s fs1 Hplain.
  - simpl. intros [= <-]. exists (progress_maximum s), (progress_value s).
    rewrite Nat.add_0_r. by destruct s.
  - apply Forall_cons in Hplain as [Hit Hplain].
    rewrite for_fold_cons, Hbody.
    destruct (isChecked chk) eqn:Ec; cbn [negb].
    + destruct (Hit Ec) as (fname & Er & Hpl). cbn [fst] in Er. rewrite Er.
      rewrite open_wb_write_join by done.
      rewrite filter_cons_True by done. rewrite !fmap_cons.
      unfold named at 1. cbn [write_all fst snd]. rewrite Er.
      destruct (write_path (fs s) _ _) as [fs2|e] eqn:Ew; [|done].
      intros Hrest.
      destruct (IH (count + 1)
                  (mkState fs2 (thumbs s) (grid s) (btnExport_enabled s)
                           total (count + 1) (logView s) (settings s)) fs1)
        as (pm & pv & Hrun); [exact Hplain|exact Hrest|].
      rewrite Hrun. exists pm, pv. cbn [length]. f_equal. f_equal. lia.
    + rewrite filter_cons_False by (cbn [fst]; congruence).
      intros Hrest. by apply IH.
Qed.

(** [export_selected] stops at the first write that fails. *)
Lemma export_stop out s l1 chk data l2 fs1 fname e :
  out ≠ EmptyString →
  thumbs s = l1 ++ (chk, data) :: l2 →
  isChecked chk = true →
  Forall (fun t => isChecked t.1 = true →
                   ∃ n, rendered (pattern (settings s)) t.1 = Ok n ∧
                        plain_name n) l1 →
  write_all (fs s)
    ((fun x => (resolve out ++ [x.1], x.2))
       <$> (named (pattern (settings s))
              <$> filter (fun t => isChecked t.1 = true) l1)) = Ok fs1 →
  rendered (pattern (settings s)) chk = Ok fname →
  open_wb_write fs1 (os_path_join out fname) data = Raise e →
  ∃ pm pv,
    export_selected out s =
    (Raise e,
     mkState fs1 (thumbs s) (grid s) (btnExport_enabled s) pm pv
             (logView s ++ ["Exporting to " +:+ out]) (settings s)).
Proof.
  intros Hout Hl Hc Hplain Hw Hr Hx. unfold export_selected.
  destruct out as [|c out]; [done|]. cbn [str_empty].
  unfold _log, set_progress. run_m. cbn [thumbs progress_value].
  rewrite Hl.
  match goal with
  | |- context [for_fold _ 0 ?f ?s0] =>
      assert (∀ count chk0 data0 s,
        f count (chk0, data0) s =
        if negb (isChecked chk0) then (Ok count, s)
        else match rendered (pattern (settings s)) chk0 with
             | Raise e => (Raise e, s)
             | Ok fname =>
                 match open_wb_write (fs s) (os_path_join (String c out) fname)
                                     data0 with
                 | Ok fs' =>
                     (Ok (count + 1),
                      mkState fs' (thumbs s) (grid s) (btnExport_enabled s)
                              (length (filter
                                         (fun '(chk, _) => isChecked chk = true)
                                         (l1 ++ (chk, data) :: l2)))
                              (count + 1) (logView s) (settings s))
                 | Raise e => (Raise e, s)
                 end
             end) as Hbody;
      [|destruct (export_loop_run (String c out) _ f Hbody l1 0 s0 fs1)
          as (pm & pv & Hrun);
        [exact Hplain|exact Hw|];
        exists pm, pv;
        erewrite (for_fold_raise _ _ _ 0 f s0 _ _ e); [|exact Hrun|]]
  end.
  - intros count chk0 data0 s0. cbn beta.
    destruct (isChecked chk0); [|reflexivity]. cbn [negb].
    unfold rendered, with_fs. run_m.
    destruct (label_part chk0 0); [|reflexivity].
    destruct (label_part chk0 1); [|reflexivity].
    destruct (str_format _ _); [|reflexivity].
    by destruct (open_wb_write (fs s0) _ _).
  - reflexivity.
  - rewrite Hbody, Hc. cbn [negb settings fs]. rewrite Hr. cbn [fs].
    by rewrite Hx.
Qed.

Lemma named_toggle pat i s :
  named pat <$> thumbs (toggle i s) = named pat <$> thumbs s.
Proof.
  unfold toggle. destruct (thumbs s !! i) as [[chk d]|] eqn:E; [|done].
  simpl. rewrite list_fmap_insert. apply list_insert_id.
  by rewrite list_lookup_fmap, E.
Qed.

Lemma named_toggles pat clicks s :
  named pat <$> thumbs (foldr toggle s clicks) = named pat <$> thumbs s.
Proof.
  induction clicks as [|i clicks IH]; [done|]. simpl. by rewrite named_toggle.
Qed.

Lemma settings_toggles clicks s : settings (foldr toggle s clicks) = settings s.
Proof.
  induction clicks as [|i clicks IH]; [done|]. simpl. rewrite <- IH.
  unfold toggle. by destruct (thumbs _ !! i) as [[chk d]|].
Qed.

Lemma rendered_default p i b :
  rendered default_pattern (mkCheckBox (checkbox_text p i) b)
  = Ok (default_file_name p i).
Proof.
  unfold rendered. destruct (pro_label_parts p i b) as [-> ->].
  apply pro_default_format.
Qed.

Lemma named_default r :
  named default_pattern (thumb_of r) = (default_file_name r.1.1 r.1.2, r.2).
Proof. unfold named, thumb_of. simpl. by rewrite rendered_default. Qed.

Lemma rendered_text pat chk chk' :
  text chk = text chk' → rendered pat chk = rendered pat chk'.
Proof. unfold rendered, label_part. by intros ->. Qed.

(** Under the default pattern the tiles of a document's session render
    plain, pairwise distinct file names. *)
Lemma default_names doc (ts : list (QCheckBox * bytes)) :
  named default_pattern <$> ts
    = named default_pattern <$> (thumb_of <$> records doc) →
  Forall (fun t => ∀ n, rendered default_pattern t.1 = Ok n → plain_name n) ts ∧
  NoDup ((named default_pattern <$> ts).*1).
Proof.
  intros Hn. split.
  - apply Forall_forall. intros t Ht n Hr.
    assert (named default_pattern t ∈ named default_pattern <$> ts) as Hin
      by (apply list_elem_of_fmap; eauto).
    rewrite Hn in Hin. apply list_elem_of_fmap in Hin as (t' & Heq & Hin').
    apply list_elem_of_fmap in Hin' as (r & -> & _).
    rewrite named_default in Heq. unfold named in Heq. rewrite Hr in Heq.
    injection Heq as -> _. apply pro_file_name_plain.
  - rewrite Hn, <- !list_fmap_compose.
    rewrite (list_fmap_ext _
      ((fun pi : nat * nat => default_file_name pi.1 pi.2) ∘ fst)
      (records doc)).
    2:{ intros _ r _. unfold compose. by rewrite named_default. }
    rewrite list_fmap_compose.
    apply NoDup_fmap_2_strong; [|apply records_NoDup].
    intros [p i] [p' i'] _ _ E. simpl in E.
    apply pro_file_name_inj in E as [-> ->]; done.
Qed.

End WithLibraries.

End ProExport.

(** ** What a computation leaves alone *)

Section Preserves.
Context {St : Type} (P : St → Prop).

Local Abbreviation pres := (preserves P).

Lemma preserves_ret {A} (a : A) : pres (mret a).
Proof. by intros s Hs. Qed.

Lemma preserves_raise {A} e : pres (raise e : M St A).
Proof. by intros s Hs. Qed.

Lemma preserves_lift {A} (r : result A) : pres (lift r).
Proof. by intros s Hs. Qed.

Lemma preserves_gets {A} (f : St → A) : pres (gets f).
Proof. by intros s Hs. Qed.

Lemma preserves_bind {A B} (c : M St A) (k : A → M St B) :
  pres c → (∀ a, pres (k a)) → pres (c ≫= k).
Proof.
  intros Hc Hk s Hs. specialize (Hc s Hs). unfold mbind, M_bind, bind.
  destruct (c s) as [[a|e] s']; simpl in *; [by apply Hk|done].
Qed.

Lemma preserves_modify (f : St → St) :
  (∀ s, P s → P (f s)) → pres (modify f).
Proof. intros Hf s Hs. by apply Hf. Qed.

Lemma preserves_for_fold {A B} (l : list A) (acc : B) (body : B → A → M St B) :
  (∀ a x, pres (body a x)) → pres (for_fold l acc body).
Proof.
  intros Hbody s Hs. apply for_fold_preserves; [|done].
  intros a x s0 Hs0. by apply Hbody.
Qed.

Lemma preserves_if {A} (b : bool) (c1 c2 : M St A) :
  pres c1 → pres c2 → pres (if b then c1 else c2).
Proof. by destruct b. Qed.

End Preserves.

Lemma kivy_with_fs_preserves (P : Kivy.state → Prop) op :
  (∀ s fs', P s → op (Kivy.fs s) = Ok fs' →
     P (Kivy.mkState fs' (Kivy.container s) (Kivy.extracted s)
                     (Kivy._save_popup s) (Kivy.ui s))) →
  preserves P (Kivy.with_fs op).
Proof.
  intros HP s Hs. unfold Kivy.with_fs.
  destruct (op (Kivy.fs s)) eqn:E; simpl; [by apply HP|done].
Qed.

Lemma pro_with_fs_preserves (P : Pro.state → Prop) op :
  (∀ s fs', P s → op (Pro.fs s) = Ok fs' →
     P (Pro.mkState fs' (Pro.thumbs s) (Pro.grid s) (Pro.btnExport_enabled s)
                    (Pro.progress_maximum s) (Pro.progress_value s)
                    (Pro.logView s) (Pro.settings s))) →
  preserves P (Pro.with_fs op).
Proof.
  intros HP s Hs. unfold Pro.with_fs.
  destruct (op (Pro.fs s)) eqn:E; simpl; [by apply HP|done].
Qed.

(** What [_do_save] does to its state: one [os.makedirs], writes of files,
    popups.  What [export_selected] does: writes of files, the progress
    bar, the log view. *)
Lemma do_save_preserves `{Fitz.Parser} `{Pil.Imaging}
    (P : Kivy.state → Prop) folder :
  (∀ s fs', P s → Os.os_makedirs (Kivy.fs s) folder false = Ok fs' →
     P (Kivy.mkState fs' (Kivy.container s) (Kivy.extracted s)
                     (Kivy._save_popup s) (Kivy.ui s))) →
  (∀ s fs' n d, P s → Os.open_wb_write (Kivy.fs s) n d = Ok fs' →
     P (Kivy.mkState fs' (Kivy.container s) (Kivy.extracted s)
                     (Kivy._save_popup s) (Kivy.ui s))) →
  (∀ s u, P s →
     P (Kivy.mkState (Kivy.fs s) (Kivy.container s) (Kivy.extracted s)
                     (Kivy._save_popup s) u)) →
  preserves P (Kivy._do_save folder).
Proof.
  intros Hmk Hw Hu. unfold Kivy._do_save.
  apply preserves_bind; [apply preserves_gets|]. intros ex.
  apply preserves_bind.
  { apply preserves_if; [|apply preserves_ret].
    apply kivy_with_fs_preserves. intros s fs' Hs. by apply Hmk. }
  intros _. apply preserves_bind; [apply preserves_gets|]. intros items.
  apply preserves_bind.
  { apply preserves_for_fold. intros count item.
    apply preserves_if; [|apply preserves_ret].
    apply preserves_bind; [|intros; apply preserves_ret].
    apply kivy_with_fs_preserves. intros s fs' Hs. by apply Hw. }
  intros count. apply preserves_bind; [apply preserves_gets|].
  intros [title|]; [|apply preserves_raise].
  apply preserves_bind; [|intros _];
    apply preserves_modify; intros s Hs; by apply Hu.
Qed.

Lemma export_selected_preserves `{Fitz.Parser} `{Pil.Imaging}
    (P : Pro.state → Prop) out :
  (∀ s fs' n d, P s → Os.open_wb_write (Pro.fs s) n d = Ok fs' →
     P (Pro.mkState fs' (Pro.thumbs s) (Pro.grid s) (Pro.btnExport_enabled s)
                    (Pro.progress_maximum s) (Pro.progress_value s)
                    (Pro.logView s) (Pro.settings s))) →
  (∀ s pm pv lv, P s →
     P (Pro.mkState (Pro.fs s) (Pro.thumbs s) (Pro.grid s)
                    (Pro.btnExport_enabled s) pm pv lv (Pro.settings s))) →
  preserves P (Pro.export_selected out).
Proof.
  intros Hw Hm. unfold Pro.export_selected.
  apply preserves_if; [apply preserves_ret|].
  apply preserves_bind.
  { apply preserves_modify. intros s Hs. by apply Hm. }
  intros _. apply preserves_bind; [apply preserves_gets|]. intros items.
  apply preserves_bind; [apply preserves_gets|]. intros cur.
  apply preserves_bind.
  { apply preserves_modify. intros s Hs. by apply Hm. }
  intros _. apply preserves_bind.
  { apply preserves_for_fold. intros count [chk data].
    apply preserves_if; [apply preserves_ret|].
    apply preserves_bind; [apply preserves_lift|]. intros page.
    apply preserves_bind; [apply preserves_lift|]. intros idx.
    apply preserves_bind; [apply preserves_gets|]. intros pat.
    apply preserves_bind; [apply preserves_lift|]. intros fname.
    apply preserves_bind.
    { apply pro_with_fs_preserves. intros s fs' Hs. by apply Hw. }
    intros _. apply preserves_bind; [|intros; apply preserves_ret].
    apply preserves_modify. intros s Hs. by apply Hm. }
  intros count. apply preserves_modify. intros s Hs. by apply Hm.
Qed.




Lemma download_preserves `{Fitz.Parser} `{Pil.Imaging}
    (P : Gui.state → Prop) out images keys v2 :
  (∀ s fs' n d, P s → Os.open_wb_write (Gui.fs s) n d = Ok fs' →
     P (Gui.mkState fs' (Gui.log s) (Gui.ui s))) →
  (∀ s lg u, P s → P (Gui.mkState (Gui.fs s) lg (Gui.ui s ++ u))) →
  preserves P (Gui.download out images keys v2).
Proof.
  intros Hw HP.
  assert (∀ s lg, P s → P (Gui.mkState (Gui.fs s) lg (Gui.ui s))) as HP0.
  { intros s lg Hs. rewrite <- (app_nil_r (Gui.ui s)). by apply HP. }
  unfold Gui.download. apply preserves_bind.
  { apply preserves_for_fold. intros count [key idx].
    apply preserves_if; [|apply preserves_ret].
    apply preserves_bind; [apply preserves_lift|]. intros [[p i] data].
    apply preserves_bind.
    { intros s Hs. unfold Gui.with_fs.
      destruct (Os.open_wb_write (Gui.fs s) _ _) eqn:E; simpl;
        [by eapply Hw|done]. }
    intros _. apply preserves_bind; [|intros; apply preserves_ret].
    apply preserves_modify. intros s Hs. by apply HP0. }
  intros count. apply preserves_modify. intros s Hs. by apply HP.
Qed.


(** ** The destination directory *)









(** * The claims *)

Module Claims.
Import Fitz Session SessionFacts.

Section WithLibraries.
Context `{Fitz.Parser} `{Pil.Imaging}.



(** C5.  A PDF that opens and holds no image yields the empty session:
    [extract_images_from_pdf] returns the empty list, it does not raise,
    and the [Load] handler of [main] answers it with the notice
    [No images found.] and goes on with the next event, where a failure
    ends the event loop in the error popup. *)
Theorem empty_session_is_not_an_error (s : Gui.state) (pdf : string)
    (doc : Document) :
  Fitz.open (Gui.fs s) pdf = Ok doc →
  image_count doc = 0 →
  Gui.extract_images_from_pdf pdf s =
    (Ok [],
     Gui.mkState (Gui.fs s)
                 (Gui.log s ++ ["Opening PDF: " +:+ pdf;
                                "Found 0 images in PDF"])
                 (Gui.ui s)) ∧
  ∀ e events out s0,
    Gui.evt e = Some "Load" →
    Gui.texts e !! "-PDF-" = Some pdf → Gui.texts e !! "-OUT-" = Some out →
    pdf ≠ "" → out ≠ "" →
    Os.os_path_isfile (Gui.fs s0) pdf = true →
    Os.os_makedirs (Gui.fs s0) out true = Ok (Gui.fs s) →
    Gui.log s0 = Gui.log s → Gui.ui s0 = Gui.ui s →
    Gui.main_loop (e :: events) s0 =
    Gui.main_loop events
      (Gui.mkState (Gui.fs s)
                   (Gui.log s ++ ["Opening PDF: " +:+ pdf;
                                  "Found 0 images in PDF"])
                   (Gui.ui s ++ [Gui.Popup ["No images found."]])).
Proof.
  intros Hopen Hzero. destruct (no_images doc Hzero) as [Hv Hrec].
  destruct (GuiFacts.extract_images_from_pdf_spec pdf s doc Hopen) as [Hok _].
  specialize (Hok Hv). rewrite Hrec in Hok. split; [exact Hok|].
  intros e events out s0 Hevt Hpdf Hout Hpdf0 Hout0 Hfile Hmk Hlog Hui.
  cbn [Gui.main_loop]. rewrite Hevt.
  rewrite decide_False by (intros [?|?]; congruence).
  rewrite decide_True by done.
  unfold Fitz.getitem. rewrite Hpdf, Hout. run_m.
  destruct pdf as [|c pdf]; [done|]. destruct out as [|c' out]; [done|].
  cbn [str_empty orb]. rewrite Hfile. cbn [negb].
  unfold Gui.with_fs at 1. rewrite Hmk.
  replace (Gui.mkState (Gui.fs s) (Gui.log s0) (Gui.ui s0)) with s
    by (destruct s; simpl in *; congruence).
  rewrite Hok. unfold Gui.show at 1. run_m. done.
Qed.

(** C7 (as amended).  In every session the harvesters of
    [extract_images_gui.py] and [extractor_pro.py] produce, the
    image_index values of the records of one page are, in order, exactly
    1..N for the N images of that page, and page numbers count from 1:
    every record's page_number lies between 1 and the number of pages.
    The first record's page_number is 1 when the first page holds an
    image; it is the number of the first page that does. *)
Theorem index_ranges (doc : Document) (images : list (nat * nat * bytes)) :
  ((∃ s pdf s', Fitz.open (Gui.fs s) pdf = Ok doc ∧
                Gui.extract_images_from_pdf pdf s = (Ok images, s')) ∨
   (∃ fs0 pdf sigs sigs', Fitz.open fs0 pdf = Ok doc ∧
                Pro.run fs0 pdf sigs = (Ok tt, sigs') ∧
                last sigs' = Some (Pro.finished images))) →
  (∀ q pg, pages doc !! q = Some pg →
     image_index <$> filter (fun r => page_number r = q + 1) images
     = seq 1 (length pg)) ∧
  (∀ r, r ∈ images → 1 ≤ page_number r ≤ page_count doc) ∧
  (∀ e pg pgs, pages doc = (e :: pg) :: pgs →
     ∃ r rest, images = r :: rest ∧ page_number r = 1 ∧ image_index r = 1) ∧
  (∀ r rest, images = r :: rest →
     pages doc !! (page_number r - 1) ≠ Some [] ∧
     ∀ q, q < page_number r - 1 → pages doc !! q = Some []).
Proof.
  intros Hprod.
  assert (images = records doc) as ->.
  { destruct Hprod as [(s & pdf & s' & Hopen & Hrun)|
                       (fs0 & pdf & sigs & sigs' & Hopen & Hrun & Hlast)].
    - by destruct (gui_extract_inv _ _ _ _ _ Hopen Hrun) as (_ & -> & _).
    - by destruct (pro_run_inv _ _ _ _ _ _ Hopen Hrun Hlast) as (_ & ->). }
  assert (∀ q pg, pages doc !! q = Some pg →
     image_index <$> filter (fun r => page_number r = q + 1) (records doc)
     = seq 1 (length pg)) as Hidx.
  { intros q pg Hq. rewrite records_page_indices.
    rewrite decide_True by lia.
    replace (q + 1 - 1) with q by lia. by rewrite Hq. }
  split; [exact Hidx|]. split; [apply records_page_bounds|]. split.
  - intros e pg pgs Hpages. unfold records, entries. rewrite Hpages.
    simpl. eauto.
  - intros r rest Hr.
    assert (r ∈ records doc) as Hin by (rewrite Hr; by left).
    pose proof (records_page_bounds doc r Hin) as Hb.
    pose proof (records_sorted doc) as Hs. rewrite Hr, fmap_cons in Hs.
    apply StronglySorted_inv in Hs as [_ Hs]. rewrite Forall_forall in Hs.
    split.
    + intros Hpg. specialize (Hidx _ _ Hpg).
      replace (page_number r - 1 + 1) with (page_number r) in Hidx by lia.
      rewrite Hr, filter_cons_True in Hidx by done. done.
    + intros q Hq.
      destruct (pages doc !! q) as [pg|] eqn:Epg.
      2:{ apply lookup_ge_None in Epg. unfold page_count in Hb. lia. }
      specialize (Hidx _ _ Epg). rewrite Hr in Hidx.
      rewrite filter_cons_False in Hidx by lia.
      rewrite filter_none in Hidx.
      * destruct pg; [done|discriminate Hidx].
      * apply Forall_forall. intros r' Hr'.
        assert (page_number r ≤ page_number r').
        { apply Hs. apply list_elem_of_fmap. eauto. }
        lia.
Qed.

(** C2 (as amended).  For the session of a document and every selection
    of K of its records, an export that returns has written exactly K
    files, one per selected record: the file names are pairwise distinct,
    each file holds the record's raw bytes as the harvester produced them,
    no other file is touched, and the count the program reports is K.
    This holds for the fixed file names of [extract_images_gui.py] and
    [main.py], and for [extractor_pro.py] under its default pattern; the
    pattern of [extractor_pro.py] is the user's to edit, and one that does
    not tell the records apart sends several of them to one file. *)
Theorem export_writes_selection (doc : Document) :
  (∀ out v2 s1 keys s s',
     Gui.build_selection_window (records doc) s1 = (Ok keys, s) →
     Gui.download out (records doc) keys v2 s = (Ok tt, s') →
     Os.exported (Gui.fs s) (Gui.fs s') out
       ((fun r : nat * nat * bytes => (Gui.file_name r.1.1 r.1.2, r.2))
          <$> Gui.selection (records doc) v2) ∧
     Gui.ui s' =
       Gui.ui s ++ [Gui.Popup
                      ["Done";
                       str_of_nat (length (Gui.selection (records doc) v2))
                         +:+ " images saved to " +:+ out]]) ∧
  (∀ pdf s0 s1 clicks s folder s',
     Fitz.open (Kivy.fs s0) pdf = Ok doc →
     Kivy.extract_images pdf s0 = (Ok tt, s1) →
     Kivy.extracted s = Kivy.extracted (foldr Kivy.toggle s1 clicks) →
     Kivy._do_save folder s = (Ok tt, s') →
     Kivy.named <$> Kivy.extracted s =
       (fun r : nat * nat * bytes =>
          ("p" +:+ str_of_nat r.1.1 +:+ "_i" +:+ str_of_nat r.1.2 +:+ ".png",
           r.2)) <$> records doc ∧
     Os.exported (Kivy.fs s) (Kivy.fs s') folder
       (Kivy.named <$> Kivy.selection s) ∧
     ∃ title,
       Kivy.ui s' =
         Kivy.ui s ++ [Kivy.PopupDismiss title;
                       Kivy.PopupOpen "Done"
                         ("Saved " +:+ str_of_nat (length (Kivy.selection s))
                                   +:+ " image(s).")]) ∧
  (∀ s0 s1 clicks s out s',
     Pro.display_thumbs (records doc) s0 = (Ok tt, s1) →
     Pro.thumbs s = Pro.thumbs (foldr Pro.toggle s1 clicks) →
     Pro.pattern (Pro.settings s) = Pro.default_pattern →
     out ≠ "" →
     Pro.export_selected out s = (Ok tt, s') →
     Pro.named Pro.default_pattern <$> Pro.thumbs s =
       (fun r : nat * nat * bytes =>
          (Pro.default_file_name r.1.1 r.1.2, r.2)) <$> records doc ∧
     Os.exported (Pro.fs s) (Pro.fs s') out
       (Pro.named Pro.default_pattern <$> Pro.selection s) ∧
     Pro.logView s' =
       Pro.logView s ++
         ["Exporting to " +:+ out;
          "Exported " +:+ str_of_nat (length (Pro.selection s)) +:+ "/"
            +:+ str_of_nat (length (Pro.selection s)) +:+ " images"]).
Proof.
  split; [|split].
  - intros out v2 s1 keys s s' Hwin Hdl.
    pose proof (GuiExport.build_selection_window_spec (records doc) s1) as Hspec.
    destruct (decide (Forall _ (records doc))) as [Hdec|Hdec].
    + destruct Hspec as [rows Hrows]. rewrite Hrows in Hwin.
      injection Hwin as <- <-. by apply GuiExport.download_ok.
    + congruence.
  - intros pdf s0 s1 clicks s folder s' Hopen Hext Hs Hsave.
    assert (Kivy.named <$> Kivy.extracted s =
            (fun r : nat * nat * bytes =>
               ("p" +:+ str_of_nat r.1.1 +:+ "_i" +:+ str_of_nat r.1.2
                    +:+ ".png", r.2)) <$> records doc) as Hnamed.
    { rewrite Hs, KivyExport.toggles_named.
      by eapply KivyExport.extracted_named. }
    split; [exact Hnamed|].
    destruct (KivyExport.named_plain doc _ Hnamed) as [Hplain Hnd].
    destruct (KivyExport.do_save_ok folder s s' Hplain Hnd Hsave)
      as (Hexp & _ & _ & title & _ & Hui).
    split; [exact Hexp|]. by exists title.
  - intros s0 s1 clicks s out s' Hdisp Hs Hpat Hout Hexp.
    destruct (ProExport.display_thumbs_inv _ _ _ Hdisp) as (Hth & _ & _).
    assert (Pro.named Pro.default_pattern <$> Pro.thumbs s =
            Pro.named Pro.default_pattern
              <$> (Pro.thumb_of <$> records doc)) as Hnamed.
    { by rewrite Hs, ProExport.named_toggles, Hth. }
    destruct (ProExport.default_names doc _ Hnamed) as [Hplain Hnd].
    rewrite <- Hpat in Hplain, Hnd.
    destruct (ProExport.export_selected_ok out s s' Hout Hplain Hnd Hexp)
      as (Hex & _ & _ & Hlog).
    rewrite Hpat in Hex. split; [|split; [exact Hex|exact Hlog]].
    rewrite Hnamed, <- list_fmap_compose. apply list_fmap_ext.
    intros _ r _. apply ProExport.named_default.
Qed.

(** C3 (as amended).  When writing one selected record's file fails, the
    export stops there: the exception leaves the export loop, the files of
    the selected records before it are on disk, no later record is
    attempted, and no count is reported.  In [extract_images_gui.py] the
    exception is caught by the handler around [main]'s event loop, which
    logs it, shows an error popup and ends the loop; in [main.py] and
    [extractor_pro.py] it leaves [_do_save] and [export_selected]. *)
Theorem export_stops_at_failure :
  (∀ out pre p i data post v2 s fs1 e,
     v2 !! Gui.checkbox_key (length pre) = Some true →
     Os.write_all (Gui.fs s)
       ((fun x : nat * (nat * nat * bytes) =>
           (Os.resolve out ++ [Gui.file_name x.2.1.1 x.2.1.2], x.2.2))
          <$> Gui.selection_from 0 pre v2) = Ok fs1 →
     Os.open_wb_write fs1 (Os.os_path_join out (Gui.file_name p i)) data
       = Raise e →
     ∃ lg,
       Gui.download out (pre ++ (p, i, data) :: post)
         (Gui.keys_from 0 (length (pre ++ (p, i, data) :: post))) v2 s
       = (Raise e, Gui.mkState fs1 (Gui.log s ++ lg) (Gui.ui s))) ∧
  (∀ events s e s',
     (Gui.build_main_window ≫= fun _ => Gui.main_loop events) s
       = (Raise e, s') →
     Gui.main events s =
     (Ok tt,
      Gui.mkState (Gui.fs s') (Gui.log s' ++ ["Application error"])
        (Gui.ui s' ++ [Gui.PopupError
                         ("Unexpected error: " +:+ Gui.exn_name e)]))) ∧
  (∀ folder s l1 x l2 fs0 fs1 e,
     Kivy.extracted s = l1 ++ x :: l2 →
     Forall (fun it => Os.plain_name (Kivy.name it)) (l1 ++ [x]) →
     Kivy.active (Kivy.checkbox x) = true →
     (if Os.os_path_exists (Kivy.fs s) folder then Ok (Kivy.fs s)
      else Os.os_makedirs (Kivy.fs s) folder false) = Ok fs0 →
     Os.write_all fs0
       ((fun x => (Os.resolve folder ++ [x.1], x.2))
          <$> (Kivy.named
                 <$> filter (fun it => Kivy.active (Kivy.checkbox it) = true)
                            l1)) = Ok fs1 →
     Os.open_wb_write fs1 (Os.os_path_join folder (Kivy.name x))
                      (Kivy.img_data x) = Raise e →
     Kivy._do_save folder s =
     (Raise e,
      Kivy.mkState fs1 (Kivy.container s) (Kivy.extracted s)
                   (Kivy._save_popup s) (Kivy.ui s))) ∧
  (∀ out s l1 chk data l2 fs1 fname e,
     out ≠ "" →
     Pro.thumbs s = l1 ++ (chk, data) :: l2 →
     Pro.isChecked chk = true →
     Forall (fun t => Pro.isChecked t.1 = true →
                      ∃ n, Pro.rendered (Pro.pattern (Pro.settings s)) t.1
                             = Ok n ∧ Os.plain_name n) l1 →
     Os.write_all (Pro.fs s)
       ((fun x => (Os.resolve out ++ [x.1], x.2))
          <$> (Pro.named (Pro.pattern (Pro.settings s))
                 <$> filter (fun t => Pro.isChecked t.1 = true) l1))
       = Ok fs1 →
     Pro.rendered (Pro.pattern (Pro.settings s)) chk = Ok fname →
     Os.open_wb_write fs1 (Os.os_path_join out fname) data = Raise e →
     ∃ pm pv,
       Pro.export_selected out s =
       (Raise e,
        Pro.mkState fs1 (Pro.thumbs s) (Pro.grid s) (Pro.btnExport_enabled s)
                    pm pv (Pro.logView s ++ ["Exporting to " +:+ out])
                    (Pro.settings s))).
Proof.
  split; [|split; [|split]].
  - intros. by eapply GuiExport.download_stop.
  - intros events s e s' Hrun. unfold Gui.main, try_except. rewrite Hrun.
    unfold Gui.logging_info, Gui.show. run_m. done.
  - intros. by eapply KivyExport.do_save_stop.
  - intros. by eapply ProExport.export_stop.
Qed.


(** C10.  An export does not modify the session.  In [main.py] the list
    [extracted] of tiles (bytes, name, checkbox, texture) and the widgets in
    [container] are after [_do_save] what they were before; in
    [extractor_pro.py] so are the list [thumbs] of checkboxes (label and
    tick) with their bytes, the grid and the settings after
    [export_selected]; in [extract_images_gui.py] the records and the
    checkbox values are a list and a dict the download only reads (they are
    its arguments here), and what the windows have shown stays as shown.
    This holds whether the export returns or raises. *)
Theorem export_leaves_session :
  (∀ out images keys v2 s,
     Gui.ui s `prefix_of` Gui.ui (Gui.download out images keys v2 s).2) ∧
  (∀ folder s,
     Kivy.extracted (Kivy._do_save folder s).2 = Kivy.extracted s ∧
     Kivy.container (Kivy._do_save folder s).2 = Kivy.container s ∧
     Kivy.selection (Kivy._do_save folder s).2 = Kivy.selection s) ∧
  (∀ out s,
     Pro.thumbs (Pro.export_selected out s).2 = Pro.thumbs s ∧
     Pro.grid (Pro.export_selected out s).2 = Pro.grid s ∧
     Pro.settings (Pro.export_selected out s).2 = Pro.settings s ∧
     Pro.selection (Pro.export_selected out s).2 = Pro.selection s).
Proof.
  split; [|split].
  - intros out images keys v2 s.
    apply (download_preserves (fun st => Gui.ui s `prefix_of` Gui.ui st));
      [done| |done].
    intros s0 lg u Hs. simpl. by apply prefix_app_r.
  - intros folder s.
    assert (Kivy.extracted (Kivy._do_save folder s).2 = Kivy.extracted s ∧
            Kivy.container (Kivy._do_save folder s).2 = Kivy.container s)
      as [He Hc].
    { by apply (do_save_preserves
                  (fun st => Kivy.extracted st = Kivy.extracted s ∧
                             Kivy.container st = Kivy.container s)). }
    split; [done|]. split; [done|]. unfold Kivy.selection. by rewrite He.
  - intros out s.
    assert (Pro.thumbs (Pro.export_selected out s).2 = Pro.thumbs s ∧
            Pro.grid (Pro.export_selected out s).2 = Pro.grid s ∧
            Pro.settings (Pro.export_selected out s).2 = Pro.settings s)
      as (Ht & Hg & Hs).
    { by apply (export_selected_preserves
                  (fun st => Pro.thumbs st = Pro.thumbs s ∧
                             Pro.grid st = Pro.grid s ∧
                             Pro.settings st = Pro.settings s)). }
    split; [done|]. split; [done|]. split; [done|].
    unfold Pro.selection. by rewrite Ht.
Qed.


(** C6 (as amended).  Each program has its own default file name for the
    record with page p and index i: [extract_images_gui.py] writes
    [img_p{p}_i{i}.png], [main.py] writes [p{p}_i{i}.png], and
    [extractor_pro.py], whose default pattern is [img_P{page}_I{idx}.png],
    writes [img_P{p}_I{i}.png]; each is written directly in the destination
    directory.  (In [main.py] the name is made from the zero-based counters
    of the harvest loops, one added to each.) *)
Theorem default_file_names (p i : nat) :
  (∀ out,
     Os.resolve (Os.os_path_join out (Gui.file_name p i)) =
     Os.resolve out ++
       ["img_p" +:+ str_of_nat p +:+ "_i" +:+ str_of_nat i +:+ ".png"]) ∧
  (∀ folder,
     Os.resolve (Os.os_path_join folder (Kivy.item_name p i)) =
     Os.resolve folder ++
       ["p" +:+ str_of_nat (p + 1) +:+ "_i" +:+ str_of_nat (i + 1)
            +:+ ".png"]) ∧
  (∀ doc pdf s0 s1,
     Fitz.open (Kivy.fs s0) pdf = Ok doc →
     Kivy.extract_images pdf s0 = (Ok tt, s1) →
     Kivy.named <$> Kivy.extracted s1 =
     (fun r : nat * nat * bytes =>
        ("p" +:+ str_of_nat (page_number r) +:+ "_i"
             +:+ str_of_nat (image_index r) +:+ ".png", raw_bytes r))
       <$> records doc) ∧
  (∀ b out,
     Pro.rendered Pro.default_pattern
                  (Pro.mkCheckBox (Pro.checkbox_text p i) b)
     = Ok ("img_P" +:+ str_of_nat p +:+ "_I" +:+ str_of_nat i +:+ ".png") ∧
     Os.resolve (Os.os_path_join out (Pro.default_file_name p i)) =
     Os.resolve out ++
       ["img_P" +:+ str_of_nat p +:+ "_I" +:+ str_of_nat i +:+ ".png"]) ∧
  (∀ images s0 s1,
     Pro.display_thumbs images s0 = (Ok tt, s1) →
     Pro.thumbs s1 =
     (fun r : nat * nat * bytes =>
        (Pro.mkCheckBox (Pro.checkbox_text (page_number r) (image_index r))
                        false, raw_bytes r)) <$> images ∧
     Pro.pattern (Pro.settings s1) = Pro.pattern (Pro.settings s0)).
Proof.
  split; [|split; [|split; [|split]]].
  - intros out. by rewrite (resolve_join _ _ (gui_file_name_plain p i)).
  - intros folder. by rewrite (resolve_join _ _ (kivy_item_name_plain p i)).
  - intros doc pdf s0 s1 Hopen Hext.
    by rewrite (KivyExport.extracted_named pdf s0 doc s1 Hopen Hext).
  - intros b out. split; [apply ProExport.rendered_default|].
    by rewrite (resolve_join _ _ (pro_file_name_plain p i)).
  - intros images s0 s1 Hdisp.
    destruct (ProExport.display_thumbs_inv _ _ _ Hdisp) as (Hth & _ & Hset).
    split; [|by rewrite Hset]. rewrite Hth. apply list_fmap_ext.
    by intros _ [[? ?] ?] _.
Qed.

End WithLibraries.



(** The spec's own example: of the records (1,1), (1,2), (3,1) only (1,2)
    is ticked, and the export goes to [out/]. *)
Lemma export_writes_selection_witness :
  ∃ keys s s',
    Gui.build_selection_window (H0 := Sample.imaging)
      (records Sample.doc_three_pages) (Gui.mkState Sample.disk [] [])
    = (Ok keys, s) ∧
    Gui.download "out/" (records Sample.doc_three_pages) keys
                 {[ "-CHK1-" := true ]} s = (Ok tt, s') ∧
    Os.exported (Gui.fs s) (Gui.fs s') "out/"
                [("img_p1_i2.png", Sample.png [Byte.x02])] ∧
    Os.resolve "out/" ++ ["img_p1_i2.png"] = ["out"; "img_p1_i2.png"].
Proof.
  destruct (@export_writes_selection Sample.parser Sample.imaging
              Sample.doc_three_pages) as [Hgui _].
  eexists _, _, _. split; [vm_compute; reflexivity|].
  split; [vm_compute; reflexivity|]. split; [|reflexivity].
  refine (proj1 (Hgui "out/" {[ "-CHK1-" := true ]}
                      (Gui.mkState Sample.disk [] []) _ _ _ _ _)).
  - vm_compute. reflexivity.
  - vm_compute. reflexivity.
Defined.

(** C2, counterexample: [extractor_pro.py] with the pattern set to
    [image.png] in the settings dialog.  Of the session (1,1), (1,2), (3,1)
    the first two records are ticked; the export reports 2 of 2, and has
    written one file, [out/image.png], which holds the bytes of (1,2): the
    bytes of (1,1) are in no file. *)
Lemma export_writes_selection_counterexample :
  (Pro.selection Sample.pro_one_name).*2
    = [Sample.png [Byte.x01]; Sample.png [Byte.x02]] ∧
  (Pro.export_selected "out" Sample.pro_one_name).1 = Ok tt ∧
  last (Pro.logView (Pro.export_selected "out" Sample.pro_one_name).2)
    = Some "Exported 2/2 images" ∧
  Os.nodes (Pro.fs (Pro.export_selected "out" Sample.pro_one_name).2) =
    <[ ["out"; "image.png"] := Os.File (Sample.png [Byte.x02]) ]>
      (Os.nodes Sample.disk).
Proof.
  split; [vm_compute; reflexivity|]. split; [vm_compute; reflexivity|].
  split; vm_compute; reflexivity.
Qed.

(** All three records of the spec's example are ticked and the second
    file may not be written: the first file is on disk, the download
    raises. *)
Lemma export_stops_at_failure_witness :
  ∃ lg,
    Gui.download "out" (records Sample.doc_three_pages)
      (Gui.keys_from 0 3) Sample.all_ticked
      (Gui.mkState Sample.disk_denied [] [])
    = (Raise PermissionError,
       Gui.mkState
         (Os.mkFS (<[ ["out"; "img_p1_i1.png"]
                      := Os.File (Sample.png [Byte.x01]) ]> Sample.files)
                  (Os.denied Sample.disk_denied))
         lg []).
Proof.
  destruct (@export_stops_at_failure Sample.parser Sample.imaging)
    as [Hgui _].
  refine (Hgui "out" [(1, 1, Sample.png [Byte.x01])] 1 2
               (Sample.png [Byte.x02]) [(3, 1, Sample.png [Byte.x03])]
               Sample.all_ticked (Gui.mkState Sample.disk_denied [] [])
               _ PermissionError _ _ _).
  - vm_compute. reflexivity.
  - vm_compute. reflexivity.
  - vm_compute. reflexivity.
Defined.

(** C3, counterexample: one run of [extract_images_gui.py] on the spec's
    example with every record ticked, on a disk where the file of (1,2)
    may not be written.  The run ends in the error popup; the file of (3,1),
    which comes after the failing one, is not written, and no count is
    shown. *)
Lemma export_stops_at_failure_counterexample :
  (Gui.main (H := Sample.parser) (H0 := Sample.imaging)
     Sample.load_then_download (Gui.mkState Sample.disk_denied [] [])).1
    = Ok tt ∧
  last (Gui.ui (Gui.main (H := Sample.parser) (H0 := Sample.imaging)
                  Sample.load_then_download
                  (Gui.mkState Sample.disk_denied [] [])).2)
    = Some (Gui.PopupError "Unexpected error: PermissionError") ∧
  Os.nodes (Gui.fs (Gui.main (H := Sample.parser) (H0 := Sample.imaging)
                      Sample.load_then_download
                      (Gui.mkState Sample.disk_denied [] [])).2)
    = <[ ["out"; "img_p1_i1.png"] := Os.File (Sample.png [Byte.x01]) ]>
        Sample.files.
Proof.
  split; [vm_compute; reflexivity|]. split; vm_compute; reflexivity.
Qed.





(** The record (1,2) and the directory [out/]. *)
Lemma default_file_names_witness :
  Fitz.open (H := Sample.parser) Sample.disk "three.pdf"
    = Ok Sample.doc_three_pages ∧
  Os.resolve (Os.os_path_join "out/" (Gui.file_name 1 2))
    = ["out"; "img_p1_i2.png"] ∧
  Kivy.name <$>
    Kivy.extracted
      (Kivy.extract_images (H := Sample.parser) (H0 := Sample.imaging)
         "three.pdf" (Kivy.mkState Sample.disk [] [] None [])).2
    = ["p1_i1.png"; "p1_i2.png"; "p3_i1.png"].
Proof.
  assert (Fitz.open (H := Sample.parser) Sample.disk "three.pdf"
          = Ok Sample.doc_three_pages) as Hopen by (vm_compute; reflexivity).
  split; [exact Hopen|].
  destruct (@default_file_names Sample.parser Sample.imaging 1 2)
    as (Hgui & _ & Hkivy & _).
  split; [exact (Hgui "out/")|].
  pose proof (Hkivy Sample.doc_three_pages "three.pdf"
                (Kivy.mkState Sample.disk [] [] None []) _ Hopen
                ltac:(vm_compute; reflexivity)) as Hnames.
  apply (f_equal (fmap fst)) in Hnames.
  rewrite <- !list_fmap_compose in Hnames. exact Hnames.
Defined.

(** C6, counterexample: only the record (1,2) of the spec's example is
    ticked and the export goes to [out/].  [main.py] writes [out/p1_i2.png]
    and [extractor_pro.py] writes [out/img_P1_I2.png]; after either export
    there is no [out/img_p1_i2.png]. *)
Lemma default_file_names_counterexample :
  (Kivy._do_save "out/" Sample.kivy_second_ticked).1 = Ok tt ∧
  Os.nodes (Kivy.fs (Kivy._do_save "out/" Sample.kivy_second_ticked).2)
    = <[ ["out"; "p1_i2.png"] := Os.File (Sample.png [Byte.x02]) ]>
        Sample.files ∧
  Os.file_at (Kivy.fs (Kivy._do_save "out/" Sample.kivy_second_ticked).2)
             ["out"; "img_p1_i2.png"] = None ∧
  (Pro.export_selected "out/" Sample.pro_second_ticked).1 = Ok tt ∧
  Os.nodes (Pro.fs (Pro.export_selected "out/" Sample.pro_second_ticked).2)
    = <[ ["out"; "img_P1_I2.png"] := Os.File (Sample.png [Byte.x02]) ]>
        Sample.files ∧
  Os.file_at (Pro.fs (Pro.export_selected "out/" Sample.pro_second_ticked).2)
             ["out"; "img_p1_i2.png"] = None.
Proof.
  split; [vm_compute; reflexivity|]. split; [vm_compute; reflexivity|].
  split; [vm_compute; reflexivity|]. split; [vm_compute; reflexivity|].
  split; vm_compute; reflexivity.
Qed.

(** A two-page PDF without images. *)
Lemma empty_session_is_not_an_error_witness :
  Fitz.open (H := Sample.parser) Sample.disk "empty.pdf"
    = Ok Sample.doc_no_images ∧
  image_count Sample.doc_no_images = 0 ∧
  Gui.extract_images_from_pdf (H := Sample.parser) "empty.pdf"
    (Gui.mkState Sample.disk [] []) =
  (Ok [], Gui.mkState Sample.disk
            ["Opening PDF: empty.pdf"; "Found 0 images in PDF"] []).
Proof.
  assert (Fitz.open (H := Sample.parser) Sample.disk "empty.pdf"
          = Ok Sample.doc_no_images) as Hopen by (vm_compute; reflexivity).
  split; [exact Hopen|]. split; [reflexivity|].
  exact (proj1 (@empty_session_is_not_an_error Sample.parser Sample.imaging
                  (Gui.mkState Sample.disk [] []) "empty.pdf"
                  Sample.doc_no_images Hopen eq_refl)).
Defined.

(** The spec's own example again: the indices of page 1 are 1, 2, page 2
    has none, the index of page 3 is 1. *)
Lemma index_ranges_witness :
  Fitz.open (H := Sample.parser) Sample.disk "three.pdf"
    = Ok Sample.doc_three_pages ∧
  image_index <$> filter (fun r => page_number r = 1)
                         (records Sample.doc_three_pages) = [1; 2] ∧
  image_index <$> filter (fun r => page_number r = 2)
                         (records Sample.doc_three_pages) = [] ∧
  image_index <$> filter (fun r => page_number r = 3)
                         (records Sample.doc_three_pages) = [1].
Proof.
  assert (Fitz.open (H := Sample.parser) Sample.disk "three.pdf"
          = Ok Sample.doc_three_pages) as Hopen by (vm_compute; reflexivity).
  split; [exact Hopen|].
  destruct (@index_ranges Sample.parser Sample.doc_three_pages
              (records Sample.doc_three_pages)) as (Hidx & _).
  { left. exists (Gui.mkState Sample.disk [] []), "three.pdf".
    eexists. split; [exact Hopen|]. vm_compute. reflexivity. }
  split; [exact (Hidx 0 _ eq_refl)|]. split; [exact (Hidx 1 _ eq_refl)|].
  exact (Hidx 2 _ eq_refl).
Defined.

(** C7, counterexample: a PDF whose first page holds no image.  The first
    record of the session is (2, 1): its page_number is not 1. *)
Lemma index_ranges_counterexample :
  Fitz.open (H := Sample.parser) Sample.disk "blank.pdf"
    = Ok Sample.doc_blank_first ∧
  valid Sample.doc_blank_first ∧
  (Gui.extract_images_from_pdf (H := Sample.parser) "blank.pdf"
     (Gui.mkState Sample.disk [] [])).1
  = Ok [(2, 1, Sample.png [Byte.x01])] ∧
  (Pro.run (H := Sample.parser) Sample.disk "blank.pdf" []).2
  = [Pro.progressChanged 1 2; Pro.progressChanged 2 2;
     Pro.finished [(2, 1, Sample.png [Byte.x01])]].
Proof.
  split; [vm_compute; reflexivity|]. split; [by_compute|].
  split; vm_compute; reflexivity.
Qed.

End Claims.

(** * Further properties of the three programs *)

(** ** Loops that skip, loops that keep *)

Lemma for_fold_skip {St A B} (l : list A) (acc : B) (body : B → A → M St B) s :
  (∀ x, x ∈ l → ∀ a s0, body a x s0 = (Ok a, s0)) →
  for_fold l acc body s = (Ok acc, s).
Proof.
  induction l as [|x l IH]; intros Hskip; [done|].
  rewrite for_fold_cons, Hskip by (by left).
  apply IH. intros y Hy. apply Hskip. by right.
Qed.


Module Behaviour.
Import Fitz Session SessionFacts.



(** X2.  The label of a tile in [extractor_pro.py] carries the record's
    page and index, and the export reads them back: for the checkbox
    [display_thumbs] labels [P{page}-I{idx}], [export_selected]'s
    [chk.text().split('-')[0][1:]] and [...[1][1:]] are str(page) and
    str(idx), so the file name is the pattern formatted with exactly these
    two, whatever the pattern.  A label without a dash has no second part:
    reading it raises [IndexError]. *)
Theorem label_round_trip (page idx : nat) (b : bool) :
  Pro.label_part (Pro.mkCheckBox (Pro.checkbox_text page idx) b) 0
    = Ok (str_of_nat page) ∧
  Pro.label_part (Pro.mkCheckBox (Pro.checkbox_text page idx) b) 1
    = Ok (str_of_nat idx) ∧
  (∀ pat,
     Pro.rendered pat (Pro.mkCheckBox (Pro.checkbox_text page idx) b)
     = str_format pat {[ "page" := str_of_nat page;
                         "idx" := str_of_nat idx ]}) ∧
  (∀ t pat, lacks "-" t = true →
     Pro.rendered pat (Pro.mkCheckBox t b) = Raise IndexError).
Proof.
  destruct (pro_label_parts page idx b) as [H0 H1].
  split; [exact H0|]. split; [exact H1|]. split.
  - intros pat. unfold Pro.rendered. by rewrite H0, H1.
  - intros t pat Ht. unfold Pro.rendered, Pro.label_part. cbn [Pro.text].
    by rewrite (split_on_lacks _ _ Ht).
Qed.

Lemma label_round_trip_witness :
  Pro.rendered "{idx}-of-page-{page}.png"
               (Pro.mkCheckBox (Pro.checkbox_text 3 12) true)
    = Ok "12-of-page-3.png" ∧
  Pro.rendered "x" (Pro.mkCheckBox "P3" false) = Raise IndexError.
Proof.
  destruct (label_round_trip 3 12 true) as (_ & _ & Hren & Hbad).
  split.
  - rewrite Hren. vm_compute. reflexivity.
  - apply Hbad. vm_compute. reflexivity.
Defined.

(** X3.  An export with nothing ticked writes no file and reports zero.
    [extract_images_gui.py] shows [0 images saved to out], with the disk and
    the log as they were; [main.py] still makes the folder when it is not
    there, then shows [Saved 0 image(s).]; [extractor_pro.py] sets the
    progress bar's maximum to 0 and logs [Exported 0/0 images], whatever
    the destination and the pattern are. *)
Theorem export_of_nothing :
  (∀ out images keys v2 s,
     Forall (fun k : string * nat => v2 !! k.1 ≠ Some true) keys →
     Gui.download out images keys v2 s =
     (Ok tt,
      Gui.mkState (Gui.fs s) (Gui.log s)
        (Gui.ui s ++ [Gui.Popup ["Done"; "0 images saved to " +:+ out]]))) ∧
  (∀ folder s fs0 title,
     Forall (fun it => Kivy.active (Kivy.checkbox it) = false)
            (Kivy.extracted s) →
     Kivy._save_popup s = Some title →
     (if Os.os_path_exists (Kivy.fs s) folder then Ok (Kivy.fs s)
      else Os.os_makedirs (Kivy.fs s) folder false) = Ok fs0 →
     Kivy._do_save folder s =
     (Ok tt,
      Kivy.mkState fs0 (Kivy.container s) (Kivy.extracted s) (Some title)
        (Kivy.ui s ++ [Kivy.PopupDismiss title;
                       Kivy.PopupOpen "Done" "Saved 0 image(s)."]))) ∧
  (∀ out s,
     out ≠ "" →
     Forall (fun t => Pro.isChecked t.1 = false) (Pro.thumbs s) →
     Pro.export_selected out s =
     (Ok tt,
      Pro.mkState (Pro.fs s) (Pro.thumbs s) (Pro.grid s)
        (Pro.btnExport_enabled s) 0 (Pro.progress_value s)
        (Pro.logView s ++ ["Exporting to " +:+ out; "Exported 0/0 images"])
        (Pro.settings s))).
Proof.
  split; [|split].
  - intros out images keys v2 s Hno. unfold Gui.download. run_m.
    rewrite for_fold_skip.
    + unfold Gui.show. run_m. done.
    + intros [key idx] Hk a s0. rewrite Forall_forall in Hno.
      specialize (Hno _ Hk). simpl in Hno.
      by destruct (v2 !! key) as [[]|].
  - intros folder s fs0 title Hno Hpop Hdir. unfold Kivy._do_save. run_m.
    assert (∀ it, it ∈ Kivy.extracted s → ∀ (a : nat) (s0 : Kivy.state),
              (if Kivy.active (Kivy.checkbox it)
               then Kivy.with_fs
                      (fun fs => Os.open_wb_write fs
                         (Os.os_path_join folder (Kivy.name it))
                         (Kivy.img_data it)) ≫= fun _ => mret (a + 1)
               else mret a) s0 = (Ok a, s0)) as Hskip.
    { intros it Hit a s0. rewrite Forall_forall in Hno.
      by rewrite (Hno _ Hit). }
    destruct (Os.os_path_exists (Kivy.fs s) folder); cbn [negb].
    + injection Hdir as <-. run_m. rewrite for_fold_skip by exact Hskip.
      rewrite Hpop. unfold Kivy.show. run_m.
      cbn [Kivy.fs Kivy.container Kivy.extracted Kivy._save_popup Kivy.ui].
      rewrite ?Hpop, <- app_assoc. reflexivity.
    + unfold Kivy.with_fs at 1. rewrite Hdir. run_m. cbn [Kivy.extracted].
      rewrite for_fold_skip by exact Hskip.
      cbn [Kivy._save_popup]. rewrite Hpop. unfold Kivy.show. run_m.
      cbn [Kivy.fs Kivy.container Kivy.extracted Kivy._save_popup Kivy.ui].
      rewrite ?Hpop, <- app_assoc. reflexivity.
  - intros out s Hout Hno. unfold Pro.export_selected.
    destruct out as [|c out]; [done|]. cbn [str_empty].
    unfold Pro._log, Pro.set_progress. run_m. cbn [Pro.thumbs].
    rewrite for_fold_skip.
    + rewrite filter_none.
      * cbn. by rewrite <- app_assoc.
      * eapply Forall_impl; [exact Hno|]. intros [chk d] Hc. simpl in *.
        congruence.
    + intros [chk d] Ht a s0. rewrite Forall_forall in Hno.
      specialize (Hno _ Ht). simpl in Hno. by rewrite Hno.
Qed.

(** The three-page example with no checkbox ticked. *)
Lemma export_of_nothing_witness :
  Gui.download "out" (records Sample.doc_three_pages) (Gui.keys_from 0 3) ∅
               (Gui.mkState Sample.disk [] []) =
  (Ok tt, Gui.mkState Sample.disk []
            [Gui.Popup ["Done"; "0 images saved to out"]]).
Proof.
  destruct export_of_nothing as [Hgui _].
  apply (Hgui "out" (records Sample.doc_three_pages) (Gui.keys_from 0 3) ∅
              (Gui.mkState Sample.disk [] [])).
  by_compute.
Defined.

(** X4.  In [extract_images_gui.py] the output folder is made before the
    PDF is opened: a [Load] whose file does not open as a PDF leaves the
    new folder on disk, and the run ends there, in the error popup, with
    the main window never closed. *)
Theorem load_makes_folder_first `{Fitz.Parser} `{Pil.Imaging}
    (e : Gui.event) (events : list Gui.event) (s : Gui.state)
    (pdf out : string) (fs1 : Os.FS) (err : exn) :
  Gui.evt e = Some "Load" →
  Gui.texts e !! "-PDF-" = Some pdf → Gui.texts e !! "-OUT-" = Some out →
  pdf ≠ "" → out ≠ "" →
  Os.os_path_isfile (Gui.fs s) pdf = true →
  Os.os_makedirs (Gui.fs s) out true = Ok fs1 →
  Fitz.open fs1 pdf = Raise err →
  Gui.main (e :: events) s =
  (Ok tt,
   Gui.mkState fs1
     (Gui.log s ++ ["Opening PDF: " +:+ pdf; "Application error"])
     (Gui.ui s ++ [Gui.MainWindow;
                   Gui.PopupError ("Unexpected error: " +:+ Gui.exn_name err)])).
Proof.
  intros Hevt Hpdf Hout Hpdf0 Hout0 Hfile Hmk Hopen.
  unfold Gui.main, try_except, Gui.build_main_window. run_m.
  unfold Gui.show at 1. run_m.
  cbn [Gui.main_loop]. rewrite Hevt.
  rewrite decide_False by (intros [?|?]; congruence).
  rewrite decide_True by done.
  unfold Fitz.getitem. rewrite Hpdf, Hout. run_m.
  destruct pdf as [|c pdf]; [done|]. destruct out as [|c' out]; [done|].
  cbn [str_empty orb Gui.fs]. rewrite Hfile. cbn [negb].
  unfold Gui.with_fs at 1. cbn [Gui.fs]. rewrite Hmk.
  unfold Gui.extract_images_from_pdf, Gui.logging_info, Gui.show. run_m.
  cbn [Gui.fs Gui.log Gui.ui]. rewrite Hopen.
  cbn [Gui.fs Gui.log Gui.ui]. by rewrite <- !app_assoc.
Qed.

(** A file that is there and is no PDF, and an output folder that is not
    there yet. *)
Lemma load_makes_folder_first_witness :
  Os.path_isdir
    (Gui.fs (Gui.main (H := Sample.parser) (H0 := Sample.imaging)
               [Gui.mkEvent (Some "Load")
                  {[ "-PDF-" := "notes.txt"; "-OUT-" := "new/dir" ]} ∅]
               (Gui.mkState
                  (Os.mkFS (<[ ["notes.txt"] := Os.File [] ]> Sample.files) ∅)
                  [] [])).2)
    ["new"; "dir"] = true.
Proof.
  rewrite (@load_makes_folder_first Sample.parser Sample.imaging
             (Gui.mkEvent (Some "Load")
                {[ "-PDF-" := "notes.txt"; "-OUT-" := "new/dir" ]} ∅) []
             (Gui.mkState
                (Os.mkFS (<[ ["notes.txt"] := Os.File [] ]> Sample.files) ∅)
                [] [])
             "notes.txt" "new/dir"
             (Os.mkFS (<[ ["new"; "dir"] := Os.Dir ]>
                         (<[ ["new"] := Os.Dir ]>
                            (<[ ["notes.txt"] := Os.File [] ]> Sample.files)))
                      ∅)
             FileDataError);
    try (vm_compute; reflexivity); done.
Defined.

(** X5.  [extract_images_gui.py] touches the disk only through a [Load]
    that names an existing file and an output folder.  A run whose events
    hold no such [Load] (other buttons, [Load] with an empty field or with a
    path that is no file, [Load] without its fields) leaves the disk and the
    log as they were, whether its loop returns or raises. *)
Theorem idle_run_leaves_disk `{Fitz.Parser} `{Pil.Imaging}
    (events : list Gui.event) (s : Gui.state) :
  Forall (fun e =>
            Gui.evt e = Some "Load" →
            ∀ pdf out,
              Gui.texts e !! "-PDF-" = Some pdf →
              Gui.texts e !! "-OUT-" = Some out →
              pdf = "" ∨ out = "" ∨ Os.os_path_isfile (Gui.fs s) pdf = false)
         events →
  Gui.fs (Gui.main_loop events s).2 = Gui.fs s ∧
  Gui.log (Gui.main_loop events s).2 = Gui.log s.
Proof.
  intros Hidle.
  assert (∀ s0, Gui.fs s0 = Gui.fs s → Gui.log s0 = Gui.log s →
                Gui.fs (Gui.main_loop events s0).2 = Gui.fs s ∧
                Gui.log (Gui.main_loop events s0).2 = Gui.log s) as Hgen;
    [|by apply Hgen].
  induction Hidle as [|e events He _ IH]; intros s0 Hfs Hlog; [done|].
  cbn [Gui.main_loop].
  destruct (decide (Gui.evt e = None ∨ Gui.evt e = Some "Exit")); [done|].
  destruct (decide (Gui.evt e = Some "Load")) as [Hload|]; [|by apply IH].
  unfold Fitz.getitem. run_m.
  destruct (Gui.texts e !! "-PDF-") as [pdf|] eqn:Hpdf; [|done].
  destruct (Gui.texts e !! "-OUT-") as [out|] eqn:Hout; [|done].
  destruct (str_empty pdf || str_empty out) eqn:Hempty.
  { unfold Gui.show at 1. run_m. by apply IH. }
  apply orb_false_iff in Hempty as [Hp Ho].
  rewrite Hfs.
  destruct (He Hload pdf out eq_refl eq_refl) as [->|[->|Hnofile]]; [done..|].
  rewrite Hnofile. cbn [negb]. unfold Gui.show at 1. run_m. by apply IH.
Qed.

Lemma idle_run_leaves_disk_witness :
  Gui.fs (Gui.main_loop (H := Sample.parser) (H0 := Sample.imaging)
            [Gui.mkEvent (Some "Load")
               {[ "-PDF-" := "gone.pdf"; "-OUT-" := "new" ]} ∅;
             Gui.mkEvent (Some "Load") {[ "-PDF-" := "three.pdf";
                                          "-OUT-" := "" ]} ∅;
             Gui.mkEvent (Some "Exit") ∅ ∅]
            (Gui.mkState Sample.disk [] [])).2
  = Sample.disk.
Proof.
  apply (@idle_run_leaves_disk Sample.parser Sample.imaging
           _ (Gui.mkState Sample.disk [] [])).
  repeat apply Forall_cons_2; [..|apply Forall_nil_2].
  - intros _ pdf out [= <-] [= <-]. right. right. vm_compute. reflexivity.
  - intros _ pdf out [= <-] [= <-]. right. by left.
  - intros [=].
Defined.

(** X6.  The two event loops of [extract_images_gui.py] skip the events
    they have no branch for, and read nothing after the event that ends
    them: on the main window anything but [Load], [Exit] and the window
    being closed is skipped; on the selection window anything but
    [Download], [Cancel] and the window being closed is skipped, [Cancel]
    and closing write nothing, and after one [Download] the run is over, so
    a run makes at most one export. *)
Theorem loops_read_until_closed `{Fitz.Parser} `{Pil.Imaging} :
  (∀ pre post s,
     Forall (fun e => ∃ k, Gui.evt e = Some k ∧ k ≠ "Exit" ∧ k ≠ "Load") pre →
     Gui.main_loop (pre ++ post) s = Gui.main_loop post s) ∧
  (∀ e post s,
     Gui.evt e = None ∨ Gui.evt e = Some "Exit" →
     Gui.main_loop (e :: post) s =
     (Ok tt, Gui.mkState (Gui.fs s) (Gui.log s)
                         (Gui.ui s ++ [Gui.WindowClosed false]))) ∧
  (∀ pre post out images keys s,
     Forall (fun e => ∃ k, Gui.evt e = Some k ∧ k ≠ "Cancel" ∧ k ≠ "Download")
            pre →
     Gui.selection_loop (pre ++ post) out images keys s =
     Gui.selection_loop post out images keys s) ∧
  (∀ e post out images keys s,
     Gui.evt e = None ∨ Gui.evt e = Some "Cancel" →
     Gui.selection_loop (e :: post) out images keys s =
     (Ok tt, Gui.mkState (Gui.fs s) (Gui.log s)
                         (Gui.ui s ++ [Gui.WindowClosed true]))) ∧
  (∀ e post out images keys s,
     Gui.evt e = Some "Download" →
     Gui.selection_loop (e :: post) out images keys s =
     Gui.selection_loop [e] out images keys s).
Proof.
  split; [|split; [|split; [|split]]].
  - intros pre post s Hpre. induction Hpre as [|e pre (k & Hk & Hx & Hl) _ IH];
      [done|].
    cbn [app Gui.main_loop]. rewrite Hk.
    rewrite decide_False by (intros [?|?]; congruence).
    by rewrite decide_False by congruence.
  - intros e post s He. cbn [Gui.main_loop]. by rewrite decide_True.
  - intros pre post out images keys s Hpre.
    induction Hpre as [|e pre (k & Hk & Hx & Hl) _ IH]; [done|].
    cbn [app Gui.selection_loop]. rewrite Hk.
    rewrite decide_False by (intros [?|?]; congruence).
    by rewrite decide_False by congruence.
  - intros e post out images keys s He. cbn [Gui.selection_loop].
    by rewrite decide_True.
  - intros e post out images keys s He. cbn [Gui.selection_loop]. rewrite He.
    rewrite decide_False by (intros [?|?]; congruence).
    by rewrite decide_True.
Qed.

(** A click on something else, then [Cancel], then a [Download] that is
    never read. *)
Lemma loops_read_until_closed_witness :
  Gui.selection_loop
    [Gui.mkEvent (Some "-CHK0-") ∅ ∅; Gui.mkEvent (Some "Cancel") ∅ ∅;
     Gui.mkEvent (Some "Download") ∅ Sample.all_ticked]
    "out" (records Sample.doc_three_pages) (Gui.keys_from 0 3)
    (Gui.mkState Sample.disk [] [])
  = (Ok tt, Gui.mkState Sample.disk [] [Gui.WindowClosed true]).
Proof.
  destruct (@loops_read_until_closed Sample.parser Sample.imaging)
    as (_ & _ & Hskip & Hcancel & _).
  etransitivity.
  - apply (Hskip [Gui.mkEvent (Some "-CHK0-") ∅ ∅]).
    apply Forall_singleton. by exists "-CHK0-".
  - apply Hcancel. by right.
Defined.

(** X7.  [main] of [extract_images_gui.py] lets no exception out.  Every
    run returns, and what it has shown last is a window being closed or,
    when something raised, the popup [Unexpected error: ...], with
    [Application error] the last line of its log. *)
Theorem main_never_raises `{Fitz.Parser} `{Pil.Imaging}
    (events : list Gui.event) (s : Gui.state) :
  (Gui.main events s).1 = Ok tt ∧
  ((∃ b, last (Gui.ui (Gui.main events s).2) = Some (Gui.WindowClosed b)) ∨
   (∃ e, last (Gui.ui (Gui.main events s).2)
           = Some (Gui.PopupError ("Unexpected error: " +:+ Gui.exn_name e)) ∧
         last (Gui.log (Gui.main events s).2) = Some "Application error")).
Proof.
  assert (∀ evs out images keys s0,
            (Gui.selection_loop evs out images keys s0).1 = Ok tt →
            ∃ b, last (Gui.ui (Gui.selection_loop evs out images keys s0).2)
                 = Some (Gui.WindowClosed b)) as Hsel.
  { induction evs as [|e evs IH]; intros out images keys s0.
    - intros _. exists true. cbn. apply last_snoc.
    - cbn [Gui.selection_loop].
      destruct (decide (Gui.evt e = None ∨ Gui.evt e = Some "Cancel")).
      { intros _. exists true. cbn. apply last_snoc. }
      destruct (decide (Gui.evt e = Some "Download")); [|apply IH].
      run_m. destruct (Gui.download _ _ _ _ _) as [[[]|ex] s1]; [|done].
      intros _. exists true. cbn. apply last_snoc. }
  assert (∀ evs s0,
            (Gui.main_loop evs s0).1 = Ok tt →
            ∃ b, last (Gui.ui (Gui.main_loop evs s0).2)
                 = Some (Gui.WindowClosed b)) as Hmain.
  { induction evs as [|e evs IH]; intros s0.
    - intros _. exists false. cbn. apply last_snoc.
    - cbn [Gui.main_loop].
      destruct (decide (Gui.evt e = None ∨ Gui.evt e = Some "Exit")).
      { intros _. exists false. cbn. apply last_snoc. }
      destruct (decide (Gui.evt e = Some "Load")); [|apply IH].
      run_m.
      destruct (Fitz.getitem (Gui.texts e) "-PDF-") as [pdf|]; [|done].
      destruct (Fitz.getitem (Gui.texts e) "-OUT-") as [out|]; [|done].
      destruct (str_empty pdf || str_empty out).
      { unfold Gui.show at 1. run_m. apply IH. }
      destruct (negb (Os.os_path_isfile (Gui.fs s0) pdf)).
      { unfold Gui.show at 1. run_m. apply IH. }
      destruct (Gui.with_fs _ s0) as [[[]|ex] s1]; [|done].
      destruct (Gui.extract_images_from_pdf pdf s1) as [[images|ex] s2];
        [|done].
      destruct images as [|r images].
      { unfold Gui.show at 1. run_m. apply IH. }
      unfold Gui.show. run_m.
      destruct (Gui.build_selection_window _ _) as [[keys|ex] s3]; [|done].
      exact (Hsel _ _ _ _ _). }
  assert (Gui.main events s =
          match Gui.main_loop events
                  (Gui.mkState (Gui.fs s) (Gui.log s)
                               (Gui.ui s ++ [Gui.MainWindow])) with
          | (Ok a, s') => (Ok a, s')
          | (Raise e, s') =>
              (Ok tt,
               Gui.mkState (Gui.fs s') (Gui.log s' ++ ["Application error"])
                 (Gui.ui s' ++ [Gui.PopupError
                                  ("Unexpected error: " +:+ Gui.exn_name e)]))
          end) as ->.
  { unfold Gui.main, try_except, Gui.build_main_window, Gui.show,
      Gui.logging_info. run_m.
    by destruct (Gui.main_loop events _) as [[[]|e] s1]. }
  match goal with
  | |- context [Gui.main_loop events ?s0] =>
      specialize (Hmain events s0);
      destruct (Gui.main_loop events s0) as [[[]|e] s1]
  end.
  - split; [done|]. left. by apply Hmain.
  - split; [done|]. right. exists e. cbn [snd Gui.ui Gui.log].
    by rewrite !last_snoc.
Qed.

(** ** What a record holds *)

Lemma page_entries_elem p k0 es x :
  x ∈ page_entries p k0 es ↔
  ∃ k e, es !! k = Some e ∧ x = (p, k0 + k, e).
Proof.
  unfold page_entries. revert k0.
  induction es as [|e0 es IH]; intros k0; cbn [enumerate_from fmap list_fmap].
  - split; [by intros ?%elem_of_nil|]. by intros (k & e & ? & _).
  - rewrite elem_of_cons, IH. split.
    + intros [->|(k & e & Hk & ->)].
      * exists 0, e0. split; [done|]. by rewrite Nat.add_0_r.
      * exists (S k), e. split; [done|]. f_equal. f_equal. lia.
    + intros ([|k] & e & Hk & ->).
      * left. injection Hk as <-. by rewrite Nat.add_0_r.
      * right. exists k, e. split; [done|]. f_equal. f_equal. lia.
Qed.

Lemma pages_entries_elem p pgs x :
  x ∈ pages_entries p pgs ↔
  ∃ q pg k e, pgs !! q = Some pg ∧ pg !! k = Some e ∧ x = (p + q, k, e).
Proof.
  revert p. induction pgs as [|pg0 pgs IH]; intros p; cbn [pages_entries].
  - split; [by intros ?%elem_of_nil|]. by intros (q & pg & k & e & ? & _).
  - rewrite elem_of_app, page_entries_elem, IH. split.
    + intros [(k & e & Hk & ->)|(q & pg & k & e & Hq & Hk & ->)].
      * exists 0, pg0, k, e. split; [done|]. split; [done|].
        by rewrite Nat.add_0_r.
      * exists (S q), pg, k, e. split; [done|]. split; [done|].
        f_equal. f_equal. lia.
    + intros ([|q] & pg & k & e & Hq & Hk & ->).
      * left. injection Hq as <-. exists k, e. split; [done|].
        by rewrite Nat.add_0_r.
      * right. exists q, pg, k, e. split; [done|]. split; [done|].
        f_equal. f_equal. lia.
Qed.

Lemma records_elem doc r :
  r ∈ records doc ↔
  ∃ q pg k e, pages doc !! q = Some pg ∧ pg !! k = Some e ∧
              r = (q + 1, k + 1, stream_of doc e).
Proof.
  unfold records, entries. rewrite list_elem_of_fmap. split.
  - intros (x & -> & (q & pg & k & e & Hq & Hk & ->)%pages_entries_elem).
    by exists q, pg, k, e.
  - intros (q & pg & k & e & Hq & Hk & ->). exists (q, k, e). split; [done|].
    apply pages_entries_elem. by exists q, pg, k, e.
Qed.

(** X8.  A record holds the image its page refers to.  In the session the
    harvester of [extract_images_gui.py] returns, the k-th image reference
    of the q-th page (both counted from 0) has the record (q+1, k+1, bytes)
    with the bytes of the stream its xref names, and every record is the
    record of one such reference.  References are not merged: an image that
    several pages, or one page several times, refer to has one record per
    reference, each with the same bytes. *)
Theorem record_holds_its_image `{Fitz.Parser} (s s' : Gui.state)
    (pdf : string) (doc : Document) (images : list (nat * nat * bytes)) :
  Fitz.open (Gui.fs s) pdf = Ok doc →
  Gui.extract_images_from_pdf pdf s = (Ok images, s') →
  (∀ q pg k e, pages doc !! q = Some pg → pg !! k = Some e →
     ∃ b, streams doc !! xref e = Some b ∧ (q + 1, k + 1, b) ∈ images) ∧
  (∀ p i b, (p, i, b) ∈ images →
     1 ≤ p ∧ 1 ≤ i ∧
     ∃ pg e, pages doc !! (p - 1) = Some pg ∧ pg !! (i - 1) = Some e ∧
             streams doc !! xref e = Some b).
Proof.
  intros Hopen Hrun.
  destruct (gui_extract_inv _ _ _ _ _ Hopen Hrun) as (Hv & -> & _).
  assert (∀ q pg k e, pages doc !! q = Some pg → pg !! k = Some e →
            streams doc !! xref e = Some (stream_of doc e)) as Hres.
  { intros q pg k e Hq Hk. unfold valid in Hv. rewrite Forall_forall in Hv.
    specialize (Hv pg (list_elem_of_lookup_2 _ _ _ Hq)).
    rewrite Forall_forall in Hv.
    destruct (Hv e (list_elem_of_lookup_2 _ _ _ Hk)) as [b Hb].
    unfold stream_of. by rewrite Hb. }
  split.
  - intros q pg k e Hq Hk. exists (stream_of doc e).
    split; [by eapply Hres|]. apply records_elem. by exists q, pg, k, e.
  - intros p i b (q & pg & k & e & Hq & Hk & [= -> -> ->])%records_elem.
    split; [lia|]. split; [lia|]. exists pg, e.
    replace (q + 1 - 1) with q by lia. replace (k + 1 - 1) with k by lia.
    split; [done|]. split; [done|]. by eapply Hres.
Qed.

(** The second image of the first page of the three-page example. *)
Lemma record_holds_its_image_witness :
  ∃ b, streams Sample.doc_three_pages !! 11 = Some b ∧
       (1, 2, b) ∈ records Sample.doc_three_pages.
Proof.
  assert (Fitz.open (H := Sample.parser) Sample.disk "three.pdf"
          = Ok Sample.doc_three_pages) as Hopen by (vm_compute; reflexivity).
  destruct (@record_holds_its_image Sample.parser
              (Gui.mkState Sample.disk [] [])
              (Gui.mkState Sample.disk
                 ["Opening PDF: three.pdf"; "Found 3 images in PDF"] [])
              "three.pdf" Sample.doc_three_pages
              (records Sample.doc_three_pages) Hopen
              ltac:(vm_compute; reflexivity)) as [Hrec _].
  exact (Hrec 0 _ 1 (Sample.entry 11) eq_refl eq_refl).
Defined.

(** ** Writing the same files again *)

Lemma write_path_writable fs p d :
  Os.writable fs p →
  Os.write_path fs p d
  = Ok (Os.mkFS (<[p := Os.File d]> (Os.nodes fs)) (Os.denied fs)).
Proof.
  intros (Hp & Hpar & Hnd & Hden). unfold Os.write_path, Os.path_isdir in *.
  destruct p as [|x p]; [done|].
  destruct (Os.lookup_node fs (Os.parent (x :: p))) as [[|?]|]; try done.
  destruct (Os.lookup_node fs (x :: p)) as [[|?]|]; try done;
    by rewrite decide_False.
Qed.

Lemma write_path_inv_writable fs p d fs' :
  Os.write_path fs p d = Ok fs' →
  Os.writable fs p ∧
  fs' = Os.mkFS (<[p := Os.File d]> (Os.nodes fs)) (Os.denied fs).
Proof.
  intros (Hp & Hpar & Hnd & Hden & ->)%OsFacts.write_path_ok.
  split; [|done]. unfold Os.writable, Os.path_isdir. rewrite Hpar.
  split; [done|]. split; [done|]. split; [|done].
  by destruct (Os.lookup_node fs p) as [[|?]|].
Qed.

Lemma writable_same fs fs' q :
  (∀ p, Os.path_isdir fs' p = Os.path_isdir fs p) →
  Os.denied fs' = Os.denied fs →
  Os.writable fs' q ↔ Os.writable fs q.
Proof. intros Hd Hden. unfold Os.writable. by rewrite !Hd, Hden. Qed.

Lemma write_all_inv fs ws fs' :
  Os.write_all fs ws = Ok fs' →
  Forall (Os.writable fs) ws.*1 ∧
  fs' = Os.mkFS (foldl (fun m (w : Os.path * bytes) => <[w.1 := Os.File w.2]> m)
                       (Os.nodes fs) ws)
                (Os.denied fs).
Proof.
  revert fs fs'. induction ws as [|[p d] ws IH]; intros fs fs';
    cbn [Os.write_all].
  - intros [= <-]. split; [constructor|]. by destruct fs.
  - destruct (Os.write_path fs p d) as [fs1|e] eqn:Ew; [|done].
    intros Hrest. destruct (IH _ _ Hrest) as [Hws ->].
    destruct (write_path_inv_writable _ _ _ _ Ew) as [Hp Hfs1].
    split; [|by rewrite Hfs1]. cbn [fmap list_fmap fst]. constructor; [done|].
    eapply Forall_impl; [exact Hws|]. intros q Hq.
    apply (writable_same fs fs1 q); [| |exact Hq].
    + intros p0. by apply (OsFacts.write_path_isdir _ _ _ _ p0 Ew).
    + by rewrite Hfs1.
Qed.

Lemma write_all_of_writable fs ws :
  Forall (Os.writable fs) ws.*1 → ∃ fs', Os.write_all fs ws = Ok fs'.
Proof.
  revert fs. induction ws as [|[p d] ws IH]; intros fs; cbn [Os.write_all].
  - by eexists.
  - cbn [fmap list_fmap fst]. intros [Hp Hws]%Forall_cons.
    pose proof (write_path_writable fs p d Hp) as Ew. rewrite Ew.
    apply IH. eapply Forall_impl; [exact Hws|]. intros q Hq.
    apply (writable_same fs _ q); [|done..]. intros p0.
    by apply (OsFacts.write_path_isdir _ _ _ _ p0 Ew).
Qed.

Lemma insert_then_all {V} (m : gmap Os.path V) (ws : list (Os.path * V)) p v :
  <[p := v]> (foldl (fun m w => <[w.1 := w.2]> m) (<[p := v]> m) ws)
  = <[p := v]> (foldl (fun m w => <[w.1 := w.2]> m) m ws).
Proof.
  revert m. induction ws as [|[q u] ws IH]; intros m; cbn [foldl fst snd].
  - by rewrite insert_insert_eq.
  - destruct (decide (q = p)) as [->|Hq].
    + by rewrite insert_insert_eq.
    + rewrite (insert_insert_ne _ q p) by done. apply IH.
Qed.

Lemma all_then_all {V} (m : gmap Os.path V) (ws : list (Os.path * V)) :
  foldl (fun m w => <[w.1 := w.2]> m)
        (foldl (fun m w => <[w.1 := w.2]> m) m ws) ws
  = foldl (fun m w => <[w.1 := w.2]> m) m ws.
Proof.
  revert m. induction ws as [|[p v] ws IH] using rev_ind; intros m; [done|].
  rewrite !foldl_app. cbn [foldl fst snd]. by rewrite insert_then_all, IH.
Qed.

Lemma foldl_files (m : gmap Os.path Os.node) (ws : list (Os.path * bytes)) :
  foldl (fun m (w : Os.path * bytes) => <[w.1 := Os.File w.2]> m) m ws
  = foldl (fun m (w : Os.path * Os.node) => <[w.1 := w.2]> m) m
          (prod_map id Os.File <$> ws).
Proof.
  revert m. induction ws as [|[p d] ws IH]; intros m; [done|]. apply IH.
Qed.

(** Writing a list of files a second time changes nothing. *)
Lemma write_all_again fs ws fs' :
  Os.write_all fs ws = Ok fs' → Os.write_all fs' ws = Ok fs'.
Proof.
  intros Hw. destruct (write_all_inv _ _ _ Hw) as [Hws Hfs'].
  assert (∀ p, Os.path_isdir fs' p = Os.path_isdir fs p) as Hd.
  { intros p. by apply (OsFacts.write_all_isdir _ _ _ p Hw). }
  assert (Os.denied fs' = Os.denied fs) as Hden by by rewrite Hfs'.
  destruct (write_all_of_writable fs' ws) as [fs2 Hw2].
  { eapply Forall_impl; [exact Hws|]. intros q Hq.
    by apply (writable_same fs fs' q). }
  rewrite Hw2. f_equal. destruct (write_all_inv _ _ _ Hw2) as [_ ->].
  rewrite Hden.
  transitivity (Os.mkFS (Os.nodes fs') (Os.denied fs)); [|by rewrite Hfs'].
  f_equal. rewrite Hfs'. cbn [Os.nodes]. rewrite !foldl_files.
  apply all_then_all.
Qed.

Lemma write_all_exists fs ws fs' q :
  Os.write_all fs ws = Ok fs' →
  Os.path_exists fs q = true → Os.path_exists fs' q = true.
Proof.
  revert fs. induction ws as [|[p d] ws IH]; intros fs; cbn [Os.write_all].
  - by intros [= <-].
  - destruct (Os.write_path fs p d) as [fs1|e] eqn:Ew; [|done].
    intros Hrest Hq. apply (IH _ Hrest).
    apply OsFacts.write_path_ok in Ew as (Hp & _ & _ & _ & ->).
    unfold Os.path_exists in *. rewrite OsFacts.lookup_node_insert by done.
    by case_decide.
Qed.

(** ** [_do_save] and [export_selected], run and read back *)

Lemma do_save_body folder (count : nat) (item : Kivy.ImageItem)
    (s : Kivy.state) :
  (if Kivy.active (Kivy.checkbox item)
   then Kivy.with_fs
          (fun fs => Os.open_wb_write fs
             (Os.os_path_join folder (Kivy.name item)) (Kivy.img_data item))
          ≫= fun _ => mret (count + 1)
   else mret count) s =
  if Kivy.active (Kivy.checkbox item) then
    match Os.open_wb_write (Kivy.fs s)
            (Os.os_path_join folder (Kivy.name item)) (Kivy.img_data item)
    with
    | Ok fs' =>
        (Ok (count + 1),
         Kivy.mkState fs' (Kivy.container s) (Kivy.extracted s)
                      (Kivy._save_popup s) (Kivy.ui s))
    | Raise e => (Raise e, s)
    end
  else (Ok count, s).
Proof.
  destruct (Kivy.active (Kivy.checkbox item)); [|reflexivity].
  unfold Kivy.with_fs. run_m. by destruct (Os.open_wb_write (Kivy.fs s) _ _).
Qed.

Lemma do_save_folder folder s :
  (if negb (Os.os_path_exists (Kivy.fs s) folder)
   then Kivy.with_fs (fun fs => Os.os_makedirs fs folder false)
   else fun s0 => (Ok tt, s0)) s =
  match (if Os.os_path_exists (Kivy.fs s) folder then Ok (Kivy.fs s)
         else Os.os_makedirs (Kivy.fs s) folder false) with
  | Ok fs0 =>
      (Ok tt, Kivy.mkState fs0 (Kivy.container s) (Kivy.extracted s)
                           (Kivy._save_popup s) (Kivy.ui s))
  | Raise e => (Raise e, s)
  end.
Proof.
  destruct (Os.os_path_exists (Kivy.fs s) folder); cbn [negb].
  - by destruct s.
  - unfold Kivy.with_fs. by destruct (Os.os_makedirs (Kivy.fs s) folder false).
Qed.

(** What a [_do_save] that returned has done. *)
Lemma do_save_inv folder s s' :
  Forall (fun it => Os.plain_name (Kivy.name it)) (Kivy.extracted s) →
  Kivy._do_save folder s = (Ok tt, s') →
  ∃ fs0 title,
    (if Os.os_path_exists (Kivy.fs s) folder then Ok (Kivy.fs s)
     else Os.os_makedirs (Kivy.fs s) folder false) = Ok fs0 ∧
    Os.write_all fs0
      ((fun x => (Os.resolve folder ++ [x.1], x.2))
         <$> (Kivy.named <$> Kivy.selection s)) = Ok (Kivy.fs s') ∧
    Kivy._save_popup s = Some title ∧
    s' = Kivy.mkState (Kivy.fs s') (Kivy.container s) (Kivy.extracted s)
           (Some title)
           (Kivy.ui s ++
              [Kivy.PopupDismiss title;
               Kivy.PopupOpen "Done"
                 ("Saved " +:+ str_of_nat (length (Kivy.selection s))
                           +:+ " image(s).")]).
Proof.
  intros Hplain. unfold Kivy._do_save. run_m.
  rewrite (do_save_folder folder s).
  destruct (if Os.os_path_exists (Kivy.fs s) folder then _ else _)
    as [fs0|e]; [|done].
  cbn [Kivy.extracted].
  match goal with
  | |- context [for_fold _ 0 ?f ?s0] =>
      pose proof (KivyExport.do_save_loop folder f) as Hloop;
      destruct (for_fold _ 0 f s0) as [[c|e] s1] eqn:Efold; [|done]
  end.
  destruct Hloop with (items := Kivy.extracted s) (count := 0)
    (s := Kivy.mkState fs0 (Kivy.container s) (Kivy.extracted s)
                       (Kivy._save_popup s) (Kivy.ui s))
    (c' := c) (s' := s1) as (Hw & -> & Hc & He & Hp & Hu);
    [|done|exact Efold|].
  { intros count item s0. apply do_save_body. }
  clear Hloop. cbn [Kivy.fs Kivy.container Kivy.extracted Kivy._save_popup
                    Kivy.ui] in Hw, Hc, He, Hp, Hu.
  rewrite Hp. destruct (Kivy._save_popup s) as [title|] eqn:Epop; [|done].
  unfold Kivy.show. run_m. intros [= <-].
  cbn [Kivy.fs Kivy.container Kivy.extracted Kivy._save_popup Kivy.ui].
  exists fs0, title. split; [done|]. split; [exact Hw|]. split; [done|].
  by rewrite Hc, He, Hp, Hu, <- app_assoc.
Qed.

(** What [_do_save] does when its folder step and its writes succeed. *)
Lemma do_save_run folder s fs0 fs1 title :
  Forall (fun it => Os.plain_name (Kivy.name it)) (Kivy.extracted s) →
  (if Os.os_path_exists (Kivy.fs s) folder then Ok (Kivy.fs s)
   else Os.os_makedirs (Kivy.fs s) folder false) = Ok fs0 →
  Os.write_all fs0
    ((fun x => (Os.resolve folder ++ [x.1], x.2))
       <$> (Kivy.named <$> Kivy.selection s)) = Ok fs1 →
  Kivy._save_popup s = Some title →
  Kivy._do_save folder s =
  (Ok tt,
   Kivy.mkState fs1 (Kivy.container s) (Kivy.extracted s) (Some title)
     (Kivy.ui s ++
        [Kivy.PopupDismiss title;
         Kivy.PopupOpen "Done"
           ("Saved " +:+ str_of_nat (length (Kivy.selection s))
                     +:+ " image(s).")])).
Proof.
  intros Hplain Hmk Hw Hpop. unfold Kivy._do_save. run_m.
  rewrite (do_save_folder folder s), Hmk.
  cbn [Kivy.extracted].
  match goal with
  | |- context [for_fold _ 0 ?f ?s0] =>
      rewrite (KivyExport.do_save_loop_run folder f
                 (fun count item s => do_save_body folder count item s)
                 (Kivy.extracted s) 0 s0 fs1 Hplain Hw)
  end.
  cbn [Kivy.fs Kivy.container Kivy.extracted Kivy._save_popup Kivy.ui].
  rewrite Hpop. unfold Kivy.show. run_m.
  cbn [Kivy.fs Kivy.container Kivy.extracted Kivy._save_popup Kivy.ui].
  by rewrite ?Hpop, <- app_assoc.
Qed.

End Behaviour.
